(** * Ark image-building scripts: a shallow embedding and its properties

    The development embeds the three scripts of the Ark repository,

    - [scripts/create_disk_with_init.py]  (the disk-with-staging pipeline),
    - [scripts/create_initramfs_zip.py]   (the archive packager),
    - [scripts/create_bootable_image.py]  (the flat-image variant, in the
      module [BootableImage] at the end),

    as programs over the operating-system calls they make.  A program is a
    finite tree of calls ([prog]); running it against a world (a handler
    that answers every call and threads its own state) yields the trace of
    calls with their answers, and the outcome: a returned value or a raised
    exception.  Properties that hold "on every run" are proved for every
    world; concrete worlds are used to evaluate the scripts on inputs.

    Conventions of the model:

    - a Python [str] is a [string] of 8-bit characters, [bytes] a
      [list byte], an [int] a [Z];
    - each call of [os], [os.path], [shutil], [tempfile], [subprocess],
      [open] and [zipfile] is an event answered by the world; a call that
      can raise answers [inl e], and the script then raises [e].  Calls
      raise instances of [Exception] only; [print] always succeeds;
    - two operations of the interpreter are events as well, since what
      they do depends on the machine and on the interpreter's settings:
      building the block of zero bytes of an image ([ZeroBlock], which
      raises [OverflowError] or [MemoryError] when the block cannot be
      built), and [int(s)] for a literal that is not plain ASCII of at
      most 640 characters ([IntOf]: the Unicode tables and the limit on
      the digits of a conversion decide).  On a plain literal [int] is
      computed ([DiskWithInit.read_int]); [str] of an integer is total
      (the sizes that the scripts print are far below the limit on
      digits);
    - the shell commands are kept as a data type, [shell_line] gives the
      text handed to the shell;
    - [create_fat32_disk] is cut into the blocks that its comments mark
      (the line ranges are given with each block);
    - the [zipfile] library is modelled in [FileSystem]: an archive is the
      list of its members, a member a name and its uncompressed content
      (what [zf.write] stores is what reading the member gives back: the
      compression of the library is not part of the scripts);
    - [FileSystem.handle] is a machine that refuses nothing but what the
      store dictates; [FileSystem.faulty] lets any call on a file, a
      directory, an archive or the memory be refused as well (a missing
      directory, a full disk, a time stamp that [zipfile] rejects). *)

From stdpp Require Import gmap strings list pretty.
From Stdlib Require Import ZArith Ascii String Lia.
From Stdlib.Strings Require Import Byte.

Local Open Scope Z_scope.
Local Open Scope string_scope.

(* ===================================================================== *)
(** * Python string helpers used by the scripts *)
(* ===================================================================== *)

Module Py.

(** The double-quote character and the newline, for multi-line texts. *)
Definition dquote : string := String "034"%char "".
Definition nl : string := String "010"%char "".

(** [str.isspace] on the ASCII range. *)
Definition is_space (c : ascii) : bool :=
  let n := nat_of_ascii c in
  (Nat.leb 9 n && Nat.leb n 13) || (Nat.leb 28 n && Nat.leb n 32).

Fixpoint lstrip (s : string) : string :=
  match s with
  | EmptyString => EmptyString
  | String c s' => if is_space c then lstrip s' else s
  end.

Fixpoint rstrip (s : string) : string :=
  match s with
  | EmptyString => EmptyString
  | String c s' =>
      match rstrip s' with
      | EmptyString => if is_space c then EmptyString else String c EmptyString
      | r => String c r
      end
  end.

(** [s.strip()] *)
Definition strip (s : string) : string := rstrip (lstrip s).

(** Truth value of a [str]: the empty string is falsy. *)
Definition truthy (s : string) : bool :=
  match s with EmptyString => false | _ => true end.

(** [c in s] for a one-character [c]. *)
Fixpoint contains_char (c : ascii) (s : string) : bool :=
  match s with
  | EmptyString => false
  | String d s' => if Ascii.eqb c d then true else contains_char c s'
  end.

(** [s.count(c)] for a one-character [c]. *)
Fixpoint count_char (c : ascii) (s : string) : nat :=
  match s with
  | EmptyString => O
  | String d s' => ((if Ascii.eqb c d then 1 else 0) + count_char c s')%nat
  end.

(** [s.split(c, 1)] when [c] occurs in [s]: the text before the first
    occurrence and the text after it. *)
Fixpoint split_first (c : ascii) (s : string) : string * string :=
  match s with
  | EmptyString => (EmptyString, EmptyString)
  | String d s' =>
      if Ascii.eqb c d then (EmptyString, s')
      else let '(a, b) := split_first c s' in (String d a, b)
  end.

(** [s.split(c)]: all the fields, empty ones included. *)
Fixpoint split_all (c : ascii) (s : string) : list string :=
  match s with
  | EmptyString => [EmptyString]
  | String d s' =>
      match split_all c s' with
      | [] => [EmptyString]
      | f :: fs => if Ascii.eqb c d then EmptyString :: f :: fs
                   else String d f :: fs
      end
  end.

(** [sep.join(l)] *)
Fixpoint join (sep : string) (l : list string) : string :=
  match l with
  | [] => EmptyString
  | [x] => x
  | x :: rest => x ++ sep ++ join sep rest
  end.

(** [s * n] *)
Fixpoint repeat_str (s : string) (n : nat) : string :=
  match n with
  | O => EmptyString
  | S k => s ++ repeat_str s k
  end.

(** [s.replace(old, '')]: the occurrences of [old] are removed from left
    to right, without overlap; [skip] counts the characters of a match
    still to drop. *)
Fixpoint remove_from (old : string) (skip : nat) (s : string) : string :=
  match s with
  | EmptyString => EmptyString
  | String c s' =>
      match skip with
      | S k => remove_from old k s'
      | O => if String.prefix old s
             then remove_from old (String.length old - 1) s'
             else String c (remove_from old 0 s')
      end
  end.

Definition remove_all (old s : string) : string :=
  match old with
  | EmptyString => s
  | _ => remove_from old 0 s
  end.

(** [b'\x00' * n]: a negative count gives the empty byte string. *)
Definition zero_bytes (n : Z) : list byte := repeat x00 (Z.to_nat n).

(** [str(n)] for an [int], as an f-string prints it. *)
Definition str_of_int (n : Z) : string := pretty n.

(** [sys.maxsize] of a 64-bit interpreter: the largest length of a
    [bytes] object. *)
Definition max_ssize : Z := 2 ^ 63 - 1.

(** The blanks that [int] skips around a literal, those of C's
    [isspace]: tab to carriage return, and the space.  (The separators
    [0x1c] to [0x1f], which [str.strip] removes, are not among them.) *)
Definition is_blank (c : ascii) : bool :=
  let n := nat_of_ascii c in (Nat.leb 9 n && Nat.leb n 13) || Nat.eqb n 32.

Fixpoint skip_blanks (s : string) : string :=
  match s with
  | EmptyString => EmptyString
  | String c s' => if is_blank c then skip_blanks s' else s
  end.

Fixpoint all_blank (s : string) : bool :=
  match s with
  | EmptyString => true
  | String c s' => is_blank c && all_blank s'
  end.

(** A [str] of ASCII characters only. *)
Fixpoint is_ascii (s : string) : bool :=
  match s with
  | EmptyString => true
  | String c s' => Nat.ltb (nat_of_ascii c) 128 && is_ascii s'
  end.

(** ** [repr] of an ASCII [str] *)

Definition backslash : ascii := "092"%char.
Definition squote : ascii := "039"%char.

Definition hex_digit (n : nat) : ascii :=
  match String.get n "0123456789abcdef" with
  | Some c => c
  | None => "0"%char
  end.

(** One character between the quotes [quote]: the quote and the
    backslash are escaped, tab, newline and carriage return have their
    letters, the other control characters are written [\xNN]. *)
Definition repr_char (quote c : ascii) : string :=
  let n := nat_of_ascii c in
  if Ascii.eqb c backslash || Ascii.eqb c quote then String backslash (String c "")
  else if Nat.eqb n 9 then String backslash "t"
  else if Nat.eqb n 10 then String backslash "n"
  else if Nat.eqb n 13 then String backslash "r"
  else if Nat.ltb n 32 || Nat.eqb n 127
       then String backslash
              (String "x" (String (hex_digit (n / 16)) (String (hex_digit (n mod 16)) "")))
  else String c "".

Definition repr_body (quote : ascii) (s : string) : string :=
  String.concat "" (List.map (repr_char quote) (list_ascii_of_string s)).

(** [repr(s)]: single quotes, or double quotes when [s] holds a single
    quote and no double one. *)
Definition repr (s : string) : string :=
  let quote := if contains_char squote s && negb (contains_char "034"%char s)
               then "034"%char else squote in
  String quote (repr_body quote s ++ String quote "").

(** ** [signal.Signals] on Linux *)

(** The name under which [signal.Signals(n)] prints, [None] where it
    raises [ValueError]. *)
Definition signal_name (n : Z) : option string :=
  match n with
  | 1 => Some "SIGHUP" | 2 => Some "SIGINT" | 3 => Some "SIGQUIT"
  | 4 => Some "SIGILL" | 5 => Some "SIGTRAP" | 6 => Some "SIGABRT"
  | 7 => Some "SIGBUS" | 8 => Some "SIGFPE" | 9 => Some "SIGKILL"
  | 10 => Some "SIGUSR1" | 11 => Some "SIGSEGV" | 12 => Some "SIGUSR2"
  | 13 => Some "SIGPIPE" | 14 => Some "SIGALRM" | 15 => Some "SIGTERM"
  | 16 => Some "SIGSTKFLT" | 17 => Some "SIGCHLD" | 18 => Some "SIGCONT"
  | 19 => Some "SIGSTOP" | 20 => Some "SIGTSTP" | 21 => Some "SIGTTIN"
  | 22 => Some "SIGTTOU" | 23 => Some "SIGURG" | 24 => Some "SIGXCPU"
  | 25 => Some "SIGXFSZ" | 26 => Some "SIGVTALRM" | 27 => Some "SIGPROF"
  | 28 => Some "SIGWINCH" | 29 => Some "SIGIO" | 30 => Some "SIGPWR"
  | 31 => Some "SIGSYS" | 34 => Some "SIGRTMIN" | 64 => Some "SIGRTMAX"
  | _ => None
  end%string.

(** ** [posixpath] *)

(** [os.path.join(a, b)] *)
Definition path_join (a b : string) : string :=
  if String.prefix "/" b then b
  else match a with
       | EmptyString => b
       | _ => if String.prefix "/" (String.rev a) then a ++ b
              else a ++ "/" ++ b
       end.

(** [os.path.basename(p)]: what follows the last slash. *)
Fixpoint basename (p : string) : string :=
  match p with
  | EmptyString => EmptyString
  | String c p' =>
      if contains_char "/" p then basename p' else p
  end.

(** [os.path.normpath(path)] *)
Definition norm_step (absolute : bool) (acc : list string) (comp : string)
  : list string :=
  if String.eqb comp "" || String.eqb comp "." then acc
  else if negb (String.eqb comp "..") then acc ++ [comp]
  else match List.rev acc with
       | [] => if absolute then acc else acc ++ [comp]
       | lastc :: _ =>
           if String.eqb lastc ".." then acc ++ [comp]
           else removelast acc
       end.

Definition initial_slashes (path : string) : nat :=
  if String.prefix "/" path then
    if String.prefix "//" path && negb (String.prefix "///" path)
    then 2%nat else 1%nat
  else 0%nat.

Definition normpath (path : string) : string :=
  match path with
  | EmptyString => "."
  | _ =>
      let n := initial_slashes path in
      let comps := fold_left (norm_step (negb (Nat.eqb n 0))) (split_all "/" path) [] in
      match repeat_str "/" n ++ join "/" comps with
      | EmptyString => "."
      | r => r
      end
  end.

End Py.

(* ===================================================================== *)
(** * Programs over operating-system calls *)
(* ===================================================================== *)

(** An instance of a Python [Exception] subclass: its class name and its
    message, [str(e)].  The calls to the operating system raise nothing
    else (no asynchronous interrupt is modelled). *)
Record py_error : Type := PyError {
  err_class : string;
  err_msg : string
}.

(** What a script can raise: an [Exception], or the [SystemExit] of
    [sys.exit(code)], which [except Exception] lets through. *)
Inductive exn : Type :=
| Exc (e : py_error)
| SystemExit (code : Z).

(** The answer of a call that may raise. *)
Definition result (X : Type) : Type := py_error + X.

(** The shell commands of [create_disk_with_init.py], one constructor per
    f-string of the source; [shell_line] is the text handed to the shell. *)
Inductive command : Type :=
| Parted_mklabel (image : string)
| Parted_mkpart (image : string)
| Parted_set_boot (image : string)
| Losetup_show (image : string)
| Losetup_find
| Mkfs_fat (dev : string)
| Mkfs_vfat (dev : string)
| Mount (dev mount_point : string)
| Umount (dev : string)
| Losetup_detach (loopdev : string).

Definition shell_line (c : command) : string :=
  match c with
  | Parted_mklabel image => "parted -s " ++ image ++ " mklabel msdos"
  | Parted_mkpart image => "parted -s " ++ image ++ " mkpart primary fat32 1MB 100%"
  | Parted_set_boot image => "parted -s " ++ image ++ " set 1 boot on"
  | Losetup_show image => "losetup -f --show " ++ image
  | Losetup_find => "losetup -f"
  | Mkfs_fat dev => "mkfs.fat -F 32 " ++ dev
  | Mkfs_vfat dev => "mkfs.vfat -F 32 " ++ dev
  | Mount dev mount_point => "mount " ++ dev ++ " " ++ mount_point
  | Umount dev => "umount " ++ dev
  | Losetup_detach loopdev => "losetup -d " ++ loopdev
  end.

(** [subprocess.CompletedProcess] *)
Record completed : Type := Completed {
  returncode : Z;
  stdout : string;
  stderr : string
}.

(** [zipfile.ZipInfo], the fields the packager prints. *)
Record zipinfo : Type := ZipInfo {
  filename : string;
  file_size : Z;
  compress_type : Z
}.

(** One entry of [os.walk]: [(root, dirs, files)]. *)
Definition walk_entry : Type := string * list string * list string.

(** The calls the scripts make.  An open file, archive or temporary
    directory is named by its path: no script holds two at once. *)
Inductive os_op : Type -> Type :=
(* output *)
| Print (line : string) : os_op unit
| PrintErr (line : string) : os_op unit
(* the interpreter: b'\x00' * n, and int(s) for a literal that is not plain *)
| ZeroBlock (n : Z) : os_op (result unit)
| IntOf (s : string) : os_op (result Z)
(* subprocess.run(cmd, shell=True, capture_output=True, text=True) *)
| SubprocessRun (cmd : command) : os_op (result completed)
(* os, os.path, shutil, tempfile *)
| PathExists (path : string) : os_op bool
| IsFile (path : string) : os_op bool
| Remove (path : string) : os_op (result unit)
| GetSize (path : string) : os_op (result Z)
| MakeDirs (path : string) : os_op (result unit)
| Copy2 (src dst : string) : os_op (result unit)
| Walk (top : string) : os_op (list walk_entry)
| RelPath (path start : string) : os_op (result string)
| MkDTemp : os_op (result string)
| RmTree (path : string) : os_op (result unit)
(* open(path, 'wb' or 'w'), f.write, f.close *)
| OpenW (path : string) (binary : bool) : os_op (result unit)
| FWrite (path : string) (data : list byte) : os_op (result unit)
| FClose (path : string) : os_op (result unit)
(* zipfile.ZipFile(path, 'w', ZIP_DEFLATED), zf.write, zf.close,
   zipfile.ZipFile(path), zf.infolist *)
| ZipOpenW (path : string) : os_op (result unit)
| ZipWrite (path host arcname : string) : os_op (result unit)
| ZipOpenR (path : string) : os_op (result unit)
| ZipInfoList (path : string) : os_op (list zipinfo)
| ZipClose (path : string) : os_op (result unit).

(** A call together with its answer. *)
Inductive event : Type :=
| Ev {X : Type} (op : os_op X) (ans : X).

(** A script: it returns, raises, or makes a call and goes on with the
    answer. *)
Inductive prog (A : Type) : Type :=
| Ret (a : A)
| Raise (e : exn)
| Call {X : Type} (op : os_op X) (k : X -> prog A).

Arguments Ret {A} a.
Arguments Raise {A} e.
Arguments Call {A X} op k.

Fixpoint bind {A B : Type} (p : prog A) (k : A -> prog B) : prog B :=
  match p with
  | Ret a => k a
  | Raise e => Raise e
  | Call op f => Call op (fun x => bind (f x) k)
  end.

Declare Scope prog_scope.
Delimit Scope prog_scope with prog.
Bind Scope prog_scope with prog.

Notation "x <- p ;; k" := (bind p (fun x => k))
  (at level 100, p at next level, k at level 200, right associativity) : prog_scope.
Notation "p ;; k" := (bind p (fun _ => k))
  (at level 100, k at level 200, right associativity) : prog_scope.

Local Open Scope prog_scope.

(** A call that cannot raise, and one that raises what the world answers. *)
Definition call {X : Type} (op : os_op X) : prog X := Call op Ret.

Definition call_r {X : Type} (op : os_op (result X)) : prog X :=
  Call op (fun r => match r with inl e => Raise (Exc e) | inr x => Ret x end).

Definition print (line : string) : prog unit := call (Print line).
Definition print_err (line : string) : prog unit := call (PrintErr line).

(** [sys.exit(code)] *)
Definition sys_exit {A : Type} (code : Z) : prog A := Raise (SystemExit code).

(** [if b: p] *)
Definition when (b : bool) (p : prog unit) : prog unit :=
  if b then p else Ret tt.

(** [try: body finally: final].  An exception of [final] replaces the
    outcome of [body]. *)
Fixpoint try_finally {A : Type} (body : prog A) (final : prog unit) : prog A :=
  match body with
  | Ret a => final ;; Ret a
  | Raise e => final ;; Raise e
  | Call op k => Call op (fun x => try_finally (k x) final)
  end.

(** [try: body except Exception as e: handler(e)] *)
Fixpoint try_except {A : Type} (body : prog A) (handler : py_error -> prog A)
  : prog A :=
  match body with
  | Ret a => Ret a
  | Raise (Exc e) => handler e
  | Raise (SystemExit code) => Raise (SystemExit code)
  | Call op k => Call op (fun x => try_except (k x) handler)
  end.

(** [with cm as x: body]: [leave] runs on every exit of [body]. *)
Definition with_resource {X A : Type} (enter : prog X) (leave : X -> prog unit)
    (body : X -> prog A) : prog A :=
  x <- enter ;; try_finally (body x) (leave x).

(** [for x in l: body(x)] *)
Fixpoint for_each {X : Type} (l : list X) (body : X -> prog unit) : prog unit :=
  match l with
  | [] => Ret tt
  | x :: rest => body x ;; for_each rest body
  end.

(** ** Running a program *)

(** How a run ends. *)
Inductive outcome (A : Type) : Type :=
| Returned (a : A)
| Raised (e : exn).

Arguments Returned {A} a.
Arguments Raised {A} e.

(** A world answers every call and moves to its next state. *)
Definition world (W : Type) : Type := forall X : Type, os_op X -> W -> X * W.

Fixpoint run {W A : Type} (handle : world W) (p : prog A) (w : W)
  : list event * outcome A * W :=
  match p with
  | Ret a => ([], Returned a, w)
  | Raise e => ([], Raised e, w)
  | Call op k =>
      let '(x, w1) := handle _ op w in
      let '(t, o, w2) := run handle (k x) w1 in
      (Ev op x :: t, o, w2)
  end.

Definition trace_of {W A : Type} (r : list event * outcome A * W) : list event :=
  r.1.1.
Definition outcome_of {W A : Type} (r : list event * outcome A * W) : outcome A :=
  r.1.2.
Definition final_of {W A : Type} (r : list event * outcome A * W) : W :=
  r.2.

(** The exit status of the interpreter for a run of [main]. *)
Definition exit_code (o : outcome unit) : Z :=
  match o with
  | Returned _ => 0
  | Raised (SystemExit code) => code
  | Raised (Exc _) => 1
  end.

(* ===================================================================== *)
(** * [scripts/create_disk_with_init.py] *)
(* ===================================================================== *)

Module DiskWithInit.

Import Py.

(** [int(s)] on an ASCII literal, as [PyLong_FromString] reads it in
    base 10: blanks, an optional sign, digits with single underscores
    between them, blanks; nothing may stand between the sign and the
    digits or after the last blank.  [None] is the [ValueError]. *)
Definition is_digit (c : ascii) : bool :=
  let n := nat_of_ascii c in Nat.leb 48 n && Nat.leb n 57.

Fixpoint digits_value (acc : Z) (after_digit : bool) (s : string) : option Z :=
  match s with
  | EmptyString => if after_digit then Some acc else None
  | String c s' =>
      if is_digit c
      then digits_value (10 * acc + Z.of_nat (nat_of_ascii c - 48)) true s'
      else if Ascii.eqb c "_" && after_digit then digits_value acc false s'
      else if after_digit && all_blank s then Some acc
      else None
  end.

Definition parse_int (s : string) : option Z :=
  match skip_blanks s with
  | String "-" ds => Z.opp <$> digits_value 0 false ds
  | String "+" ds => digits_value 0 false ds
  | ds => digits_value 0 false ds
  end.

(** A literal on which [int] does not depend on the interpreter: ASCII
    only (no digits or blanks of other scripts), and short enough for
    the limit on the digits of a conversion, which cannot be set below
    640. *)
Definition is_plain (s : string) : bool :=
  is_ascii s && Nat.leb (String.length s) 640.

(** What [int(s)] makes of a literal. *)
Inductive literal : Type :=
| Number (n : Z)
| Invalid
| Beyond.

Definition read_int (s : string) : literal :=
  if is_plain s then
    match parse_int s with
    | Some n => Number n
    | None => Invalid
    end
  else Beyond.

Definition invalid_literal (s : string) : py_error :=
  PyError "ValueError" ("invalid literal for int() with base 10: " ++ repr s).

Definition py_int (s : string) : prog Z :=
  match read_int s with
  | Number n => Ret n
  | Invalid => Raise (Exc (invalid_literal s))
  | Beyond => call_r (IntOf s)
  end.

(** [str(e)] for the [CalledProcessError] of a status: a negative status
    is the signal that ended the process. *)
Definition called_process_message (cmd : string) (status : Z) : string :=
  if (status <? 0)%Z then
    match signal_name (- status) with
    | Some name => "Command '" ++ cmd ++ "' died with <Signals." ++ name ++ ": "
                   ++ str_of_int (- status) ++ ">."
    | None => "Command '" ++ cmd ++ "' died with unknown signal "
              ++ str_of_int (- status) ++ "."
    end
  else "Command '" ++ cmd ++ "' returned non-zero exit status "
       ++ str_of_int status ++ ".".

(** [subprocess.run(cmd, shell=True, capture_output=True, text=True,
    check=check)]: with [check], a non-zero status raises. *)
Definition subprocess_run (cmd : command) (check : bool) : prog completed :=
  r <- call_r (SubprocessRun cmd) ;;
  if check && negb (returncode r =? 0)%Z
  then Raise (Exc (PyError "CalledProcessError"
                     (called_process_message (shell_line cmd) (returncode r))))
  else Ret r.

(** Lines 18-26. *)
Definition run_cmd (cmd : command) (check : bool) : prog (Z * string * string) :=
  try_except
    (result <- subprocess_run cmd check ;;
     Ret (returncode result, stdout result, stderr result))
    (fun e =>
       print ("[!] Error running command: " ++ shell_line cmd) ;;
       print ("[!] Exception: " ++ err_msg e) ;;
       Ret (1, "", err_msg e)).

(** Lines 33-41: remove the old image, write the zero-filled one.  The
    file is opened before the block of zeros is built. *)
Definition allocate_image (output_image : string) (size_mb : Z) : prog unit :=
  old <- call (PathExists output_image) ;;
  when old (call_r (Remove output_image)) ;;
  let sector_count := (size_mb * 1024 * 1024) / 512 in
  with_resource (call_r (OpenW output_image true))
    (fun _ => call_r (FClose output_image))
    (fun _ =>
       call_r (ZeroBlock (size_mb * 1024 * 1024)) ;;
       call_r (FWrite output_image (zero_bytes (size_mb * 1024 * 1024)))) ;;
  print ("[+] Created " ++ str_of_int size_mb ++ "MB disk image").

(** Lines 43-57: label, partition, boot flag. *)
Definition write_partition_table (output_image : string) : prog unit :=
  print "[*] Creating MBR partition table..." ;;
  r <- run_cmd (Parted_mklabel output_image) false ;; let '(ret, _, err) := r in
  when (negb (ret =? 0)%Z) (print ("[!] parted mklabel failed: " ++ err)) ;;
  print "[*] Creating FAT32 partition..." ;;
  r <- run_cmd (Parted_mkpart output_image) false ;; let '(ret, _, err) := r in
  when (negb (ret =? 0)%Z) (print ("[!] parted mkpart failed: " ++ err)) ;;
  print "[*] Formatting partition as FAT32..." ;;
  r <- run_cmd (Parted_set_boot output_image) false ;; let '(ret, _, err) := r in
  Ret tt.

(** Lines 59-71: the loop device, [None] when neither query names one. *)
Definition attach_loop (output_image : string) : prog (option string) :=
  print "[*] Setting up loop device..." ;;
  r <- run_cmd (Losetup_show output_image) false ;; let '(ret, out, err) := r in
  if negb (ret =? 0)%Z then
    print ("[!] Could not find loop device: " ++ err) ;;
    print "[!] Trying with partition offset..." ;;
    r <- run_cmd Losetup_find false ;; let '(ret, out, err) := r in
    if (ret =? 0)%Z then Ret (Some (strip out)) else Ret None
  else Ret (Some (strip out)).

(** Lines 79-83: the partition node, or the whole device. *)
Definition resolve_partition (loopdev : string) : prog string :=
  let partition_dev := loopdev ++ "p1" in
  found <- call (PathExists partition_dev) ;;
  if negb found then Ret loopdev else Ret partition_dev.

(** Lines 85-90. *)
Definition format_partition (partition_dev : string) : prog unit :=
  print ("[*] Formatting " ++ partition_dev ++ " as FAT32...") ;;
  r <- run_cmd (Mkfs_fat partition_dev) false ;; let '(ret, _, err) := r in
  if negb (ret =? 0)%Z then
    print ("[!] mkfs.fat failed: " ++ err) ;;
    r <- run_cmd (Mkfs_vfat partition_dev) false ;; let '(ret, _, err) := r in
    Ret tt
  else Ret tt.

(** Lines 123-132. *)
Definition grub_cfg : string :=
  "# GRUB2 boot configuration for Ark OS" ++ nl ++
  nl ++
  "menuentry 'Ark OS' {" ++ nl ++
  "    multiboot /bzImage" ++ nl ++
  "    echo " ++ dquote ++ "Booting Ark OS kernel..." ++ dquote ++ nl ++
  "}" ++ nl ++
  nl ++
  "set timeout=5" ++ nl ++
  "set default=0" ++ nl.

(** Lines 140-151: one [os.walk] entry of the listing. *)
Definition list_entry (mount_point : string) (entry : walk_entry) : prog unit :=
  let '(root, dirs, files) := entry in
  let level := count_char "/" (remove_all mount_point root) in
  let indent := repeat_str (repeat_str " " 2) level in
  rel_path <- call_r (RelPath root mount_point) ;;
  (if String.eqb rel_path "." then print "  /"
   else print ("  " ++ indent ++ basename root ++ "/")) ;;
  let subindent := repeat_str (repeat_str " " 2) (level + 1) in
  for_each files (fun file =>
    size <- call_r (GetSize (path_join root file)) ;;
    print ("  " ++ subindent ++ file ++ " (" ++ str_of_int size ++ " bytes)")).

(** Lines 100-151: the body of the [try]. *)
Definition stage_tree (mount_point kernel_path init_bin_path : string) : prog unit :=
  print "[*] Creating /bin and /usr directories..." ;;
  call_r (MakeDirs (path_join mount_point "bin")) ;;
  call_r (MakeDirs (path_join mount_point "usr")) ;;
  have_init <- call (PathExists init_bin_path) ;;
  (if have_init then
     print ("[*] Copying " ++ init_bin_path ++ " to /bin/init.bin...") ;;
     call_r (Copy2 init_bin_path (path_join (path_join mount_point "bin") "init.bin")) ;;
     print "[+] init.bin copied"
   else
     print ("[!] Warning: init.bin not found at " ++ init_bin_path)) ;;
  have_kernel <- call (PathExists kernel_path) ;;
  when have_kernel
    (print ("[*] Copying " ++ kernel_path ++ " to /bzImage...") ;;
     call_r (Copy2 kernel_path (path_join mount_point "bzImage")) ;;
     print "[+] bzImage copied") ;;
  call_r (MakeDirs (path_join (path_join mount_point "boot") "grub")) ;;
  let grub_path := path_join (path_join (path_join mount_point "boot") "grub") "grub.cfg" in
  with_resource (call_r (OpenW grub_path false))
    (fun _ => call_r (FClose grub_path))
    (fun _ => call_r (FWrite grub_path (list_byte_of_string grub_cfg))) ;;
  print "[+] GRUB configuration created" ;;
  print (nl ++ "[*] Disk image contents:") ;;
  entries <- call (Walk mount_point) ;;
  for_each entries (list_entry mount_point).

(** Lines 93-159: the temporary mount point, the mount, the staging under
    [try ... finally], the unmount. *)
Definition mount_and_stage (partition_dev kernel_path init_bin_path : string)
  : prog unit :=
  with_resource (call_r MkDTemp) (fun tmpdir => call_r (RmTree tmpdir))
    (fun tmpdir =>
       let mount_point := tmpdir in
       print ("[*] Mounting partition to " ++ mount_point ++ "...") ;;
       r <- run_cmd (Mount partition_dev mount_point) false ;; let '(ret, _, err) := r in
       if (ret =? 0)%Z then
         try_finally
           (stage_tree mount_point kernel_path init_bin_path)
           (print (nl ++ "[*] Unmounting partition...") ;;
            run_cmd (Umount partition_dev) false ;;
            Ret tt)
       else
         print ("[!] Failed to mount partition: " ++ err) ;;
         print "[!] Proceeding with unmounted image").

(** Lines 28-164. *)
Definition create_fat32_disk (output_image : string) (size_mb : Z)
    (kernel_path init_bin_path : string) : prog bool :=
  print ("[*] Creating " ++ str_of_int size_mb ++ "MB FAT32 disk image: "
         ++ output_image) ;;
  allocate_image output_image size_mb ;;
  write_partition_table output_image ;;
  loopdev <- attach_loop output_image ;;
  match loopdev with
  | Some dev =>
      if truthy dev then
        print ("[+] Using loop device: " ++ dev) ;;
        partition_dev <- resolve_partition dev ;;
        format_partition partition_dev ;;
        mount_and_stage partition_dev kernel_path init_bin_path ;;
        run_cmd (Losetup_detach dev) false ;;
        Ret true
      else
        print "[!] Failed to get loop device" ;;
        Ret false
  | None =>
      print "[!] Failed to get loop device" ;;
      Ret false
  end.

(** Lines 166-197; [argv] is [sys.argv]. *)
Definition main (argv : list string) : prog unit :=
  match argv with
  | _ :: kernel_path :: init_bin_path :: output_image :: rest =>
      size_mb <- match rest with
                 | s :: _ => py_int s
                 | [] => Ret 256
                 end ;;
      have_kernel <- call (PathExists kernel_path) ;;
      (if negb have_kernel then
         print ("[!] Error: Kernel not found: " ++ kernel_path) ;;
         sys_exit 1
       else Ret tt) ;;
      have_init <- call (PathExists init_bin_path) ;;
      when (negb have_init)
        (print ("[!] Warning: init.bin not found: " ++ init_bin_path) ;;
         print "[!] Creating disk without init.bin...") ;;
      ok <- create_fat32_disk output_image size_mb kernel_path init_bin_path ;;
      if ok then
        print (nl ++ "[+] Disk image created successfully: " ++ output_image) ;;
        print "[+] Filesystem: FAT32" ;;
        print "[+] Contents: /bin/init.bin, /usr/, /boot/grub/grub.cfg" ;;
        print (nl ++ "[*] To test with QEMU:") ;;
        print ("    qemu-system-i386 -drive file=" ++ output_image
               ++ ",format=raw -m 256M") ;;
        print (nl ++ "[*] To write to USB device:") ;;
        print ("    sudo dd if=" ++ output_image ++ " of=/dev/sdX bs=1M status=progress")
      else
        print "[!] Failed to create disk image" ;;
        sys_exit 1
  | _ =>
      print "Usage: ./create_disk_with_init.py <kernel_path> <init.bin_path> <output_image> [size_mb]" ;;
      print "Example: ./create_disk_with_init.py bzImage init.bin disk.img 256" ;;
      sys_exit 1
  end.

End DiskWithInit.

(* ===================================================================== *)
(** * [scripts/create_initramfs_zip.py] *)
(* ===================================================================== *)

Module InitramfsZip.

Import Py.

(** Lines 2-18: the module docstring, printed as the usage text. *)
Definition doc : string :=
  nl ++
  "create_initramfs_zip.py — build an initramfs.zip for Ark kernel" ++ nl ++
  nl ++
  "Usage:" ++ nl ++
  "    python3 scripts/create_initramfs_zip.py <init_binary> [output.zip] [extra_file:zip_path ...]" ++ nl ++
  nl ++
  "Example:" ++ nl ++
  "    python3 scripts/create_initramfs_zip.py init.bin initramfs.zip" ++ nl ++
  "    python3 scripts/create_initramfs_zip.py init.bin initramfs.zip bin/sh:bin/sh" ++ nl ++
  nl ++
  "The ZIP must contain a file named exactly 'init' (no leading slash needed —" ++ nl ++
  "the kernel's zip.c normalises all paths to /name automatically)." ++ nl ++
  nl ++
  "QEMU boot:" ++ nl ++
  "    qemu-system-i386 -kernel bzImage -initrd initramfs.zip" ++ nl ++
  "    (QEMU passes -initrd as multiboot mods[0]; kernel detects PK magic → extracts)" ++ nl.

(** [f"{s:<n}"] and [f"{s:>n}"] *)
Definition ljust (s : string) (n : nat) : string :=
  s ++ repeat_str " " (n - String.length s).
Definition rjust (s : string) (n : nat) : string :=
  repeat_str " " (n - String.length s) ++ s.

(** Line 28: [sys.argv[2]], or the default name. *)
Definition out_zip_of (rest : list string) : string :=
  match rest with
  | out_zip :: _ => out_zip
  | [] => "initramfs.zip"
  end.

(** Line 29: [sys.argv[3:]]. *)
Definition extras_of (rest : list string) : list string :=
  match rest with
  | _ :: extras => extras
  | [] => []
  end.

(** Lines 41-45: the host path and the archive path of an extra argument. *)
Definition parse_extra (extra : string) : string * string :=
  if contains_char ":" extra then split_first ":" extra
  else (extra, basename extra).

(** Lines 40-50: one iteration of the loop over the extras. *)
Definition add_extra (out_zip extra : string) : prog unit :=
  let '(host, zpath) := parse_extra extra in
  is_file <- call (IsFile host) ;;
  if is_file then
    call_r (ZipWrite out_zip host zpath) ;;
    size <- call_r (GetSize host) ;;
    print ("  added: " ++ zpath ++ "  (" ++ str_of_int size ++ " bytes)  <- " ++ host)
  else
    print_err ("  WARN: extra file not found, skipping: " ++ host).

(** Lines 54-56: one line of the listing of the archive. *)
Definition list_member (info : zipinfo) : prog unit :=
  let method := if (compress_type info =? 0)%Z then "stored" else "deflated" in
  print ("  " ++ ljust (filename info) 30 ++ " "
         ++ rjust (str_of_int (file_size info)) 8 ++ " bytes  (" ++ method ++ ")").

(** Lines 22-60; [argv] is [sys.argv]. *)
Definition main (argv : list string) : prog unit :=
  match argv with
  | _ :: init_bin :: rest =>
      let out_zip := out_zip_of rest in
      let extras := extras_of rest in
      is_file <- call (IsFile init_bin) ;;
      (if negb is_file then
         print_err ("ERROR: init binary not found: " ++ init_bin) ;;
         sys_exit 1
       else Ret tt) ;;
      with_resource (call_r (ZipOpenW out_zip)) (fun _ => call_r (ZipClose out_zip))
        (fun _ =>
           call_r (ZipWrite out_zip init_bin "init") ;;
           size <- call_r (GetSize init_bin) ;;
           print ("  added: init  (" ++ str_of_int size ++ " bytes)  <- " ++ init_bin) ;;
           for_each extras (add_extra out_zip)) ;;
      print (nl ++ "Built " ++ out_zip ++ ":") ;;
      with_resource (call_r (ZipOpenR out_zip)) (fun _ => call_r (ZipClose out_zip))
        (fun _ =>
           infos <- call (ZipInfoList out_zip) ;;
           for_each infos list_member) ;;
      print (nl ++ "To run:") ;;
      print ("  qemu-system-i386 -kernel bzImage -initrd " ++ out_zip) ;;
      print ("  make run-with-zip INITRAMFS_ZIP=" ++ out_zip)
  | _ =>
      print doc ;;
      sys_exit 1
  end.

End InitramfsZip.

(* ===================================================================== *)
(** * Reasoning about every run *)
(* ===================================================================== *)

Local Open Scope list_scope.

(** [wp p Q]: whatever the world answers, the trace and the outcome of [p]
    satisfy [Q]. *)
Fixpoint wp {A : Type} (p : prog A) (Q : list event -> outcome A -> Prop) : Prop :=
  match p with
  | Ret a => Q [] (Returned a)
  | Raise e => Q [] (Raised e)
  | Call op k => forall x, wp (k x) (fun t o => Q (Ev op x :: t) o)
  end.

Lemma wp_run {A : Type} (p : prog A) Q :
  wp p Q ->
  forall (W : Type) (handle : world W) (w : W),
    Q (trace_of (run handle p w)) (outcome_of (run handle p w)).
Proof.
  intros Hp W handle. revert Q Hp.
  induction p as [a | e | X op k IH]; intros Q Hp w; simpl in *;
    [exact Hp | exact Hp |].
  destruct (handle X op w) as [x w1] eqn:Hh.
  specialize (IH x _ (Hp x) w1).
  destruct (run handle (k x) w1) as [[t o] w2]. exact IH.
Qed.

Lemma wp_conseq {A : Type} (p : prog A) (Q Q' : list event -> outcome A -> Prop) :
  wp p Q -> (forall t o, Q t o -> Q' t o) -> wp p Q'.
Proof.
  revert Q Q'. induction p as [a | e | X op k IH]; intros Q Q' Hp HQ; simpl in *;
    [apply HQ, Hp | apply HQ, Hp |].
  intros x. eapply IH; [apply Hp |]. intros t o. apply HQ.
Qed.

(** Two postconditions of one program hold together. *)
Lemma wp_and {A : Type} (p : prog A) (Q1 Q2 : list event -> outcome A -> Prop) :
  wp p Q1 -> wp p Q2 -> wp p (fun t o => Q1 t o /\ Q2 t o).
Proof.
  revert Q1 Q2. induction p as [a | e | X op k IH]; intros Q1 Q2 H1 H2; simpl in *;
    [split; assumption | split; assumption |].
  intros x. apply (IH x _ _ (H1 x) (H2 x)).
Qed.

Lemma wp_bind {A B : Type} (p : prog A) (k : A -> prog B) Q :
  wp p (fun t o =>
          match o with
          | Returned a => wp (k a) (fun t' o' => Q (t ++ t') o')
          | Raised e => Q t (Raised e)
          end) ->
  wp (bind p k) Q.
Proof.
  revert Q. induction p as [a | e | X op f IH]; intros Q Hp; simpl in *;
    [exact Hp | exact Hp |].
  intros x. apply IH. eapply wp_conseq; [apply Hp |].
  intros t [a | e]; simpl; auto.
Qed.

Lemma wp_try_finally {A : Type} (body : prog A) (final : prog unit) Q :
  wp body (fun t o =>
             wp final (fun t' o' =>
                         match o' with
                         | Returned _ => Q (t ++ t') o
                         | Raised e => Q (t ++ t') (Raised e)
                         end)) ->
  wp (try_finally body final) Q.
Proof.
  revert Q. induction body as [a | e | X op f IH]; intros Q Hp; simpl in *.
  - apply wp_bind. eapply wp_conseq; [apply Hp |].
    intros t [[] | e]; simpl; rewrite ?app_nil_r; auto.
  - apply wp_bind. eapply wp_conseq; [apply Hp |].
    intros t [[] | e']; simpl; rewrite ?app_nil_r; auto.
  - intros x. apply IH. eapply wp_conseq; [apply Hp |].
    intros t o Hf. eapply wp_conseq; [apply Hf |].
    intros t' [[] | e]; simpl; auto.
Qed.


Lemma wp_with_resource {X A : Type} (enter : prog X) (leave : X -> prog unit)
    (body : X -> prog A) Q :
  wp enter (fun t o =>
              match o with
              | Returned x =>
                  wp (body x) (fun t1 o1 =>
                    wp (leave x) (fun t2 o2 =>
                      match o2 with
                      | Returned _ => Q (t ++ t1 ++ t2) o1
                      | Raised e => Q (t ++ t1 ++ t2) (Raised e)
                      end))
              | Raised e => Q t (Raised e)
              end) ->
  wp (with_resource enter leave body) Q.
Proof.
  intros H. unfold with_resource. apply wp_bind.
  eapply wp_conseq; [apply H |]. intros t [x | e]; simpl; auto.
  intros Hb. apply wp_try_finally. eapply wp_conseq; [apply Hb |].
  intros t1 o1 Hl. eapply wp_conseq; [apply Hl |].
  intros t2 [[] | e]; simpl; auto.
Qed.

(* ===================================================================== *)
(** * Concrete worlds *)
(* ===================================================================== *)

Module Worlds.

Import Py.

(** A machine on which every call succeeds: every path exists, every
    command exits with status 0, [losetup] names a device, the mounted
    tree lists as empty, every block of zeros can be built.  (Its
    interpreter reads plain literals only.) *)
Definition all_fine (X : Type) (op : os_op X) : X :=
  match op in os_op X return X with
  | Print _ => tt
  | PrintErr _ => tt
  | ZeroBlock _ => inr tt
  | IntOf s => inl (DiskWithInit.invalid_literal s)
  | SubprocessRun (Losetup_show _) => inr (Completed 0 ("/dev/loop0" ++ nl)%string "")
  | SubprocessRun Losetup_find => inr (Completed 0 ("/dev/loop1" ++ nl)%string "")
  | SubprocessRun _ => inr (Completed 0 "" "")
  | PathExists _ => true
  | IsFile _ => true
  | Remove _ => inr tt
  | GetSize _ => inr 0
  | MakeDirs _ => inr tt
  | Copy2 _ _ => inr tt
  | Walk _ => []
  | RelPath _ _ => inr "."%string
  | MkDTemp => inr "/tmp/tmpark"%string
  | RmTree _ => inr tt
  | OpenW _ _ => inr tt
  | FWrite _ _ => inr tt
  | FClose _ => inr tt
  | ZipOpenW _ => inr tt
  | ZipWrite _ _ _ => inr tt
  | ZipOpenR _ => inr tt
  | ZipInfoList _ => []
  | ZipClose _ => inr tt
  end.

(** A stateless world: the answers of [over] where it gives one, those of
    [all_fine] elsewhere. *)
Definition scripted (over : forall X : Type, os_op X -> option X) : world unit :=
  fun X op w => (default (all_fine X op) (over X op), w).

(** Every call succeeds. *)
Definition fine : world unit := scripted (fun X op => None).

(** The loop device has no partition node [/dev/loop0p1]. *)
Definition no_partition_node : world unit :=
  scripted (fun X op =>
    match op in os_op X return option X with
    | PathExists "/dev/loop0p1" => Some false
    | _ => None
    end).

(** [umount] releases the volume but exits with status 16 (it could not
    update the mount table), so that the mount point can still be removed. *)
Definition umount_fails : world unit :=
  scripted (fun X op =>
    match op in os_op X return option X with
    | SubprocessRun (Umount _) =>
        Some (inr (Completed 16 "" "umount: can't write /etc/mtab"))
    | _ => None
    end).

(** [umount] fails because the volume is busy (status 32): the volume
    stays mounted, and removing the mount point raises. *)
Definition mount_point_busy : py_error :=
  PyError "OSError" "[Errno 16] Device or resource busy: '/tmp/tmpark'".

Definition umount_busy : world unit :=
  scripted (fun X op =>
    match op in os_op X return option X with
    | SubprocessRun (Umount _) =>
        Some (inr (Completed 32 "" "umount: /tmp/tmpark: target is busy."))
    | RmTree _ => Some (inl mount_point_busy)
    | _ => None
    end).

(** The kernel does not fit on the mounted volume: its copy raises. *)
Definition kernel_copy_raises : world unit :=
  scripted (fun X op =>
    match op in os_op X return option X with
    | Copy2 "bzImage" _ =>
        Some (inl (PyError "OSError" "[Errno 28] No space left on device"))
    | _ => None
    end).

(** [parted], [mkfs.fat], [mkfs.vfat] and [mount] all exit with status 1;
    [losetup] works. *)
Definition degraded : world unit :=
  scripted (fun X op =>
    match op in os_op X return option X with
    | SubprocessRun (Losetup_show _) => None
    | SubprocessRun (Losetup_detach _) => None
    | SubprocessRun _ => Some (inr (Completed 1 "" "failed"))
    | _ => None
    end).

(** No loop device can be had: every command exits with status 1. *)
Definition no_loop_device : world unit :=
  scripted (fun X op =>
    match op in os_op X return option X with
    | SubprocessRun _ => Some (inr (Completed 1 "" "losetup: cannot find an unused loop device"))
    | _ => None
    end).

End Worlds.

(* ===================================================================== *)
(** * A machine with a file store *)
(* ===================================================================== *)

Module FileSystem.

Import Py.

(** A member of a ZIP archive: its name and its uncompressed content. *)
Record zip_member : Type := Member {
  member_name : string;
  member_data : list byte
}.

(** The store: the content of every regular file; for the files that are
    archives written through [zipfile], their members in order; and the
    archive that is open for writing, if any. *)
Record state : Type := State {
  files : gmap string (list byte);
  archives : gmap string (list zip_member);
  writing : option string
}.

(** [ZipInfo.from_file]: the archive name is [os.path.normpath] of the
    given one, without its leading slashes; indexing the empty string that
    is left of a path made of slashes raises [IndexError] ([None]). *)
Fixpoint lstrip_slashes (s : string) : string :=
  match s with
  | String c s' => if Ascii.eqb c "/" then lstrip_slashes s' else s
  | EmptyString => EmptyString
  end.

Definition zip_arcname (arcname : string) : option string :=
  match lstrip_slashes (normpath arcname) with
  | EmptyString => None
  | name => Some name
  end.

(** [zf.infolist()]: archives written with [ZIP_DEFLATED] (method 8). *)
Definition info_of (m : zip_member) : zipinfo :=
  ZipInfo (member_name m) (Z.of_nat (List.length (member_data m))) 8.



Definition no_such_file (path : string) : py_error :=
  PyError "FileNotFoundError" ("[Errno 2] No such file or directory: '" ++ path ++ "'").

Definition unsupported : py_error :=
  PyError "PermissionError" "[Errno 1] Operation not permitted".

(** What [b'\x00' * n] raises for [n] above [sys.maxsize]. *)
Definition too_large : py_error :=
  PyError "OverflowError" "cannot fit 'int' into an index-sized integer".

Section Handler.

(** The bytes of the archive file that holds given members: the ZIP
    encoding, which the model leaves open. *)
Variable zip_image : list zip_member -> list byte.

(** The answers of the machine.  Every file that exists can be read and
    overwritten, and every path can be opened for writing; an archive
    open for writing is an empty file until it is closed (nothing of it
    has been flushed); there are no privileged tools; memory is not
    short: a block of zeros can be built up to [sys.maxsize] bytes; the
    interpreter reads plain literals only. *)
Definition handle : world state :=
  fun X op st =>
    match op in os_op X return X * state with
    | Print _ => (tt, st)
    | PrintErr _ => (tt, st)
    | ZeroBlock n =>
        if (n >? max_ssize)%Z then (inl too_large, st) else (inr tt, st)
    | IntOf s => (inl (DiskWithInit.invalid_literal s), st)
    | PathExists path | IsFile path =>
        (match files st !! path with Some _ => true | None => false end, st)
    | Remove path =>
        match files st !! path with
        | Some _ => (inr tt, State (delete path (files st)) (delete path (archives st))
                                   (writing st))
        | None => (inl (no_such_file path), st)
        end
    | GetSize path =>
        match files st !! path with
        | Some data => (inr (Z.of_nat (List.length data)), st)
        | None => (inl (no_such_file path), st)
        end
    | OpenW path _ =>
        (inr tt, State (<[path := []]> (files st)) (delete path (archives st)) (writing st))
    | FWrite path data =>
        match files st !! path with
        | Some old => (inr tt, State (<[path := old ++ data]> (files st)) (archives st)
                                     (writing st))
        | None => (inl (no_such_file path), st)
        end
    | FClose _ => (inr tt, st)
    | ZipOpenW path =>
        (inr tt, State (<[path := []]> (files st)) (<[path := []]> (archives st))
                       (Some path))
    | ZipWrite path host arcname =>
        match writing st, archives st !! path, files st !! host with
        | Some open, Some members, Some data =>
            if String.eqb open path then
              match zip_arcname arcname with
              | Some name =>
                  (inr tt, State (files st)
                                 (<[path := members ++ [Member name data]]> (archives st))
                                 (writing st))
              | None => (inl (PyError "IndexError" "string index out of range"), st)
              end
            else (inl (PyError "ValueError" "Attempt to use ZIP archive that was already closed"), st)
        | Some _, Some _, None => (inl (no_such_file host), st)
        | _, _, _ =>
            (inl (PyError "ValueError" "Attempt to use ZIP archive that was already closed"), st)
        end
    | ZipClose path =>
        match writing st, archives st !! path with
        | Some open, Some members =>
            if String.eqb open path
            then (inr tt, State (<[path := zip_image members]> (files st)) (archives st) None)
            else (inr tt, st)
        | _, _ => (inr tt, st)
        end
    | ZipOpenR path =>
        match archives st !! path with
        | Some _ => (inr tt, st)
        | None => (inl (PyError "BadZipFile" "File is not a zip file"), st)
        end
    | ZipInfoList path =>
        (match archives st !! path with
         | Some members => List.map info_of members
         | None => []
         end, st)
    | SubprocessRun _ => (inr (Completed 127 "" "/bin/sh: command not found"), st)
    | MakeDirs _ => (inl unsupported, st)
    | Copy2 _ _ => (inl unsupported, st)
    | Walk _ => ([], st)
    | RelPath _ _ => (inr ".", st)
    | MkDTemp => (inl unsupported, st)
    | RmTree _ => (inr tt, st)
    end.

(** ** The machine when calls are refused *)

(** What a call answers when it is refused with the exception [e]: the
    calls on files, directories and archives, the building of a block
    and the reading of a literal raise [e]; the other calls cannot be
    refused. *)
Definition refusal {X : Type} (op : os_op X) (e : py_error) : option X :=
  match op in os_op X return option X with
  | Remove _ | MakeDirs _ | Copy2 _ _ | RmTree _ | OpenW _ _ | FWrite _ _ | FClose _
  | ZipOpenW _ | ZipWrite _ _ _ | ZipOpenR _ | ZipClose _ | ZeroBlock _ => Some (inl e)
  | GetSize _ | IntOf _ => Some (inl e)
  | RelPath _ _ => Some (inl e)
  | MkDTemp => Some (inl e)
  | _ => None
  end.

(** The calls that the machine refuses in a state, and with what: a
    directory that is missing, a disk that is full, a file whose time
    stamp [zipfile] rejects, memory that is short. *)
Variable refused : forall X : Type, os_op X -> state -> option py_error.

(** A refused call raises and leaves the store as it was; every other
    call is answered by [handle].  (What a write that fails half-way
    leaves behind is not modelled.) *)
Definition faulty : world state :=
  fun X op st =>
    match refused X op st with
    | Some e =>
        match refusal op e with
        | Some x => (x, st)
        | None => handle X op st
        end
    | None => handle X op st
    end.

End Handler.

(** Nothing is refused. *)
Definition willing : forall X : Type, os_op X -> state -> option py_error :=
  fun _ _ _ => None.

(** A stand-in for the ZIP encoding, for runs on concrete stores: the
    names and the contents of the members, one after the other. *)
Definition toy_image (members : list zip_member) : list byte :=
  flat_map (fun m => list_byte_of_string (member_name m) ++ member_data m) members.

End FileSystem.

(** ** The string helpers on sample inputs *)

Module PyExamples.

Import Py FileSystem.

Example strip_losetup_output : strip ("/dev/loop0" ++ nl)%string = "/dev/loop0"%string.
Proof. reflexivity. Qed.

Example join_mount_point :
  path_join (path_join "/tmp/tmpark" "bin") "init.bin" = "/tmp/tmpark/bin/init.bin"%string.
Proof. reflexivity. Qed.

Example join_absolute : path_join "/tmp/tmpark" "/etc" = "/etc"%string.
Proof. reflexivity. Qed.

Example basename_of_path : basename "/sbin/init" = "init"%string.
Proof. reflexivity. Qed.

Example basename_of_directory : basename "usr/bin/" = EmptyString.
Proof. reflexivity. Qed.

Example normpath_dots : normpath "/a//b/../c/." = "/a/c"%string.
Proof. reflexivity. Qed.

Example normpath_keeps_two_slashes : normpath "//a" = "//a"%string.
Proof. reflexivity. Qed.

Example normpath_above_root : normpath "/.." = "/"%string.
Proof. reflexivity. Qed.

Example arcname_strips_root : zip_arcname "/bin/../init" = Some "init"%string.
Proof. reflexivity. Qed.

Example arcname_of_root_is_refused : zip_arcname "/" = None.
Proof. reflexivity. Qed.

Example replace_mount_point :
  count_char "/" (remove_all "/tmp/tmpark" "/tmp/tmpark/boot/grub") = 2%nat.
Proof. reflexivity. Qed.

Example parse_extra_with_destination :
  InitramfsZip.parse_extra "bin/sh:bin/sh" = ("bin/sh", "bin/sh")%string.
Proof. reflexivity. Qed.

Example parse_extra_without_destination :
  InitramfsZip.parse_extra "build/sh" = ("build/sh", "sh")%string.
Proof. reflexivity. Qed.

Example int_of_size : DiskWithInit.parse_int " 256 " = Some 256.
Proof. reflexivity. Qed.

Example int_of_text : DiskWithInit.parse_int "64MB" = None.
Proof. reflexivity. Qed.

Example int_with_sign_and_underscore : DiskWithInit.parse_int "+1_024" = Some 1024.
Proof. reflexivity. Qed.

Example int_of_trailing_underscore : DiskWithInit.parse_int "64_" = None.
Proof. reflexivity. Qed.

(** The separators 0x1c to 0x1f are blanks for [str.strip], not for
    [int]. *)
Example int_after_separator :
  DiskWithInit.parse_int (String (ascii_of_nat 28) "7") = None /\
  strip (String (ascii_of_nat 28) "7") = "7"%string.
Proof. split; reflexivity. Qed.

(** A literal with a character outside ASCII is left to the
    interpreter. *)
Example int_of_fullwidth_digit :
  DiskWithInit.read_int (String (ascii_of_nat 239)
                           (String (ascii_of_nat 188) (String (ascii_of_nat 149) "")))
  = DiskWithInit.Beyond.
Proof. reflexivity. Qed.

Example message_of_bad_size :
  DiskWithInit.invalid_literal "64MB"
  = PyError "ValueError" "invalid literal for int() with base 10: '64MB'".
Proof. reflexivity. Qed.

Example message_of_exit_status :
  DiskWithInit.called_process_message "mount /dev/loop0p1 /mnt" 32
  = "Command 'mount /dev/loop0p1 /mnt' returned non-zero exit status 32."%string.
Proof. reflexivity. Qed.

Example message_of_signal :
  DiskWithInit.called_process_message "mkfs.fat -F 32 /dev/loop0p1" (-9)
  = "Command 'mkfs.fat -F 32 /dev/loop0p1' died with <Signals.SIGKILL: 9>."%string.
Proof. reflexivity. Qed.

End PyExamples.

(* ===================================================================== *)
(** * Observing traces *)
(* ===================================================================== *)

(** The shell command of an event, with the answer of [subprocess.run]. *)
Definition cmd_of (ev : event) : option (command * result completed) :=
  match ev with
  | @Ev X op ans =>
      match op in os_op X return X -> option (command * result completed) with
      | SubprocessRun c => fun r => Some (c, r)
      | _ => fun _ => None
      end ans
  end.

(** The shell commands of a run, in order. *)
Fixpoint commands (t : list event) : list (command * result completed) :=
  match t with
  | [] => []
  | ev :: rest =>
      match cmd_of ev with
      | Some c => c :: commands rest
      | None => commands rest
      end
  end.

(** What [run_cmd] makes of an answer: a [subprocess.run] that raised
    counts as status 1, with the message as error text. *)
Definition exit_status (r : result completed) : Z :=
  match r with inl _ => 1 | inr c => returncode c end.
Definition output_of (r : result completed) : string :=
  match r with inl _ => ""%string | inr c => stdout c end.
Definition errors_of (r : result completed) : string :=
  match r with inl e => err_msg e | inr c => stderr c end.
Definition succeeded (r : result completed) : bool := (exit_status r =? 0)%Z.

(** The lines printed on standard output, in order. *)
Definition printed_of (ev : event) : option string :=
  match ev with
  | @Ev X op ans =>
      match op in os_op X return option string with
      | Print line => Some line
      | _ => None
      end
  end.

Fixpoint printed (t : list event) : list string :=
  match t with
  | [] => []
  | ev :: rest =>
      match printed_of ev with
      | Some line => line :: printed rest
      | None => printed rest
      end
  end.

(** The answers of [os.path.exists], in order. *)
Definition path_check_of (ev : event) : option (string * bool) :=
  match ev with
  | @Ev X op ans =>
      match op in os_op X return X -> option (string * bool) with
      | PathExists path => fun found => Some (path, found)
      | _ => fun _ => None
      end ans
  end.

Fixpoint path_checks (t : list event) : list (string * bool) :=
  match t with
  | [] => []
  | ev :: rest =>
      match path_check_of ev with
      | Some c => c :: path_checks rest
      | None => path_checks rest
      end
  end.

(** An event whose call raised into the script; [subprocess.run] is left
    out, as [run_cmd] catches what it raises. *)
Definition raised_in (ev : event) : bool :=
  match ev with
  | @Ev X op ans =>
      match op in os_op X return X -> bool with
      | Remove _ | MakeDirs _ | Copy2 _ _ | RmTree _ | OpenW _ _ | FWrite _ _
      | FClose _ | ZipOpenW _ | ZipWrite _ _ _ | ZipOpenR _ | ZipClose _
      | ZeroBlock _ =>
          fun r => match r with inl _ => true | inr _ => false end
      | GetSize _ | IntOf _ => fun r => match r with inl _ => true | inr _ => false end
      | RelPath _ _ => fun r => match r with inl _ => true | inr _ => false end
      | MkDTemp => fun r => match r with inl _ => true | inr _ => false end
      | _ => fun _ => false
      end ans
  end.

(** No call of the run raised into the script. *)
Fixpoint no_exception (t : list event) : bool :=
  match t with
  | [] => true
  | ev :: rest => negb (raised_in ev) && no_exception rest
  end.

Lemma commands_app t1 t2 : commands (t1 ++ t2) = commands t1 ++ commands t2.
Proof.
  induction t1 as [| ev t1 IH]; simpl; [reflexivity |].
  destruct (cmd_of ev); simpl; congruence.
Qed.

Lemma printed_app t1 t2 : printed (t1 ++ t2) = printed t1 ++ printed t2.
Proof.
  induction t1 as [| ev t1 IH]; simpl; [reflexivity |].
  destruct (printed_of ev); simpl; congruence.
Qed.

Lemma path_checks_app t1 t2 : path_checks (t1 ++ t2) = path_checks t1 ++ path_checks t2.
Proof.
  induction t1 as [| ev t1 IH]; simpl; [reflexivity |].
  destruct (path_check_of ev); simpl; congruence.
Qed.

Lemma no_exception_app t1 t2 :
  no_exception (t1 ++ t2) = no_exception t1 && no_exception t2.
Proof.
  induction t1 as [| ev t1 IH]; simpl; [reflexivity |].
  rewrite IH. apply andb_assoc.
Qed.

Lemma commands_none (P : event -> Prop) t :
  Forall P t -> (forall ev, P ev -> cmd_of ev = None) -> commands t = [].
Proof.
  intros Ht HP. induction Ht as [| ev t Hev _ IH]; [reflexivity |].
  simpl. rewrite (HP _ Hev). exact IH.
Qed.

(** [if b: print(line)] leaves at most one event. *)
Definition maybe_print (b : bool) (line : string) : list event :=
  if b then [Ev (Print line) tt] else [].

Lemma wp_when_print (b : bool) (line : string) Q :
  Q (maybe_print b line) (Returned tt) -> wp (when b (print line)) Q.
Proof. destruct b; simpl; [intros H [] |]; auto. Qed.

Lemma commands_maybe_print b line : commands (maybe_print b line) = [].
Proof. destruct b; reflexivity. Qed.

Lemma no_exception_maybe_print b line : no_exception (maybe_print b line) = true.
Proof. destruct b; reflexivity. Qed.

(** ** [run_cmd] *)

Module RunCmd.

Import DiskWithInit.

(** What [run_cmd] prints when [subprocess.run] raised. *)
Definition log (c : command) (r : result completed) : list event :=
  match r with
  | inl e => [Ev (Print ("[!] Error running command: " ++ shell_line c)%string) tt;
              Ev (Print ("[!] Exception: " ++ err_msg e)%string) tt]
  | inr _ => []
  end.

(** [run_cmd] without [check] never raises: it makes one call and
    returns the triple read off the answer. *)
Lemma spec (c : command) Q :
  (forall r, Q (Ev (SubprocessRun c) r :: log c r)
               (Returned (exit_status r, output_of r, errors_of r))) ->
  wp (run_cmd c false) Q.
Proof.
  intros H [e | cp]; simpl.
  - intros [] []. exact (H (inl e)).
  - exact (H (inr cp)).
Qed.

Lemma commands_log c r : commands (log c r) = [].
Proof. destruct r; reflexivity. Qed.

Lemma no_exception_log c r : no_exception (log c r) = true.
Proof. destruct r; reflexivity. Qed.

End RunCmd.

(* ===================================================================== *)
(** * Block by block: what each part of the pipeline can do *)
(* ===================================================================== *)

Module DiskLogic.

Import Py DiskWithInit.

(** The staging calls that create directories and copy files. *)
Inductive stage_call : Type :=
| Mkdir (path : string)
| Copy (src dst : string).

Definition stage_call_of (ev : event) : option stage_call :=
  match ev with
  | @Ev X op ans =>
      match op in os_op X return option stage_call with
      | MakeDirs path => Some (Mkdir path)
      | Copy2 src dst => Some (Copy src dst)
      | _ => None
      end
  end.

Fixpoint stage_calls (t : list event) : list stage_call :=
  match t with
  | [] => []
  | ev :: rest =>
      match stage_call_of ev with
      | Some c => c :: stage_calls rest
      | None => stage_calls rest
      end
  end.

Lemma stage_calls_app t1 t2 : stage_calls (t1 ++ t2) = stage_calls t1 ++ stage_calls t2.
Proof.
  induction t1 as [| ev t1 IH]; simpl; [reflexivity |].
  destruct (stage_call_of ev); simpl; congruence.
Qed.

Lemma stage_calls_none (P : event -> Prop) t :
  Forall P t -> (forall ev, P ev -> stage_call_of ev = None) -> stage_calls t = [].
Proof.
  intros Ht HP. induction Ht as [| ev t Hev _ IH]; [reflexivity |].
  simpl. rewrite (HP _ Hev). exact IH.
Qed.

(** ** Classes of events *)

(** Events of the blocks that only print and run commands. *)
Definition is_shell (ev : event) : Prop :=
  match ev with
  | @Ev X op ans =>
      match op with
      | Print _ | SubprocessRun _ => True
      | _ => False
      end
  end.

(** Events of the allocation of the image. *)
Definition is_alloc (ev : event) : Prop :=
  match ev with
  | @Ev X op ans =>
      match op with
      | Print _ | PathExists _ | Remove _ | FClose _ | OpenW _ _ | FWrite _ _
      | ZeroBlock _ => True
      | _ => False
      end
  end.

(** Events of the listing of the staged tree. *)
Definition is_listing (ev : event) : Prop :=
  match ev with
  | @Ev X op ans =>
      match op with
      | Print _ | RelPath _ _ | GetSize _ => True
      | _ => False
      end
  end.

Lemma shell_stage_calls t : Forall is_shell t -> stage_calls t = [].
Proof.
  intros H. apply (stage_calls_none _ _ H).
  intros [X op ans] Hev. destruct op; simpl in Hev; try contradiction; reflexivity.
Qed.

Lemma alloc_commands t : Forall is_alloc t -> commands t = [].
Proof.
  intros H. apply (commands_none _ _ H).
  intros [X op ans] Hev. destruct op; simpl in Hev; try contradiction; reflexivity.
Qed.

Lemma alloc_stage_calls t : Forall is_alloc t -> stage_calls t = [].
Proof.
  intros H. apply (stage_calls_none _ _ H).
  intros [X op ans] Hev. destruct op; simpl in Hev; try contradiction; reflexivity.
Qed.

Lemma listing_stage_calls t : Forall is_listing t -> stage_calls t = [].
Proof.
  intros H. apply (stage_calls_none _ _ H).
  intros [X op ans] Hev. destruct op; simpl in Hev; try contradiction; reflexivity.
Qed.

Lemma log_shell c r : Forall is_shell (RunCmd.log c r).
Proof. destruct r; repeat constructor. Qed.

Lemma maybe_print_shell b line : Forall is_shell (maybe_print b line).
Proof. destruct b; repeat constructor. Qed.

Lemma stage_calls_log c r : stage_calls (RunCmd.log c r) = [].
Proof. destruct r; reflexivity. Qed.

Lemma stage_calls_maybe_print b line : stage_calls (maybe_print b line) = [].
Proof. destruct b; reflexivity. Qed.

(** ** Symbolic execution *)

(** Unfold the calls at the head of the program and name their answers. *)
Ltac wp_calls :=
  repeat (cbn [wp bind call call_r print print_err when with_resource try_finally negb];
          try lazymatch goal with
            | |- forall x : unit, _ => intros []
            | |- forall x : result _, _ => intros [?e | ?x]
            | |- forall x : _, _ => intros ?x
            end).

(** The same, splitting on the answers that the program branches on. *)
Ltac wp_paths :=
  repeat (wp_calls;
          try lazymatch goal with
            | |- wp (bind (if ?b then _ else _) _) _ => is_var b; destruct b
            | |- wp (if ?b then _ else _) _ => is_var b; destruct b
            end).

(** Use the specification [lem] of the block at the head of the program. *)
Ltac wp_block lem :=
  apply wp_bind; eapply wp_conseq; [apply lem |]; cbn beta.

Ltac wp_run_cmd :=
  apply wp_bind; apply RunCmd.spec; intros ?r; cbn beta iota.

Ltac wp_when_print :=
  apply wp_bind; apply wp_when_print; cbn beta iota.

(** Membership of a trace in a class of events. *)
Ltac in_class :=
  repeat first [ apply Forall_nil_2 | assumption
               | apply log_shell | apply maybe_print_shell
               | apply Forall_cons; split; [exact I |]
               | apply Forall_app; split ].

(** Push the observers through the pieces of a trace. *)
Ltac observe :=
  repeat (rewrite ?commands_app, ?stage_calls_app, ?no_exception_app,
            ?RunCmd.commands_log, ?RunCmd.no_exception_log,
            ?commands_maybe_print, ?no_exception_maybe_print,
            ?stage_calls_log, ?stage_calls_maybe_print;
          cbn [commands cmd_of stage_calls stage_call_of no_exception raised_in
               app negb andb]).

(** ** The blocks *)

(** A block that stays within a class of events and returns unless a call
    raised. *)
Definition within (P : event -> Prop) (t : list event) (o : outcome unit) : Prop :=
  Forall P t /\ (no_exception t = true -> o = Returned tt).

Lemma allocate_image_spec image size_mb :
  wp (allocate_image image size_mb) (within is_alloc).
Proof.
  unfold allocate_image. wp_calls.
  destruct x; wp_calls.
  all: split; [in_class | simpl; intros; congruence].
Qed.

(** The allocation returns only when none of its calls raised. *)
Lemma allocate_image_returns image size_mb :
  wp (allocate_image image size_mb)
     (fun t o => o = Returned tt -> no_exception t = true).
Proof.
  unfold allocate_image. wp_calls.
  destruct x; wp_calls.
  all: simpl; first [reflexivity | discriminate].
Qed.

Definition partition_commands (image : string) (r1 r2 r3 : result completed)
  : list (command * result completed) :=
  [(Parted_mklabel image, r1); (Parted_mkpart image, r2); (Parted_set_boot image, r3)].

Lemma write_partition_table_spec image :
  wp (write_partition_table image)
     (fun t o => o = Returned tt /\ Forall is_shell t /\
                 exists r1 r2 r3, commands t = partition_commands image r1 r2 r3).
Proof.
  unfold write_partition_table. wp_calls.
  wp_run_cmd. wp_when_print. wp_calls.
  wp_run_cmd. wp_when_print. wp_calls.
  wp_run_cmd. wp_calls.
  split; [reflexivity |]. split; [in_class |].
  exists r, r0, r1. observe. reflexivity.
Qed.

(** The loop device that [attach_loop] resolves from the answers of its
    two queries. *)
Definition resolved (r : result completed) (fallback : option (result completed))
  : option string :=
  if succeeded r then Some (strip (output_of r))
  else match fallback with
       | Some r' => if succeeded r' then Some (strip (output_of r')) else None
       | None => None
       end.

Definition attach_commands (image : string) (r : result completed)
    (fallback : option (result completed)) : list (command * result completed) :=
  (Losetup_show image, r)
    :: match fallback with Some r' => [(Losetup_find, r')] | None => [] end.

Lemma attach_loop_spec image :
  wp (attach_loop image)
     (fun t o => Forall is_shell t /\
                 exists r fallback,
                   (succeeded r = true <-> fallback = None) /\
                   commands t = attach_commands image r fallback /\
                   o = Returned (resolved r fallback)).
Proof.
  unfold attach_loop. wp_calls. wp_run_cmd.
  destruct (exit_status r =? 0)%Z eqn:Hr; cbn [negb].
  - wp_calls. split; [in_class |]. exists r, None.
    unfold resolved, succeeded. rewrite Hr. observe.
    repeat split; auto.
  - wp_calls. wp_run_cmd.
    destruct (exit_status r0 =? 0)%Z eqn:Hr0; wp_calls;
      (split; [in_class |]); exists r, (Some r0);
      unfold resolved, succeeded; rewrite Hr, Hr0; observe;
      (split; [split; discriminate |]); split; reflexivity.
Qed.

Definition format_commands (partition_dev : string) (r : result completed)
    (retry : option (result completed)) : list (command * result completed) :=
  (Mkfs_fat partition_dev, r)
    :: match retry with Some r' => [(Mkfs_vfat partition_dev, r')] | None => [] end.

Lemma format_partition_spec partition_dev :
  wp (format_partition partition_dev)
     (fun t o => o = Returned tt /\ Forall is_shell t /\
                 exists r retry,
                   (succeeded r = true <-> retry = None) /\
                   commands t = format_commands partition_dev r retry /\
                   (succeeded r = false ->
                    In ("[!] mkfs.fat failed: " ++ errors_of r)%string (printed t))).
Proof.
  unfold format_partition. wp_calls. wp_run_cmd.
  destruct (exit_status r =? 0)%Z eqn:Hr; cbn [negb].
  - wp_calls. split; [reflexivity |]. split; [in_class |]. exists r, None.
    unfold succeeded. rewrite Hr. observe. repeat split; auto; discriminate.
  - wp_calls. wp_run_cmd. wp_calls.
    split; [reflexivity |]. split; [in_class |]. exists r, (Some r0).
    unfold succeeded. rewrite Hr. observe.
    split; [split; discriminate |]. split; [reflexivity |].
    intros _. cbn [printed printed_of]. rewrite !printed_app.
    apply in_cons, in_or_app. right. left. reflexivity.
Qed.

(** A loop whose iterations stay within a class stays within it. *)
Lemma wp_for_each_within {X : Type} (P : event -> Prop) (l : list X)
    (body : X -> prog unit) :
  (forall x, wp (body x) (within P)) -> wp (for_each l body) (within P).
Proof.
  intros Hb. induction l as [| x rest IH]; simpl.
  - split; [constructor | reflexivity].
  - apply wp_bind. eapply wp_conseq; [apply Hb |].
    intros t [[] | e] [Ht Ho]; cbn beta iota.
    + eapply wp_conseq; [apply IH |]. intros t' o' [Ht' Ho']. split.
      * apply Forall_app; auto.
      * rewrite no_exception_app. intros [_ H]%andb_prop. auto.
    + split; assumption.
Qed.

Lemma list_entry_spec mount_point entry :
  wp (list_entry mount_point entry) (within is_listing).
Proof.
  destruct entry as [[root dirs] files]. unfold list_entry. wp_calls.
  - split; [in_class | discriminate].
  - apply wp_bind.
    eapply wp_conseq with (Q := within is_listing).
    { destruct (String.eqb _ _); wp_calls; (split; [in_class | reflexivity]). }
    intros t [[] | e] [Ht Ho]; cbn beta iota.
    + eapply wp_conseq.
      { apply (wp_for_each_within is_listing). intros file. wp_calls.
        - split; [in_class | discriminate].
        - split; [in_class | reflexivity]. }
      intros t' o' [Ht' Ho']. split; [in_class |].
      simpl. rewrite no_exception_app. intros [_ H]%andb_prop. auto.
    + split; [in_class |]. simpl. exact Ho.
Qed.

(** Events of the staging. *)
Definition is_staging (ev : event) : Prop :=
  match ev with
  | @Ev X op ans =>
      match op with
      | Print _ | MakeDirs _ | PathExists _ | Copy2 _ _ | OpenW _ _ | FWrite _ _
      | FClose _ | Walk _ | RelPath _ _ | GetSize _ => True
      | _ => False
      end
  end.

Lemma listing_staging t : Forall is_listing t -> Forall is_staging t.
Proof.
  intros H. eapply Forall_impl; [exact H |].
  intros [X op ans] Hev. destruct op; simpl in *; auto.
Qed.

Lemma staging_commands t : Forall is_staging t -> commands t = [].
Proof.
  intros H. apply (commands_none _ _ H).
  intros [X op ans] Hev. destruct op; simpl in Hev; try contradiction; reflexivity.
Qed.

(** The directory creations and copies of a complete staging, in the
    order of the source; [have_init] and [have_kernel] are the answers of
    the two existence checks. *)
Definition stage_plan (mount_point kernel_path init_bin_path : string)
    (have_init have_kernel : bool) : list stage_call :=
  [Mkdir (path_join mount_point "bin"); Mkdir (path_join mount_point "usr")]
  ++ (if have_init
      then [Copy init_bin_path (path_join (path_join mount_point "bin") "init.bin")]
      else [])
  ++ (if have_kernel
      then [Copy kernel_path (path_join mount_point "bzImage")]
      else [])
  ++ [Mkdir (path_join (path_join mount_point "boot") "grub")].

Definition follows_plan (mount_point kernel_path init_bin_path : string)
    (calls : list stage_call) : Prop :=
  exists have_init have_kernel,
    calls `prefix_of` stage_plan mount_point kernel_path init_bin_path
                                 have_init have_kernel.

Lemma stage_tree_spec mount_point kernel_path init_bin_path :
  wp (stage_tree mount_point kernel_path init_bin_path)
     (fun t o => within is_staging t o /\
                 follows_plan mount_point kernel_path init_bin_path (stage_calls t)).
Proof.
  unfold stage_tree, when. wp_paths.
  all: try (eapply wp_conseq;
            [apply (wp_for_each_within is_listing), list_entry_spec |];
            intros t o [Ht Ho]; pose proof (listing_stage_calls _ Ht) as Hs;
            apply listing_staging in Ht).
  all: split;
    [ split; [in_class | observe; intros; try congruence; auto]
    | observe; rewrite ?Hs;
      first [ exists true, true; eexists; reflexivity
            | exists true, false; eexists; reflexivity
            | exists false, true; eexists; reflexivity
            | exists false, false; eexists; reflexivity ] ].
Qed.

(** The three ways through [mount_and_stage]: no temporary directory, a
    failed mount, a mount followed by the staging and the unmount. *)
Inductive mount_shape (partition_dev kernel_path init_bin_path : string)
    (t : list event) (o : outcome unit) : Prop :=
| no_mount_point (e : py_error) :
    t = [Ev MkDTemp (inl e)] ->
    o = Raised (Exc e) ->
    mount_shape partition_dev kernel_path init_bin_path t o
| mount_failed (mount_point : string) (r : result completed) :
    succeeded r = false ->
    commands t = [(Mount partition_dev mount_point, r)] ->
    stage_calls t = [] ->
    (no_exception t = true -> o = Returned tt) ->
    mount_shape partition_dev kernel_path init_bin_path t o
| mounted (mount_point : string) (r r' : result completed) :
    succeeded r = true ->
    commands t = [(Mount partition_dev mount_point, r); (Umount partition_dev, r')] ->
    follows_plan mount_point kernel_path init_bin_path (stage_calls t) ->
    (no_exception t = true -> o = Returned tt) ->
    (exists t_in t_out x,
        t = t_in ++ Ev (SubprocessRun (Umount partition_dev)) r' :: t_out /\
        commands t_in = [(Mount partition_dev mount_point, r)] /\
        stage_calls t_out = [] /\
        In (Ev (RmTree mount_point) x) t_out) ->
    mount_shape partition_dev kernel_path init_bin_path t o.

Lemma mount_and_stage_spec partition_dev kernel_path init_bin_path :
  wp (mount_and_stage partition_dev kernel_path init_bin_path)
     (mount_shape partition_dev kernel_path init_bin_path).
Proof.
  unfold mount_and_stage. apply wp_with_resource. wp_calls.
  { eapply no_mount_point; reflexivity. }
  wp_run_cmd. destruct (exit_status r =? 0)%Z eqn:Hr.
  - apply wp_try_finally. eapply wp_conseq; [apply stage_tree_spec |].
    intros ts os [[Hcls Hret] Hplan]. wp_calls. wp_run_cmd. wp_calls.
    all: pose proof (staging_commands _ Hcls) as Hc.
    all: eapply (mounted _ _ _ _ _ x r r0);
      [ exact Hr
      | observe; rewrite Hc; reflexivity
      | observe; rewrite ?app_nil_r; exact Hplan
      | observe; rewrite ?andb_true_r, ?andb_false_r;
        intros H; try discriminate H; rewrite (Hret H); reflexivity
      | ].
    all: match goal with
         | |- exists t_in t_out y,
                [?tmp] ++ (?say :: (?mnt :: ?log_m) ++ ?stage
                           ++ ?bye :: (_ :: ?log_u) ++ []) ++ [Ev (RmTree _) ?ans] = _ /\ _ =>
             exists (tmp :: say :: mnt :: log_m ++ stage ++ [bye]),
               (log_u ++ [Ev (RmTree x) ans]), ans
         end.
    all: split; [repeat (rewrite <- ?app_assoc; cbn [app]); reflexivity |].
    all: split; [observe; rewrite Hc; reflexivity |].
    all: split; [observe; reflexivity |].
    all: apply in_or_app; right; left; reflexivity.
  - wp_calls.
    all: eapply (mount_failed _ _ _ _ _ x r);
      [ exact Hr | observe; reflexivity | observe; reflexivity
      | observe; intros H; try discriminate H; reflexivity ].
Qed.

End DiskLogic.

Module Pipeline.

Import Py DiskWithInit DiskLogic.

(** The device that formatting and mounting target, given the answer of
    the existence check on the partition node (lines 80-83). *)
Definition target (dev : string) (found : bool) : string :=
  if found then (dev ++ "p1")%string else dev.

(** The ways through [create_fat32_disk]. *)
Inductive shape (image kernel_path init_bin_path : string)
    (t : list event) (o : outcome bool) : Prop :=
| allocation_raised (e : exn) :
    commands t = [] ->
    stage_calls t = [] ->
    no_exception t = false ->
    o = Raised e ->
    shape image kernel_path init_bin_path t o
| no_device (r1 r2 r3 r : result completed) (fallback : option (result completed)) :
    (succeeded r = true <-> fallback = None) ->
    match resolved r fallback with
    | Some dev => truthy dev = false
    | None => True
    end ->
    commands t = partition_commands image r1 r2 r3 ++ attach_commands image r fallback ->
    stage_calls t = [] ->
    o = Returned false ->
    shape image kernel_path init_bin_path t o
| device (r1 r2 r3 r : result completed) (fallback : option (result completed))
    (dev : string) (found : bool) (rf : result completed)
    (retry : option (result completed))
    (t_before t_mount t_after : list event) (o_mount : outcome unit)
    (detach : list (command * result completed)) :
    (succeeded r = true <-> fallback = None) ->
    resolved r fallback = Some dev ->
    truthy dev = true ->
    In ((dev ++ "p1")%string, found) (path_checks t_before) ->
    (succeeded rf = true <-> retry = None) ->
    (succeeded rf = false ->
     In ("[!] mkfs.fat failed: " ++ errors_of rf)%string (printed t)) ->
    mount_shape (target dev found) kernel_path init_bin_path t_mount o_mount ->
    t = t_before ++ t_mount ++ t_after ->
    commands t_before =
      partition_commands image r1 r2 r3 ++ attach_commands image r fallback
      ++ format_commands (target dev found) rf retry ->
    stage_calls t_before = [] ->
    commands t_after = detach ->
    stage_calls t_after = [] ->
    no_exception t_after = true ->
    match o_mount with
    | Returned _ => (exists rd, detach = [(Losetup_detach dev, rd)]) /\ o = Returned true
    | Raised e => detach = [] /\ o = Raised e
    end ->
    shape image kernel_path init_bin_path t o.

Lemma create_fat32_disk_spec image size_mb kernel_path init_bin_path :
  wp (create_fat32_disk image size_mb kernel_path init_bin_path)
     (shape image kernel_path init_bin_path).
Proof.
  unfold create_fat32_disk. wp_calls.
  wp_block allocate_image_spec. intros ta [[] | e] [Hca Hra].
  2:{ eapply allocation_raised;
        [ observe; apply (alloc_commands _ Hca)
        | observe; apply (alloc_stage_calls _ Hca)
        | observe; destruct (no_exception ta); [discriminate Hra; reflexivity | reflexivity]
        | reflexivity ]. }
  wp_block write_partition_table_spec. intros tp op (-> & Hcp & r1 & r2 & r3 & Hp).
  wp_block attach_loop_spec. intros tl ol (Hcl & r & fallback & Hfb & Hl & ->).
  pose proof (alloc_commands _ Hca) as Ha.
  pose proof (alloc_stage_calls _ Hca) as Hsa.
  pose proof (shell_stage_calls _ Hcp) as Hsp.
  pose proof (shell_stage_calls _ Hcl) as Hsl.
  destruct (resolved r fallback) as [dev |] eqn:Hdev.
  2:{ wp_calls. eapply (no_device _ _ _ _ _ r1 r2 r3 r fallback); auto.
      - rewrite Hdev. exact I.
      - observe. rewrite Ha, Hp, Hl. cbn [app]. rewrite ?app_nil_r. reflexivity.
      - observe. rewrite Hsa, Hsp, Hsl. reflexivity. }
  destruct (truthy dev) eqn:Htruthy.
  2:{ wp_calls. eapply (no_device _ _ _ _ _ r1 r2 r3 r fallback); auto.
      - rewrite Hdev. exact Htruthy.
      - observe. rewrite Ha, Hp, Hl. cbn [app]. rewrite ?app_nil_r. reflexivity.
      - observe. rewrite Hsa, Hsp, Hsl. reflexivity. }
  wp_calls. unfold resolve_partition. wp_calls.
  set (found := x).
  assert (wp (format_partition (target dev found) ;;
              mount_and_stage (target dev found) kernel_path init_bin_path ;;
              run_cmd (Losetup_detach dev) false ;; Ret true)
            (fun t o => shape image kernel_path init_bin_path
               (Ev (Print ("[*] Creating " ++ str_of_int size_mb
                           ++ "MB FAT32 disk image: " ++ image)%string) tt
                :: ta ++ tp ++ tl
                ++ Ev (Print ("[+] Using loop device: " ++ dev)%string) tt
                :: Ev (PathExists (dev ++ "p1")%string) found :: t) o)) as Hrest.
  2:{ destruct x; exact Hrest. }
  wp_block format_partition_spec.
  intros tf of_ (-> & Hcf & rf & retry & Hretry & Hf & Hlog).
  pose proof (shell_stage_calls _ Hcf) as Hsf.
  wp_block mount_and_stage_spec. intros tm om Hm.
  set (before := Ev (Print ("[*] Creating " ++ str_of_int size_mb
                           ++ "MB FAT32 disk image: " ++ image)%string) tt
                 :: ta ++ tp ++ tl
                 ++ Ev (Print ("[+] Using loop device: " ++ dev)%string) tt
                 :: Ev (PathExists (dev ++ "p1")%string) found :: tf).
  assert (Hbefore_cmds : commands before =
            partition_commands image r1 r2 r3 ++ attach_commands image r fallback
            ++ format_commands (target dev found) rf retry).
  { unfold before. observe. rewrite Ha, Hp, Hl, Hf. cbn [app]. rewrite ?app_nil_r. reflexivity. }
  assert (Hbefore_stage : stage_calls before = []).
  { unfold before. observe. rewrite Hsa, Hsp, Hsl, Hsf. reflexivity. }
  assert (Hbefore_found : In ((dev ++ "p1")%string, found) (path_checks before)).
  { unfold before. cbn [path_checks path_check_of]. rewrite !path_checks_app.
    do 3 (apply in_or_app; right). cbn [path_checks path_check_of].
    left. reflexivity. }
  assert (Hprinted : forall rest, succeeded rf = false ->
            In ("[!] mkfs.fat failed: " ++ errors_of rf)%string (printed (before ++ rest))).
  { intros rest Hfail. unfold before. rewrite printed_app.
    apply in_or_app. left. cbn [printed printed_of]. right.
    rewrite !printed_app. do 3 (apply in_or_app; right).
    cbn [printed printed_of]. right. auto. }
  assert (Hsplit : forall after,
            Ev (Print ("[*] Creating " ++ str_of_int size_mb
                       ++ "MB FAT32 disk image: " ++ image)%string) tt
            :: ta ++ tp ++ tl
            ++ Ev (Print ("[+] Using loop device: " ++ dev)%string) tt
            :: Ev (PathExists (dev ++ "p1")%string) found :: tf ++ tm ++ after
            = before ++ tm ++ after).
  { intros after. unfold before.
    repeat (rewrite <- ?app_assoc; cbn [app]). reflexivity. }
  destruct om as [[] | e].
  - wp_run_cmd. wp_calls. rewrite app_nil_r, Hsplit.
    eapply (device _ _ _ _ _ r1 r2 r3 r fallback dev found rf retry before tm
              (Ev (SubprocessRun (Losetup_detach dev)) r0 :: RunCmd.log _ r0)
              (Returned tt) [(Losetup_detach dev, r0)]);
      try eassumption; try reflexivity.
    + apply Hprinted.
    + observe. reflexivity.
    + observe. reflexivity.
    + observe. reflexivity.
    + cbn beta iota. split; [exists r0 |]; reflexivity.
  - rewrite <- (app_nil_r tm), Hsplit.
    eapply (device _ _ _ _ _ r1 r2 r3 r fallback dev found rf retry before tm
              [] (Raised e) []);
      try eassumption; try reflexivity.
    + apply Hprinted.
    + cbn beta iota. split; reflexivity.
Qed.

End Pipeline.

(* ===================================================================== *)
(** * The disk-with-staging pipeline: properties of every run *)
(* ===================================================================== *)

Module DiskClaims.

Import Py DiskWithInit DiskLogic Pipeline Worlds.

(** Every run of [create_fat32_disk], in every world, has one of the
    shapes of [Pipeline.shape]. *)
Lemma run_shape {W : Type} (handle : world W) (w : W)
    image size_mb kernel_path init_bin_path :
  let r := run handle (create_fat32_disk image size_mb kernel_path init_bin_path) w in
  shape image kernel_path init_bin_path (trace_of r) (outcome_of r).
Proof. apply (wp_run _ _ (create_fat32_disk_spec _ _ _ _)). Qed.

(** ** Observers on the commands of a run *)

Definition is_mount_ok (cr : command * result completed) : bool :=
  match cr.1 with Mount _ _ => succeeded cr.2 | _ => false end.

Definition is_umount (cr : command * result completed) : bool :=
  match cr.1 with Umount _ => true | _ => false end.

Definition is_detach (cr : command * result completed) : bool :=
  match cr.1 with Losetup_detach _ => true | _ => false end.

Definition is_mkfs (cr : command * result completed) : bool :=
  match cr.1 with Mkfs_fat _ | Mkfs_vfat _ => true | _ => false end.

(** The mount command ran and exited with status 0. *)
Definition mount_succeeded (t : list event) : bool :=
  existsb is_mount_ok (commands t).

(** The unmount commands of a run. *)
Definition umounts (t : list event) : list (command * result completed) :=
  List.filter is_umount (commands t).

(** C8: in every run in which the mount command exits with status 0, the
    unmount command is invoked exactly once, whatever the staging steps do
    (each of them may raise): it runs on the device that was mounted,
    after the mount and after every directory creation and file copy of
    the staging, and before the temporary mount point is removed, which is
    where control leaves the block. *)
Theorem umount_exactly_once_after_mount {W : Type} (handle : world W) (w : W)
    image size_mb kernel_path init_bin_path :
  let t := trace_of (run handle
                       (create_fat32_disk image size_mb kernel_path init_bin_path) w) in
  mount_succeeded t = true ->
  List.length (umounts t) = 1%nat /\
  exists t_before dev mount_point r r' x t_after,
    t = t_before ++ Ev (SubprocessRun (Umount dev)) r' :: t_after /\
    In (Mount dev mount_point, r) (commands t_before) /\
    stage_calls t_after = [] /\
    In (Ev (RmTree mount_point) x) t_after.
Proof.
  intros t. subst t.
  destruct (run_shape handle w image size_mb kernel_path init_bin_path)
    as [e Hc _ _ _ | r1 r2 r3 r fb _ _ Hc _ _
        | r1 r2 r3 r fb dev found rf retry tb tm ta om det
            _ _ _ _ _ _ Hm Ht Hb _ Ha Hsa _ Hdet].
  - unfold mount_succeeded. rewrite Hc. discriminate.
  - unfold mount_succeeded. rewrite Hc.
    destruct fb; discriminate.
  - unfold mount_succeeded, umounts. rewrite Ht, !commands_app, Hb, Ha.
    assert (Hdetach : det = [] \/ exists rd, det = [(Losetup_detach dev, rd)]).
    { destruct om; [right | left]; tauto. }
    destruct Hm as [e Htm _ | m rm Hfail Hcm _ _
                    | m rm ru Hok Hcm _ _ (t_in & t_out & x & Htm & Hin & Hout & Hrm)].
    + rewrite Htm. destruct fb, retry, Hdetach as [-> | [rd ->]]; discriminate.
    + rewrite Hcm. unfold succeeded in Hfail.
      destruct fb, retry, Hdetach as [-> | [rd ->]];
        simpl; unfold is_mount_ok, succeeded; simpl; rewrite Hfail; discriminate.
    + rewrite Hcm. intros _. split.
      * destruct fb, retry, Hdetach as [-> | [rd ->]]; reflexivity.
      * exists (tb ++ t_in), (target dev found), m, rm, ru, x, (t_out ++ ta).
        split; [rewrite Htm, <- !app_assoc; reflexivity |].
        split; [rewrite commands_app, Hin; apply in_or_app; right; left; reflexivity |].
        split; [rewrite stage_calls_app, Hout, Hsa; reflexivity |].
        apply in_or_app. left. exact Hrm.
Qed.

(** The loop-device name that the two queries of lines 61-71 yield, read
    off the commands of a run. *)
Fixpoint loop_device (cs : list (command * result completed)) : option string :=
  match cs with
  | [] => None
  | (Losetup_show _, r) :: rest =>
      if succeeded r then Some (strip (output_of r)) else loop_device rest
  | (Losetup_find, r) :: _ =>
      if succeeded r then Some (strip (output_of r)) else None
  | _ :: rest => loop_device rest
  end.

(** A loop-device name was obtained: [loopdev] is a non-empty string. *)
Definition device_named (t : list event) : bool :=
  match loop_device (commands t) with
  | Some dev => truthy dev
  | None => false
  end.

Lemma loop_device_resolved image r1 r2 r3 r fallback rest :
  (succeeded r = true <-> fallback = None) ->
  loop_device (partition_commands image r1 r2 r3
               ++ attach_commands image r fallback ++ rest)
  = resolved r fallback.
Proof.
  intros [H1 H2]. unfold resolved. simpl.
  destruct (succeeded r) eqn:Hr; [reflexivity |].
  destruct fallback as [r' |]; [reflexivity |].
  discriminate (H2 eq_refl).
Qed.

(** The device a command formats or mounts. *)
Definition device_of (c : command) : option string :=
  match c with
  | Mkfs_fat dev | Mkfs_vfat dev | Mount dev _ => Some dev
  | _ => None
  end.

Lemma append_nonempty_neq (s suffix : string) :
  suffix <> ""%string -> s <> (s ++ suffix)%string.
Proof.
  intros Hne. induction s as [| c s IH]; simpl.
  - intros H. apply Hne. symmetry. exact H.
  - intros H. injection H as H. exact (IH H).
Qed.

(** Split a membership in an explicit list into its cases. *)
Ltac in_cases H :=
  cbn [app attach_commands format_commands partition_commands In] in H;
  repeat match type of H with
         | _ \/ _ => destruct H as [H | H]
         | False => destruct H
         | (_, _) = (_, _) => inversion H; clear H
         end.

(** The handle that a successful [losetup -f --show] bound to the image:
    its output, stripped; [None] when the command failed or never ran. *)
Definition is_attach (cr : command * result completed) : bool :=
  match cr.1 with Losetup_show _ => true | _ => false end.

Definition attached_handle (t : list event) : option string :=
  match List.find is_attach (commands t) with
  | Some (_, r) => if succeeded r then Some (strip (output_of r)) else None
  | None => None
  end.

(** No existence check of the partition node of [dev] answered [True]. *)
Definition partition_node_absent (dev : string) (t : list event) : bool :=
  forallb (fun check => negb (String.eqb check.1 (dev ++ "p1")) || negb check.2)
          (path_checks t).

(** All the formatting and mount commands of a run target [dev]. *)
Definition all_target (dev : string) (t : list event) : Prop :=
  forall c r d, In (c, r) (commands t) -> device_of c = Some d -> d = dev.

(** C2: after a successful loop attach with handle [dev], if no existence
    check of the partition node [dev ++ "p1"] answers [True], then every
    formatting command ([mkfs.fat], [mkfs.vfat]) and the mount command of
    the run target [dev] itself, which differs from the suffixed form; for
    a non-empty handle the formatter does run on [dev], and after it the
    mount of [dev] is issued, unless the temporary mount point could not
    be created. *)
Theorem formatting_and_mount_target_whole_device {W : Type} (handle : world W)
    (w : W) image size_mb kernel_path init_bin_path :
  let t := trace_of (run handle
                       (create_fat32_disk image size_mb kernel_path init_bin_path) w) in
  forall dev : string,
    attached_handle t = Some dev ->
    partition_node_absent dev t = true ->
    all_target dev t /\
    dev <> (dev ++ "p1")%string /\
    (truthy dev = true -> exists rf, In (Mkfs_fat dev, rf) (commands t)) /\
    (truthy dev = true ->
     (exists e, In (Ev MkDTemp (inl e)) t) \/
     exists rf mount_point rm before middle after,
       commands t = before ++ (Mkfs_fat dev, rf) :: middle
                    ++ (Mount dev mount_point, rm) :: after).
Proof.
  intros t dev Hshow Habsent. subst t.
  assert (Hneq : dev <> (dev ++ "p1")%string) by (apply append_nonempty_neq; discriminate).
  unfold attached_handle, partition_node_absent, all_target in *.
  destruct (run_shape handle w image size_mb kernel_path init_bin_path)
    as [e Hc _ _ _ | r1 r2 r3 r fb Hfb Hnone Hc _ _
        | r1 r2 r3 r fb dev' found rf retry tb tm ta om det
            Hfb Hres Htruthy Hfound _ _ Hm Ht Hb _ Ha _ _ Hdet].
  - rewrite Hc in *. discriminate Hshow.
  - rewrite Hc in *. cbn [partition_commands attach_commands app List.find is_attach fst]
      in Hshow.
    unfold resolved in Hnone. destruct (succeeded r); [| discriminate Hshow].
    injection Hshow as Hshow. rewrite Hshow in Hnone. repeat split; auto.
    + intros c r' d Hin Hd. destruct fb; in_cases Hin; subst; discriminate Hd.
    + intros Hyes. congruence.
    + intros Hyes. congruence.
  - assert (Hdetach : det = [] \/ exists rd, det = [(Losetup_detach dev', rd)]).
    { destruct om; [right | left]; tauto. }
    assert (Hcm : commands tm = [] \/
                  (exists m rm, commands tm = [(Mount (target dev' found) m, rm)]) \/
                  (exists m rm ru, commands tm = [(Mount (target dev' found) m, rm);
                                                  (Umount (target dev' found), ru)])).
    { destruct Hm as [e -> _ | m rm _ Hcm _ _ | m rm ru _ Hcm _ _]; eauto 6. }
    rewrite Ht, !commands_app, Hb, Ha in *. clear Ha Hb.
    cbn [partition_commands attach_commands app List.find is_attach fst] in Hshow.
    unfold resolved in Hres. destruct (succeeded r); [| discriminate Hshow].
    injection Hshow as Hshow. rewrite Hshow in Hres. injection Hres as <-.
    assert (Hno : found = false).
    { rewrite !path_checks_app, !forallb_app in Habsent.
      apply andb_prop in Habsent as [Habsent _].
      rewrite forallb_forall in Habsent. specialize (Habsent _ Hfound).
      cbn [fst snd] in Habsent. rewrite String.eqb_refl in Habsent.
      destruct found; [discriminate Habsent | reflexivity]. }
    subst found. unfold target in *. repeat split; auto.
    + intros c r' d Hin Hd.
      destruct fb, retry, Hdetach as [Hdt | [rd Hdt]],
        Hcm as [Hcm | [(m & rm & Hcm) | (m & rm & ru & Hcm)]];
        rewrite Hdt, Hcm in Hin; in_cases Hin; subst; simpl in Hd;
        try discriminate Hd; injection Hd as <-; auto.
    + intros _. exists rf. apply in_or_app. left.
      apply in_or_app. right. apply in_or_app. right. left. reflexivity.
    + intros _. clear Hcm.
      destruct Hm as [e Htm _ | m rm _ Hcm _ _ | m rm ru _ Hcm _ _].
      * left. exists e. rewrite Htm. apply in_or_app. right. left. reflexivity.
      * right. exists rf, m, rm,
          (partition_commands image r1 r2 r3 ++ attach_commands image r fb),
          (match retry with
           | Some r' => [(Mkfs_vfat dev, r')]
           | None => []
           end), det.
        rewrite Hcm. unfold format_commands. rewrite <- !app_assoc. reflexivity.
      * right. exists rf, m, rm,
          (partition_commands image r1 r2 r3 ++ attach_commands image r fb),
          (match retry with
           | Some r' => [(Mkfs_vfat dev, r')]
           | None => []
           end), ((Umount dev, ru) :: det).
        rewrite Hcm. unfold format_commands. rewrite <- !app_assoc. reflexivity.
Qed.

(** C5: a run formats if and only if a loop-device name was obtained.
    With the name [dev], the target is [dev ++ "p1"] or [dev], as the
    existence check of the partition node answered: [mkfs.fat] runs
    first on that target; [mkfs.vfat] runs, once and on the same target,
    if and only if [mkfs.fat] failed, and the failure is then printed;
    whatever the two answer, the run goes on: unless the temporary mount
    point cannot be created, the mount of the same target is attempted
    after the formatting commands. *)
Theorem format_retries_once_then_mount {W : Type} (handle : world W) (w : W)
    image size_mb kernel_path init_bin_path :
  let t := trace_of (run handle
                       (create_fat32_disk image size_mb kernel_path init_bin_path) w) in
  (device_named t = false -> List.filter is_mkfs (commands t) = []) /\
  forall dev : string,
    loop_device (commands t) = Some dev ->
    truthy dev = true ->
    exists (found : bool) (r : result completed),
      In ((dev ++ "p1")%string, found) (path_checks t) /\
      ((succeeded r = true /\
        List.filter is_mkfs (commands t) = [(Mkfs_fat (target dev found), r)]) \/
       (succeeded r = false /\
        In ("[!] mkfs.fat failed: " ++ errors_of r)%string (printed t) /\
        exists r', List.filter is_mkfs (commands t)
                   = [(Mkfs_fat (target dev found), r); (Mkfs_vfat (target dev found), r')]))
      /\
      ((exists e, In (Ev MkDTemp (inl e)) t) \/
       (exists mount_point rm before after,
          commands t = before ++ (Mount (target dev found) mount_point, rm) :: after /\
          List.filter is_mkfs before = List.filter is_mkfs (commands t) /\
          List.filter is_mkfs after = [])).
Proof.
  intros t. subst t.
  destruct (run_shape handle w image size_mb kernel_path init_bin_path)
    as [e Hc _ _ _ | r1 r2 r3 r fb Hfb Hnone Hc _ _
        | r1 r2 r3 r fb dev found rf retry tb tm ta om det
            Hfb Hres Htruthy Hfound Hretry Hlog Hm Ht Hb _ Ha _ _ Hdet].
  - rewrite Hc. split; [reflexivity |]. intros dev Hdev. discriminate Hdev.
  - rewrite Hc. split; [destruct fb; reflexivity |]. intros dev Hdev Htruthy.
    rewrite <- (app_nil_r (attach_commands _ _ _)) in Hdev.
    rewrite (loop_device_resolved _ _ _ _ _ _ _ Hfb) in Hdev.
    rewrite Hdev in Hnone. congruence.
  - assert (Hnamed : loop_device (commands (trace_of (run handle
              (create_fat32_disk image size_mb kernel_path init_bin_path) w))) = Some dev).
    { rewrite Ht, !commands_app, Hb, <- !app_assoc.
      rewrite (loop_device_resolved _ _ _ _ _ _ _ Hfb). exact Hres. }
    split.
    { unfold device_named. rewrite Hnamed, Htruthy. discriminate. }
    intros dev' Hdev' _. rewrite Hnamed in Hdev'. injection Hdev' as <-.
    exists found, rf.
    assert (Hdetach : det = [] \/ exists rd, det = [(Losetup_detach dev, rd)]).
    { destruct om; [right | left]; tauto. }
    assert (Hcm : List.filter is_mkfs (commands tm) = []).
    { destruct Hm as [e -> _ | m rm _ -> _ _ | m rm ru _ -> _ _]; reflexivity. }
    assert (Hcd : List.filter is_mkfs det = []).
    { destruct Hdetach as [-> | [rd ->]]; reflexivity. }
    assert (Hall : List.filter is_mkfs (commands (trace_of (run handle
              (create_fat32_disk image size_mb kernel_path init_bin_path) w)))
                   = List.filter is_mkfs (commands tb)).
    { rewrite Ht, !commands_app, Ha, !List.filter_app, Hcm, Hcd, !app_nil_r. reflexivity. }
    split; [| split].
    + rewrite Ht, !path_checks_app. apply in_or_app. left. exact Hfound.
    + rewrite Hall, Hb.
      destruct (succeeded rf) eqn:Hrf.
      * left. split; [reflexivity |].
        destruct Hretry as [Hretry _]. rewrite (Hretry eq_refl).
        destruct fb; reflexivity.
      * right. split; [reflexivity |]. split; [auto |].
        destruct retry as [r' |].
        -- exists r'. destruct fb; reflexivity.
        -- destruct Hretry as [_ Hretry]. discriminate (Hretry eq_refl).
    + destruct Hm as [e Htm _ | m rm _ Hcm' _ _ | m rm ru _ Hcm' _ _].
      * left. exists e. rewrite Ht, Htm. apply in_or_app. right. left. reflexivity.
      * right. exists m, rm, (commands tb), det.
        rewrite Hall. split; [| split; [reflexivity | exact Hcd]].
        rewrite Ht, !commands_app, Ha, Hcm'. reflexivity.
      * right. exists m, rm, (commands tb), ((Umount (target dev found), ru) :: det).
        rewrite Hall. split; [| split; [reflexivity |]].
        -- rewrite Ht, !commands_app, Ha, Hcm'. reflexivity.
        -- cbn [List.filter is_mkfs fst]. exact Hcd.
Qed.

(** ** The result of the run and the report of the command line *)

(** The first line of the success summary of [main]. *)
Definition success_line (output_image : string) : string :=
  (nl ++ "[+] Disk image created successfully: " ++ output_image)%string.

(** The ways through [main]: it stops before the pipeline, or runs it and
    reports on its result. *)
Inductive main_shape (argv : list string) (t : list event) (o : outcome unit) : Prop :=
| main_stops :
    commands t = [] ->
    (exists e, o = Raised e) ->
    main_shape argv t o
| main_runs (a0 kernel_path init_bin_path output_image : string) (rest : list string)
    (t_before t_disk t_after : list event) (o_disk : outcome bool) :
    argv = a0 :: kernel_path :: init_bin_path :: output_image :: rest ->
    t = t_before ++ t_disk ++ t_after ->
    shape output_image kernel_path init_bin_path t_disk o_disk ->
    commands t_before = [] ->
    commands t_after = [] ->
    match o_disk with
    | Returned true => o = Returned tt /\ In (success_line output_image) (printed t_after)
    | Returned false => o = Raised (SystemExit 1)
    | Raised e => o = Raised e
    end ->
    main_shape argv t o.

Lemma main_spec argv : wp (main argv) (main_shape argv).
Proof.
  unfold main, sys_exit.
  destruct argv as [| a0 [| kernel_path [| init_bin_path [| output_image rest]]]];
    try (wp_calls; apply main_stops; [reflexivity | eauto]).
  apply wp_bind.
  apply wp_conseq with (Q := fun t o => commands t = [] /\
                                       ((exists n, o = Returned n) \/ exists e, o = Raised e)).
  { destruct rest as [| s rest']; [simpl; eauto |].
    unfold py_int. destruct (read_int s); simpl; eauto.
    intros [e | n]; simpl; eauto. }
  intros t0 o0 [Ht0 [[size_mb ->] | [e ->]]]; [| apply main_stops; [exact Ht0 | eauto]].
  wp_calls. destruct x; cbn [negb].
  2:{ wp_calls. apply main_stops; [rewrite commands_app, Ht0; reflexivity | eauto]. }
  wp_calls.
  set (warn := when (negb x) _).
  assert (Hwarn : wp warn (fun t o => o = Returned tt /\ commands t = [])).
  { subst warn. destruct x; cbn [negb]; wp_calls; split; reflexivity. }
  wp_block Hwarn. intros tw ow [-> Htw].
  wp_block create_fat32_disk_spec. intros td od Hd.
  assert (Hsplit : forall post,
            t0 ++ Ev (PathExists kernel_path) true :: Ev (PathExists init_bin_path) x
            :: tw ++ td ++ post
            = (t0 ++ Ev (PathExists kernel_path) true
                  :: Ev (PathExists init_bin_path) x :: tw)
              ++ td ++ post).
  { intros post. rewrite <- app_assoc. reflexivity. }
  assert (Hbefore : commands (t0 ++ Ev (PathExists kernel_path) true
                                 :: Ev (PathExists init_bin_path) x :: tw) = []).
  { rewrite commands_app, Ht0. exact Htw. }
  destruct od as [[|] | e].
  - wp_calls. cbn [app]. rewrite Hsplit.
    eapply (main_runs _ _ _ a0 kernel_path init_bin_path output_image rest
              _ td _ (Returned true)); eauto.
    split; [reflexivity |]. left. reflexivity.
  - wp_calls. cbn [app]. rewrite Hsplit.
    eapply (main_runs _ _ _ a0 kernel_path init_bin_path output_image rest
              _ td _ (Returned false)); eauto.
  - cbn [app]. rewrite <- (app_nil_r td), Hsplit.
    eapply (main_runs _ _ _ a0 kernel_path init_bin_path output_image rest
              _ td [] (Raised e)); eauto.
Qed.

Lemma main_run_shape {W : Type} (handle : world W) (w : W) argv :
  let r := run handle (main argv) w in
  main_shape argv (trace_of r) (outcome_of r).
Proof. apply (wp_run _ _ (main_spec _)). Qed.

(** The commands of a run that got a device name start with the
    partitioning and the queries, so the name can be read off them. *)
Lemma shape_device_named image kernel_path init_bin_path t o :
  shape image kernel_path init_bin_path t o ->
  device_named t = true ->
  exists dev t_mount o_mount (detach : list (command * result completed)),
    truthy dev = true /\
    (exists found, mount_shape (target dev found) kernel_path init_bin_path
                               t_mount o_mount) /\
    (no_exception t = true -> no_exception t_mount = true) /\
    match o_mount with
    | Returned _ => (exists rd, In (Losetup_detach dev, rd) (commands t)) /\
                    o = Returned true
    | Raised e => o = Raised e
    end.
Proof.
  intros [e Hc _ _ _ | r1 r2 r3 r fb Hfb Hnone Hc _ _
          | r1 r2 r3 r fb dev found rf retry tb tm ta om det
              Hfb Hres Htruthy Hfound _ _ Hm Ht Hb _ Ha _ _ Hdet] Hnamed.
  - unfold device_named in Hnamed. rewrite Hc in Hnamed. discriminate.
  - unfold device_named in Hnamed. rewrite Hc in Hnamed.
    rewrite <- (app_nil_r (attach_commands _ _ _)) in Hnamed.
    rewrite (loop_device_resolved _ _ _ _ _ _ _ Hfb) in Hnamed.
    destruct (resolved r fb); congruence.
  - exists dev, tm, om, det. split; [exact Htruthy |]. split; [eauto |]. split.
    + rewrite Ht, !no_exception_app. intros [_ [H _]%andb_prop]%andb_prop. exact H.
    + destruct om as [[] | e]; [| tauto].
      destruct Hdet as [[rd Hrd] Ho]. split; [| exact Ho].
      exists rd. rewrite Ht, !commands_app, Ha, Hrd.
      apply in_or_app. right. apply in_or_app. right. left. reflexivity.
Qed.

(** When a device name was obtained and no call raised, the pipeline
    returns [True], whatever the commands answered. *)
Lemma named_run_returns_true image kernel_path init_bin_path t o :
  shape image kernel_path init_bin_path t o ->
  device_named t = true ->
  no_exception t = true ->
  o = Returned true /\ exists dev rd, In (Losetup_detach dev, rd) (commands t).
Proof.
  intros Hs Hnamed Hquiet.
  destruct (shape_device_named _ _ _ _ _ Hs Hnamed)
    as (dev & tm & om & det & _ & [found Hm] & Hq & Ho).
  specialize (Hq Hquiet).
  assert (Hom : om = Returned tt).
  { destruct Hm as [e Htm _ | m rm _ _ _ Hret | m rm ru _ _ _ Hret]; auto.
    rewrite Htm in Hq. discriminate Hq. }
  subst om. destruct Ho as [[rd Hrd] Ho]. eauto.
Qed.

(** The pipeline returns [False] only when no device name was obtained. *)
Lemma false_only_without_device image kernel_path init_bin_path t :
  shape image kernel_path init_bin_path t (Returned false) ->
  device_named t = false.
Proof.
  intros Hs. destruct (device_named t) eqn:Hnamed; [| reflexivity].
  destruct (shape_device_named _ _ _ _ _ Hs Hnamed)
    as (dev & tm & om & det & _ & _ & _ & Ho).
  destruct om; [destruct Ho as [_ Ho] |]; discriminate Ho.
Qed.

(** The report of [main] for a run that got a device name and in which no
    call raised: the success summary, exit status 0. *)
Lemma main_reports_success a0 kernel_path init_bin_path output_image rest t o :
  main_shape (a0 :: kernel_path :: init_bin_path :: output_image :: rest) t o ->
  device_named t = true ->
  no_exception t = true ->
  o = Returned tt /\ exit_code o = 0 /\
  In (success_line output_image) (printed t) /\
  exists dev rd, In (Losetup_detach dev, rd) (commands t).
Proof.
  intros [Hc _ | a0' k i img rest' tb td ta od Hargv Ht Hs Hb Ha Ho] Hnamed Hquiet.
  - unfold device_named in Hnamed. rewrite Hc in Hnamed. discriminate.
  - injection Hargv as <- <- <- <- <-.
    assert (Hcmds : commands t = commands td).
    { rewrite Ht, !commands_app, Hb, Ha, app_nil_r. reflexivity. }
    assert (Hnamed' : device_named td = true).
    { unfold device_named in *. rewrite <- Hcmds. exact Hnamed. }
    assert (Hquiet' : no_exception td = true).
    { rewrite Ht, !no_exception_app in Hquiet.
      apply andb_prop in Hquiet as [_ [H _]%andb_prop]. exact H. }
    destruct (named_run_returns_true _ _ _ _ _ Hs Hnamed' Hquiet')
      as [-> (dev & rd & Hdet)].
    destruct Ho as [-> Hline]. repeat split.
    + rewrite Ht, !printed_app. apply in_or_app. right. apply in_or_app. right.
      exact Hline.
    + exists dev, rd. rewrite Hcmds. exact Hdet.
Qed.

(** C9: [create_fat32_disk] returns [False] only when no loop-device name
    was obtained; when a name was obtained (from either query) and no call
    raised, it returns [True], whatever [parted], [mkfs] and [mount]
    answered, and [main] then returns normally (exit status 0) after
    printing the success summary. *)
Theorem returns_false_only_without_loop_device {W : Type} (handle : world W) (w : W)
    a0 kernel_path init_bin_path output_image rest size_mb :
  let r := run handle
             (create_fat32_disk output_image size_mb kernel_path init_bin_path) w in
  let m := run handle
             (main (a0 :: kernel_path :: init_bin_path :: output_image :: rest)) w in
  (outcome_of r = Returned false -> device_named (trace_of r) = false) /\
  (device_named (trace_of r) = true -> no_exception (trace_of r) = true ->
   outcome_of r = Returned true) /\
  (device_named (trace_of m) = true -> no_exception (trace_of m) = true ->
   outcome_of m = Returned tt /\ exit_code (outcome_of m) = 0 /\
   In (success_line output_image) (printed (trace_of m))).
Proof.
  intros r m. subst r m. repeat split.
  - intros Ho. eapply false_only_without_device. rewrite <- Ho. apply run_shape.
  - intros Hn Hq. eapply named_run_returns_true; eauto. apply run_shape.
  - eapply main_reports_success; eauto. apply main_run_shape.
  - eapply main_reports_success; eauto. apply main_run_shape.
  - eapply main_reports_success; eauto. apply main_run_shape.
Qed.

(** The unmount command ran and failed. *)
Definition umount_failed (t : list event) : bool :=
  existsb (fun cr => is_umount cr && negb (succeeded cr.2)) (commands t).

Lemma umount_needs_device image kernel_path init_bin_path t o :
  shape image kernel_path init_bin_path t o ->
  existsb is_umount (commands t) = true ->
  device_named t = true.
Proof.
  intros [e Hc _ _ _ | r1 r2 r3 r fb Hfb Hnone Hc _ _
          | r1 r2 r3 r fb dev found rf retry tb tm ta om det
              Hfb Hres Htruthy Hfound _ _ Hm Ht Hb _ Ha _ _ Hdet] Hu.
  - rewrite Hc in Hu. discriminate.
  - rewrite Hc in Hu. destruct fb; discriminate.
  - unfold device_named. rewrite Ht, !commands_app, Hb, <- !app_assoc.
    rewrite (loop_device_resolved _ _ _ _ _ _ _ Hfb), Hres. exact Htruthy.
Qed.

Lemma umount_failed_is_umount t :
  umount_failed t = true -> existsb is_umount (commands t) = true.
Proof.
  unfold umount_failed. induction (commands t) as [| cr cs IH]; simpl; [auto |].
  destruct (is_umount cr); simpl; auto.
Qed.

(** A failed unmount does not change the report: in every run of [main]
    in which the unmount command failed and no call raised, the loop
    device is still detached, the success summary is printed and the
    exit status is 0. *)
Lemma failed_umount_still_succeeds {W : Type} (handle : world W) (w : W)
    a0 kernel_path init_bin_path output_image rest :
  let m := run handle
             (main (a0 :: kernel_path :: init_bin_path :: output_image :: rest)) w in
  umount_failed (trace_of m) = true ->
  no_exception (trace_of m) = true ->
  outcome_of m = Returned tt /\ exit_code (outcome_of m) = 0 /\
  In (success_line output_image) (printed (trace_of m)) /\
  exists dev rd, In (Losetup_detach dev, rd) (commands (trace_of m)).
Proof.
  intros m Hfail Hquiet. subst m.
  pose proof (main_run_shape handle w
                (a0 :: kernel_path :: init_bin_path :: output_image :: rest)) as Hs.
  cbv zeta in Hs. eapply main_reports_success; eauto.
  apply umount_failed_is_umount in Hfail.
  destruct Hs as [Hc _ | a0' k i img rest' tb td ta od Hargv Ht Hsd Hb Ha Ho].
  - rewrite Hc in Hfail. discriminate.
  - assert (Hcmds : commands (trace_of (run handle
              (main (a0 :: kernel_path :: init_bin_path :: output_image :: rest)) w))
                    = commands td).
    { rewrite Ht, !commands_app, Hb, Ha, app_nil_r. reflexivity. }
    unfold device_named. rewrite Hcmds. rewrite Hcmds in Hfail.
    exact (umount_needs_device _ _ _ _ _ Hsd Hfail).
Qed.

(** C7, as amended: the directory creations and file copies of every run
    follow, as far as the run gets, the order [makedirs /bin],
    [makedirs /usr], copy of the init binary (if present), copy of the
    kernel (if present), [makedirs /boot/grub]: [/bin] and [/usr] exist
    before any copy, [/boot/grub] is created after the copies. *)
Theorem staging_calls_follow_plan {W : Type} (handle : world W) (w : W)
    image size_mb kernel_path init_bin_path :
  let t := trace_of (run handle
                       (create_fat32_disk image size_mb kernel_path init_bin_path) w) in
  exists mount_point have_init have_kernel,
    stage_calls t `prefix_of`
      stage_plan mount_point kernel_path init_bin_path have_init have_kernel.
Proof.
  intros t. subst t.
  destruct (run_shape handle w image size_mb kernel_path init_bin_path)
    as [e _ Hs _ _ | r1 r2 r3 r fb _ _ _ Hs _
        | r1 r2 r3 r fb dev found rf retry tb tm ta om det
            _ _ _ _ _ _ Hm Ht _ Hsb _ Hsa _ _].
  - rewrite Hs. exists EmptyString, true, true. apply prefix_nil.
  - rewrite Hs. exists EmptyString, true, true. apply prefix_nil.
  - rewrite Ht, !stage_calls_app, Hsb, Hsa, app_nil_r. simpl.
    destruct Hm as [e -> _ | m rm _ _ Hs _ | m rm ru _ _ (hi & hk & Hplan) _].
    + exists EmptyString, true, true. apply prefix_nil.
    + rewrite Hs. exists EmptyString, true, true. apply prefix_nil.
    + exists m, hi, hk. exact Hplan.
Qed.

(** When the run returns at all after a device name was obtained, the
    device was detached exactly once. *)
Lemma detach_once_when_run_returns image kernel_path init_bin_path t b :
  shape image kernel_path init_bin_path t (Returned b) ->
  device_named t = true ->
  List.length (List.filter is_detach (commands t)) = 1%nat.
Proof.
  intros [e _ _ _ Ho | r1 r2 r3 r fb Hfb Hnone Hc _ _
          | r1 r2 r3 r fb dev found rf retry tb tm ta om det
              Hfb Hres Htruthy Hfound _ _ Hm Ht Hb _ Ha _ _ Hdet] Hnamed.
  - discriminate Ho.
  - unfold device_named in Hnamed. rewrite Hc in Hnamed.
    rewrite <- (app_nil_r (attach_commands _ _ _)) in Hnamed.
    rewrite (loop_device_resolved _ _ _ _ _ _ _ Hfb) in Hnamed.
    destruct (resolved r fb); congruence.
  - destruct om as [[] | e]; [| destruct Hdet as [_ Ho]; discriminate Ho].
    destruct Hdet as [[rd ->] _].
    rewrite Ht, !commands_app, Hb, Ha, !List.filter_app.
    assert (Hcm : List.filter is_detach (commands tm) = []).
    { destruct Hm as [e -> _ | m rm _ -> _ _ | m rm ru _ -> _ _]; reflexivity. }
    rewrite Hcm. destruct fb, retry; reflexivity.
Qed.

(** ** The pipeline on concrete machines *)

Definition argv_example : list string :=
  ["create_disk_with_init.py"; "bzImage"; "init.bin"; "disk.img"; "1"]%string.

(** On a machine where every call succeeds the kernel and the init binary
    are copied before [/boot/grub] is created. *)
Example stage_calls_fine :
  stage_calls (trace_of (run fine (create_fat32_disk "disk.img" 1 "bzImage" "init.bin") tt))
  = [Mkdir "/tmp/tmpark/bin"; Mkdir "/tmp/tmpark/usr";
     Copy "init.bin" "/tmp/tmpark/bin/init.bin";
     Copy "bzImage" "/tmp/tmpark/bzImage";
     Mkdir "/tmp/tmpark/boot/grub"].
Proof. vm_compute. reflexivity. Qed.

(** C7, counterexample: on a machine where every call succeeds, the init
    binary is copied while [/boot/grub] does not exist yet; the directory
    is created after the copies. *)
Lemma boot_grub_created_after_copies :
  let calls := stage_calls (trace_of (run fine
                 (create_fat32_disk "disk.img" 1 "bzImage" "init.bin") tt)) in
  exists before src dst after,
    calls = before ++ Copy src dst :: after /\
    ~ In (Mkdir (path_join (path_join "/tmp/tmpark" "boot") "grub")) before /\
    In (Mkdir (path_join (path_join "/tmp/tmpark" "boot") "grub")) after.
Proof.
  exists [Mkdir "/tmp/tmpark/bin"; Mkdir "/tmp/tmpark/usr"],
    "init.bin"%string, "/tmp/tmpark/bin/init.bin"%string,
    [Copy "bzImage" "/tmp/tmpark/bzImage"; Mkdir "/tmp/tmpark/boot/grub"].
  split; [vm_compute; reflexivity |]. split.
  - vm_compute. intros [Hg | [Hg | []]]; discriminate Hg.
  - vm_compute. right. left. reflexivity.
Qed.

(** C8, witness: the kernel copy raises after a successful mount. *)
Lemma umount_exactly_once_after_mount_witness :
  let t := trace_of (run kernel_copy_raises
                       (create_fat32_disk "disk.img" 1 "bzImage" "init.bin") tt) in
  mount_succeeded t = true /\
  no_exception t = false /\
  List.length (umounts t) = 1%nat.
Proof.
  split; [vm_compute; reflexivity |]. split; [vm_compute; reflexivity |].
  apply (umount_exactly_once_after_mount kernel_copy_raises tt
           "disk.img" 1 "bzImage" "init.bin").
  vm_compute. reflexivity.
Defined.

(** C2, witness: no partition node beside the loop device; [mkfs.fat]
    and [mount] run on the loop device itself. *)
Lemma formatting_and_mount_target_whole_device_witness :
  let t := trace_of (run no_partition_node
                       (create_fat32_disk "disk.img" 1 "bzImage" "init.bin") tt) in
  attached_handle t = Some "/dev/loop0"%string /\
  partition_node_absent "/dev/loop0" t = true /\
  all_target "/dev/loop0" t /\
  List.filter (fun cr => bool_decide (is_Some (device_of cr.1))) (commands t)
  = [(Mkfs_fat "/dev/loop0", inr (Completed 0 "" ""));
     (Mount "/dev/loop0" "/tmp/tmpark", inr (Completed 0 "" ""))]%string.
Proof.
  split; [vm_compute; reflexivity |]. split; [vm_compute; reflexivity |].
  split; [| vm_compute; reflexivity].
  apply (formatting_and_mount_target_whole_device no_partition_node tt
           "disk.img" 1 "bzImage" "init.bin" "/dev/loop0");
    vm_compute; reflexivity.
Defined.

(** C9, witness: partitioning, formatting and mounting all fail, and the
    run still reports success; without a loop device it returns [False]. *)
Lemma returns_false_only_without_loop_device_witness :
  let r := run degraded (create_fat32_disk "disk.img" 1 "bzImage" "init.bin") tt in
  let m := run degraded (main argv_example) tt in
  let f := run no_loop_device (create_fat32_disk "disk.img" 1 "bzImage" "init.bin") tt in
  (outcome_of f = Returned false /\ device_named (trace_of f) = false) /\
  (device_named (trace_of r) = true /\ no_exception (trace_of r) = true /\
   outcome_of r = Returned true) /\
  (device_named (trace_of m) = true /\ no_exception (trace_of m) = true /\
   outcome_of m = Returned tt /\ exit_code (outcome_of m) = 0) .
Proof.
  pose proof (returns_false_only_without_loop_device degraded tt
                "create_disk_with_init.py" "bzImage" "init.bin" "disk.img" ["1"%string] 1)
    as (_ & Hr & Hm).
  pose proof (returns_false_only_without_loop_device no_loop_device tt
                "create_disk_with_init.py" "bzImage" "init.bin" "disk.img" ["1"%string] 1)
    as (Hf & _ & _).
  split; [| split].
  - split; [vm_compute; reflexivity |]. apply Hf. vm_compute. reflexivity.
  - split; [vm_compute; reflexivity |]. split; [vm_compute; reflexivity |].
    apply Hr; vm_compute; reflexivity.
  - split; [vm_compute; reflexivity |]. split; [vm_compute; reflexivity |].
    destruct Hm as (Ho & He & _); [vm_compute; reflexivity .. |].
    split; [exact Ho | exact He].
Defined.

(** What [main] prints when every call succeeds but [umount]. *)
Example printed_when_umount_fails :
  printed (trace_of (run umount_fails (main argv_example) tt))
  = ["[*] Creating 1MB FAT32 disk image: disk.img";
     "[+] Created 1MB disk image";
     "[*] Creating MBR partition table...";
     "[*] Creating FAT32 partition...";
     "[*] Formatting partition as FAT32...";
     "[*] Setting up loop device...";
     "[+] Using loop device: /dev/loop0";
     "[*] Formatting /dev/loop0p1 as FAT32...";
     "[*] Mounting partition to /tmp/tmpark...";
     "[*] Creating /bin and /usr directories...";
     "[*] Copying init.bin to /bin/init.bin...";
     "[+] init.bin copied";
     "[*] Copying bzImage to /bzImage...";
     "[+] bzImage copied";
     "[+] GRUB configuration created";
     nl ++ "[*] Disk image contents:";
     nl ++ "[*] Unmounting partition...";
     nl ++ "[+] Disk image created successfully: disk.img";
     "[+] Filesystem: FAT32";
     "[+] Contents: /bin/init.bin, /usr/, /boot/grub/grub.cfg";
     nl ++ "[*] To test with QEMU:";
     "    qemu-system-i386 -drive file=disk.img,format=raw -m 256M";
     nl ++ "[*] To write to USB device:";
     "    sudo dd if=disk.img of=/dev/sdX bs=1M status=progress"]%string.
Proof. vm_compute. reflexivity. Qed.

(** C3: a failed unmount is not reported.  Line 156 drops what
    [run_cmd] returns for [umount].  When [umount] exits with status 16
    and the mount point can still be removed, [main] prints the success
    summary and exits with status 0, and no line of its output reports
    an error.  When [umount] exits with status 32 because the volume is
    busy, removing the mount point raises: the run ends with that
    [OSError] right after the line [Unmounting partition...], the loop
    device is not detached, and no line reports the unmount. *)
Theorem failed_umount_goes_unreported :
  let m := run umount_fails (main argv_example) tt in
  let b := run umount_busy (main argv_example) tt in
  (mount_succeeded (trace_of m) = true /\
   umount_failed (trace_of m) = true /\
   outcome_of m = Returned tt /\
   exit_code (outcome_of m) = 0 /\
   In (success_line "disk.img") (printed (trace_of m)) /\
   forallb (fun line => negb (String.prefix "[!]" line)) (printed (trace_of m)) = true) /\
  (mount_succeeded (trace_of b) = true /\
   umount_failed (trace_of b) = true /\
   outcome_of b = Raised (Exc mount_point_busy) /\
   exit_code (outcome_of b) = 1 /\
   List.filter is_detach (commands (trace_of b)) = [] /\
   last (printed (trace_of b)) = Some (nl ++ "[*] Unmounting partition...")%string /\
   forallb (fun line => negb (String.prefix "[!]" line)) (printed (trace_of b)) = true).
Proof.
  repeat split; try (vm_compute; reflexivity).
  rewrite printed_when_umount_fails. do 17 right. left. reflexivity.
Qed.

(** C5, witness: [mkfs.fat] fails, [mkfs.vfat] is tried once on the same
    target and fails as well, and the mount is attempted after them. *)
Lemma format_retries_once_then_mount_witness :
  let t := trace_of (run degraded
                       (create_fat32_disk "disk.img" 1 "bzImage" "init.bin") tt) in
  loop_device (commands t) = Some "/dev/loop0"%string /\
  List.filter is_mkfs (commands t)
  = [(Mkfs_fat "/dev/loop0p1", inr (Completed 1 "" "failed"));
     (Mkfs_vfat "/dev/loop0p1", inr (Completed 1 "" "failed"))]%string /\
  exists (found : bool) (r : result completed),
    In (("/dev/loop0" ++ "p1")%string, found) (path_checks t) /\
    ((succeeded r = true /\
      List.filter is_mkfs (commands t) = [(Mkfs_fat (target "/dev/loop0" found), r)]) \/
     (succeeded r = false /\
      In ("[!] mkfs.fat failed: " ++ errors_of r)%string (printed t) /\
      exists r', List.filter is_mkfs (commands t)
                 = [(Mkfs_fat (target "/dev/loop0" found), r);
                    (Mkfs_vfat (target "/dev/loop0" found), r')]))
    /\
    ((exists e, In (Ev MkDTemp (inl e)) t) \/
     (exists mount_point rm before after,
        commands t = before ++ (Mount (target "/dev/loop0" found) mount_point, rm) :: after /\
        List.filter is_mkfs before = List.filter is_mkfs (commands t) /\
        List.filter is_mkfs after = [])).
Proof.
  cbv zeta. split; [vm_compute; reflexivity |]. split; [vm_compute; reflexivity |].
  destruct (format_retries_once_then_mount degraded tt "disk.img" 1 "bzImage" "init.bin")
    as [_ H].
  apply (H "/dev/loop0"%string); vm_compute; reflexivity.
Defined.

(** C1: the kernel copy raises after the loop device was attached and the
    partition mounted.  The partition is unmounted, the exception leaves
    the function, and [losetup -d] never runs. *)
Theorem detach_skipped_when_staging_raises :
  let r := run kernel_copy_raises
             (create_fat32_disk "disk.img" 1 "bzImage" "init.bin") tt in
  commands (trace_of r)
  = [(Parted_mklabel "disk.img", inr (Completed 0 "" ""));
     (Parted_mkpart "disk.img", inr (Completed 0 "" ""));
     (Parted_set_boot "disk.img", inr (Completed 0 "" ""));
     (Losetup_show "disk.img", inr (Completed 0 ("/dev/loop0" ++ nl) ""));
     (Mkfs_fat "/dev/loop0p1", inr (Completed 0 "" ""));
     (Mount "/dev/loop0p1" "/tmp/tmpark", inr (Completed 0 "" ""));
     (Umount "/dev/loop0p1", inr (Completed 0 "" ""))]%string /\
  attached_handle (trace_of r) = Some "/dev/loop0"%string /\
  List.filter is_detach (commands (trace_of r)) = [] /\
  outcome_of r = Raised (Exc (PyError "OSError" "[Errno 28] No space left on device")).
Proof. vm_compute. repeat split. Qed.

End DiskClaims.

(* ===================================================================== *)
(** * The archive packager: the order of the writes, in every world *)
(* ===================================================================== *)

Module PackagerOrder.

Import Py InitramfsZip DiskLogic.

(** The [zf.write(host, arcname)] calls of a run, in order. *)
Definition zip_write_of (ev : event) : option (string * string) :=
  match ev with
  | @Ev X op ans =>
      match op in os_op X return option (string * string) with
      | ZipWrite _ host arcname => Some (host, arcname)
      | _ => None
      end
  end.

Fixpoint zip_writes (t : list event) : list (string * string) :=
  match t with
  | [] => []
  | ev :: rest =>
      match zip_write_of ev with
      | Some c => c :: zip_writes rest
      | None => zip_writes rest
      end
  end.

Lemma zip_writes_app t1 t2 : zip_writes (t1 ++ t2) = zip_writes t1 ++ zip_writes t2.
Proof.
  induction t1 as [| ev t1 IH]; simpl; [reflexivity |].
  destruct (zip_write_of ev); simpl; congruence.
Qed.

(** The loop over the extras writes a subsequence of them, in order. *)
Lemma extras_loop_order (out_zip : string) (extras : list string) :
  wp (for_each extras (add_extra out_zip))
     (fun t _ => zip_writes t `sublist_of` List.map parse_extra extras).
Proof.
  induction extras as [| extra rest IH]; cbn [for_each List.map].
  - simpl. constructor.
  - apply wp_bind. unfold add_extra.
    destruct (parse_extra extra) as [host zpath].
    wp_calls. destruct x; wp_calls.
    + simpl. apply sublist_skip, sublist_nil_l.
    + simpl. apply sublist_skip, sublist_nil_l.
    + eapply wp_conseq; [apply IH |]. intros t o Ht. simpl.
      apply sublist_skip. exact Ht.
    + eapply wp_conseq; [apply IH |]. intros t o Ht. simpl.
      apply sublist_cons. exact Ht.
Qed.

(** The listing of the archive writes nothing. *)
Lemma listing_writes_nothing (infos : list zipinfo) :
  wp (for_each infos list_member) (fun t o => zip_writes t = [] /\ o = Returned tt).
Proof.
  induction infos as [| info rest IH]; cbn [for_each]; [split; reflexivity |].
  apply wp_bind. unfold list_member. wp_calls.
  eapply wp_conseq; [apply IH |]. intros t o Ht. exact Ht.
Qed.

(** In every world, the first [zf.write] of a run of [main] is that of
    the init binary under the name [init]; the writes that follow are
    those of extras, in the order of the arguments. *)
Lemma init_written_first (a0 init_bin : string) (rest : list string) :
  wp (main (a0 :: init_bin :: rest))
     (fun t _ =>
        zip_writes t = [] \/
        exists later,
          zip_writes t = (init_bin, "init"%string) :: later /\
          later `sublist_of` List.map parse_extra (extras_of rest)).
Proof.
  unfold main, sys_exit. wp_calls. destruct x; cbn [negb]; wp_calls.
  all: try solve [left; reflexivity
                 | right; exists []; split; [reflexivity | apply sublist_nil_l]].
  apply wp_bind, wp_try_finally.
  eapply wp_conseq; [apply extras_loop_order |].
  intros tl ol Hl. wp_calls.
  all: try (destruct ol as [[] | e']; cbn beta iota; wp_calls).
  all: try (apply wp_bind, wp_try_finally;
            eapply wp_conseq; [apply listing_writes_nothing |];
            intros tr or [Hr ->]; wp_calls).
  all: right; exists (zip_writes tl); simpl;
    rewrite ?zip_writes_app; simpl; rewrite ?zip_writes_app, ?Hr; simpl;
    rewrite ?app_nil_r; (split; [reflexivity | exact Hl]).
Qed.

(** The same for the trace of a run in any world. *)
Corollary init_written_first_in_every_world {W : Type} (handle : world W) (w : W)
    (a0 init_bin : string) (rest : list string) :
  let t := trace_of (run handle (main (a0 :: init_bin :: rest)) w) in
  zip_writes t = [] \/
  exists later,
    zip_writes t = (init_bin, "init"%string) :: later /\
    later `sublist_of` List.map parse_extra (extras_of rest).
Proof. apply (wp_run _ _ (init_written_first a0 init_bin rest)). Qed.

End PackagerOrder.

(* ===================================================================== *)
(** * Observing single events *)
(* ===================================================================== *)

(** What an observer [f] of single events sees in a trace, in order. *)
Fixpoint collect {X : Type} (f : event -> option X) (t : list event) : list X :=
  match t with
  | [] => []
  | ev :: rest =>
      match f ev with
      | Some x => x :: collect f rest
      | None => collect f rest
      end
  end.

Lemma collect_app {X : Type} (f : event -> option X) t1 t2 :
  collect f (t1 ++ t2) = collect f t1 ++ collect f t2.
Proof.
  induction t1 as [| ev t1 IH]; simpl; [reflexivity |].
  destruct (f ev); simpl; congruence.
Qed.

(** An observer that ignores a class of events sees nothing in a trace
    of that class. *)
Lemma collect_none {X : Type} (f : event -> option X) (P : event -> Prop)
    (t : list event) :
  Forall P t -> (forall ev, P ev -> f ev = None) -> collect f t = [].
Proof.
  intros Ht HP. induction Ht as [| ev t Hev _ IH]; [reflexivity |].
  simpl. rewrite (HP _ Hev). exact IH.
Qed.

(* ===================================================================== *)
(** * Runs on the file store *)
(* ===================================================================== *)

Lemma run_bind {W A B : Type} (handle : world W) (p : prog A) (k : A -> prog B) (w : W) :
  run handle (bind p k) w =
  match run handle p w with
  | (t1, Returned a, w1) =>
      match run handle (k a) w1 with
      | (t2, o2, w2) => (t1 ++ t2, o2, w2)
      end
  | (t1, Raised e, w1) => (t1, Raised e, w1)
  end.
Proof.
  revert w. induction p as [a | e | X op f IH]; intros w; simpl.
  - destruct (run handle (k a) w) as [[t2 o2] w2]. reflexivity.
  - reflexivity.
  - destruct (handle X op w) as [x w1]. rewrite IH.
    destruct (run handle (f x) w1) as [[t1 [a | e]] w2]; [| reflexivity].
    destruct (run handle (k a) w2) as [[t2 o2] w3]. reflexivity.
Qed.

Lemma run_try_finally {W A : Type} (handle : world W) (body : prog A)
    (final : prog unit) (w : W) :
  run handle (try_finally body final) w =
  match run handle body w with
  | (t1, o1, w1) =>
      match run handle final w1 with
      | (t2, Returned _, w2) => (t1 ++ t2, o1, w2)
      | (t2, Raised e, w2) => (t1 ++ t2, Raised e, w2)
      end
  end.
Proof.
  revert w. induction body as [a | e | X op f IH]; intros w; simpl.
  - rewrite run_bind. destruct (run handle final w) as [[t2 [[] | e]] w2]; simpl;
      rewrite ?app_nil_r; reflexivity.
  - rewrite run_bind. destruct (run handle final w) as [[t2 [[] | e']] w2]; simpl;
      rewrite ?app_nil_r; reflexivity.
  - destruct (handle X op w) as [x w1]. rewrite IH.
    destruct (run handle (f x) w1) as [[t1 o1] w2].
    destruct (run handle final w2) as [[t2 [[] | e]] w3]; reflexivity.
Qed.

Module StoreClaims.

Import Py DiskWithInit InitramfsZip FileSystem.

(** The [zf.write(host, arcname)] calls that [zipfile] accepted, and the
    archives whose closing raised nothing, in order. *)
Definition stored_of (ev : event) : option (string * string) :=
  match ev with
  | @Ev X op ans =>
      match op in os_op X return X -> option (string * string) with
      | ZipWrite _ host arcname =>
          fun r => match r with inr _ => Some (host, arcname) | inl _ => None end
      | _ => fun _ => None
      end ans
  end.

Definition stored (t : list event) : list (string * string) := collect stored_of t.

Definition finished_of (ev : event) : option string :=
  match ev with
  | @Ev X op ans =>
      match op in os_op X return X -> option string with
      | ZipClose path => fun r => match r with inr _ => Some path | inl _ => None end
      | _ => fun _ => None
      end ans
  end.

Definition finished (t : list event) : list string := collect finished_of t.

Section Store.

Variable zip_image : list zip_member -> list byte.
Variable refused : forall X : Type, os_op X -> state -> option py_error.

(** ** Runs in which nothing is refused *)

Lemma refusal_raises {X : Type} (op : os_op X) (e : py_error) (x : X) :
  refusal op e = Some x -> raised_in (Ev op x) = true.
Proof.
  destruct op; simpl; intros H; try discriminate H; injection H as <-; reflexivity.
Qed.

(** A run of the refusing machine in which no call raised is a run of
    the machine that refuses nothing. *)
Lemma faulty_quiet {A : Type} (p : prog A) (st : state) :
  no_exception (trace_of (run (faulty zip_image refused) p st)) = true ->
  run (faulty zip_image refused) p st = run (handle zip_image) p st.
Proof.
  revert st. induction p as [a | e | X op k IH]; intros st; [reflexivity .. |].
  cbn [run]. unfold faulty at 1 3.
  destruct (refused X op st) as [e |].
  - destruct (refusal op e) as [x |] eqn:Hx.
    + pose proof (refusal_raises op e x Hx) as Hr.
      destruct (run (faulty zip_image refused) (k x) st) as [[t o] w].
      unfold trace_of. cbn [fst no_exception]. rewrite Hr. discriminate.
    + destruct (handle zip_image X op st) as [x st1]. specialize (IH x st1).
      destruct (run (faulty zip_image refused) (k x) st1) as [[t o] w].
      unfold trace_of in *. cbn [fst no_exception] in *.
      intros [_ Hq]%andb_prop. rewrite <- (IH Hq). reflexivity.
  - destruct (handle zip_image X op st) as [x st1]. specialize (IH x st1).
    destruct (run (faulty zip_image refused) (k x) st1) as [[t o] w].
    unfold trace_of in *. cbn [fst no_exception] in *.
    intros [_ Hq]%andb_prop. rewrite <- (IH Hq). reflexivity.
Qed.

(** When the machine refuses nothing, its runs are those of [handle]. *)
Lemma faulty_unrefused {A : Type} (p : prog A) (st : state) :
  (forall X op s, refused X op s = None) ->
  run (faulty zip_image refused) p st = run (handle zip_image) p st.
Proof.
  intros Hnone. revert st. induction p as [a | e | X op k IH]; intros st;
    [reflexivity .. |].
  cbn [run]. unfold faulty at 1. rewrite Hnone.
  destruct (handle zip_image X op st) as [x st1]. rewrite IH. reflexivity.
Qed.

(** ** The image allocator *)

(** The allocation on the machine that refuses nothing: the old file is
    replaced by the zeros, unless the block is larger than a [bytes]
    object can be; the output path then holds an empty file. *)
Lemma run_allocate_image (st : state) (image : string) (size_mb : Z) :
  let r := run (handle zip_image) (allocate_image image size_mb) st in
  (forall other, other <> image -> files (final_of r) !! other = files st !! other) /\
  if (size_mb * 1024 * 1024 >? max_ssize)%Z
  then outcome_of r = Raised (Exc too_large) /\ files (final_of r) !! image = Some []
  else outcome_of r = Returned tt /\
       files (final_of r) !! image = Some (zero_bytes (size_mb * 1024 * 1024)).
Proof.
  cbn zeta. unfold allocate_image, with_resource.
  cbn [run bind call call_r when handle try_finally print].
  destruct (files st !! image) as [old |] eqn:Hold;
    cbn [run bind call call_r when handle try_finally print files archives writing];
    rewrite ?Hold;
    cbn [run bind call call_r when handle try_finally print files archives writing];
    destruct (size_mb * 1024 * 1024 >? max_ssize)%Z;
    cbn [run bind call call_r when handle try_finally print files archives writing];
    rewrite ?lookup_insert_eq;
    cbn [run bind call call_r when handle try_finally print files archives writing
         outcome_of final_of trace_of fst snd app];
    rewrite ?insert_insert_eq, ?lookup_insert_eq.
  all: split; [| split; reflexivity].
  all: intros other Hother;
    rewrite ?lookup_insert_ne, ?lookup_delete_ne by congruence; reflexivity.
Qed.

(** C4, as amended: for every [size_mb > 0], every store and whatever
    the machine refuses, a run of the allocator in which no call raises
    returns, and no other run does; when it returns, the output path
    holds a file of exactly [size_mb * 1024 * 1024] bytes, all zero,
    whatever was there before, and no other file has changed.  On a
    machine that refuses nothing the allocator returns for every size
    whose block is at most [sys.maxsize] bytes. *)
Theorem allocated_image_is_zero_filled (st : state) (image : string) (size_mb : Z) :
  0 < size_mb ->
  let r := run (faulty zip_image refused) (allocate_image image size_mb) st in
  (outcome_of r = Returned tt <-> no_exception (trace_of r) = true) /\
  (outcome_of r = Returned tt ->
   exists data,
     files (final_of r) !! image = Some data /\
     Z.of_nat (List.length data) = size_mb * 1024 * 1024 /\
     Forall (fun b => b = x00) data /\
     forall other, other <> image ->
                   files (final_of r) !! other = files st !! other) /\
  ((forall X op s, refused X op s = None) ->
   size_mb * 1024 * 1024 <= max_ssize ->
   outcome_of r = Returned tt).
Proof.
  intros Hpos r.
  pose proof (run_allocate_image st image size_mb) as [Hframe Hbase]. cbn zeta in Hframe, Hbase.
  split; [| split].
  - split.
    + apply (wp_run _ _ (DiskLogic.allocate_image_returns image size_mb)).
    + apply (wp_run _ _ (DiskLogic.allocate_image_spec image size_mb)).
  - intros Hret.
    assert (Hquiet : no_exception (trace_of r) = true).
    { revert Hret. apply (wp_run _ _ (DiskLogic.allocate_image_returns image size_mb)). }
    subst r. rewrite (faulty_quiet _ _ Hquiet) in *.
    destruct (size_mb * 1024 * 1024 >? max_ssize)%Z.
    + destruct Hbase as [Hbase _]. rewrite Hbase in Hret. discriminate Hret.
    + destruct Hbase as [_ Hfile].
      exists (zero_bytes (size_mb * 1024 * 1024)).
      split; [exact Hfile |]. unfold zero_bytes. split; [rewrite repeat_length; lia |].
      split; [| exact Hframe].
      apply List.Forall_forall. intros b Hb. apply repeat_spec in Hb. exact Hb.
  - intros Hnone Hfits. subst r. rewrite (faulty_unrefused _ _ Hnone).
    destruct (size_mb * 1024 * 1024 >? max_ssize)%Z eqn:Hbig; [| apply Hbase].
    apply Z.gtb_lt in Hbig. lia.
Qed.

(** ** The archive packager *)

(** The members that the extra arguments add to the archive, in argument
    order, read off the store: an extra whose host is no file is skipped,
    and the loop ends at an archive path that [zipfile] refuses. *)
Fixpoint packed (store : gmap string (list byte)) (extras : list string)
  : list zip_member :=
  match extras with
  | [] => []
  | extra :: rest =>
      match store !! (parse_extra extra).1 with
      | None => packed store rest
      | Some data =>
          match zip_arcname (parse_extra extra).2 with
          | Some name => Member name data :: packed store rest
          | None => []
          end
      end
  end.

(** No archive path of the extras is refused. *)
Fixpoint accepted (store : gmap string (list byte)) (extras : list string) : bool :=
  match extras with
  | [] => true
  | extra :: rest =>
      match store !! (parse_extra extra).1 with
      | None => accepted store rest
      | Some _ =>
          match zip_arcname (parse_extra extra).2 with
          | Some _ => accepted store rest
          | None => false
          end
      end
  end.

(** One iteration of the loop over the extras. *)
Lemma run_add_extra (out_zip extra : string) (st : state) (members : list zip_member) :
  writing st = Some out_zip ->
  archives st !! out_zip = Some members ->
  let r := run (handle zip_image) (add_extra out_zip extra) st in
  match files st !! (parse_extra extra).1 with
  | None => final_of r = st /\ outcome_of r = Returned tt
  | Some data =>
      match zip_arcname (parse_extra extra).2 with
      | Some name =>
          final_of r = State (files st)
                             (<[out_zip := members ++ [Member name data]]> (archives st))
                             (writing st) /\
          outcome_of r = Returned tt
      | None => final_of r = st /\ exists e, outcome_of r = Raised e
      end
  end.
Proof.
  intros Hw Ha. cbn zeta. unfold add_extra.
  destruct (parse_extra extra) as [host zpath]. cbn [fst snd].
  cbn [run bind call call_r handle print print_err].
  destruct (files st !! host) as [data |] eqn:Hhost.
  - cbn [run bind call call_r handle print print_err]. rewrite Hw, Ha, Hhost.
    rewrite String.eqb_refl.
    destruct (zip_arcname zpath) as [name |] eqn:Hname.
    + cbn [run bind call call_r handle print print_err files archives writing].
      rewrite Hhost.
      cbn [run bind call call_r handle print print_err files archives writing].
      split; reflexivity.
    + cbn [run bind call call_r handle print print_err final_of outcome_of fst snd].
      split; [reflexivity | eauto].
  - cbn [run bind call call_r handle print print_err final_of outcome_of fst snd].
    split; reflexivity.
Qed.

(** The loop over the extras: the archive grows by [packed]. *)
Lemma run_extras (out_zip : string) (extras : list string) :
  forall (st : state) (members : list zip_member),
    writing st = Some out_zip ->
    archives st !! out_zip = Some members ->
    let r := run (handle zip_image) (for_each extras (add_extra out_zip)) st in
    final_of r = State (files st)
                       (<[out_zip := members ++ packed (files st) extras]> (archives st))
                       (Some out_zip) /\
    (outcome_of r = Returned tt <-> accepted (files st) extras = true).
Proof.
  induction extras as [| extra rest IH]; intros st members Hw Ha; cbn zeta.
  - simpl. rewrite app_nil_r, insert_id by exact Ha.
    destruct st as [fs ar wr]. simpl in *. subst wr. split; [reflexivity | tauto].
  - cbn [for_each packed accepted]. rewrite run_bind.
    pose proof (run_add_extra out_zip extra st members Hw Ha) as Hstep.
    cbn zeta in Hstep.
    destruct (run (handle zip_image) (add_extra out_zip extra) st) as [[t1 o1] st1].
    unfold final_of, outcome_of in Hstep. cbn [fst snd] in Hstep.
    destruct (files st !! (parse_extra extra).1) as [data |].
    + destruct (zip_arcname (parse_extra extra).2) as [name |].
      * destruct Hstep as [-> ->].
        destruct (IH (State (files st)
                            (<[out_zip := members ++ [Member name data]]> (archives st))
                            (writing st))
                     (members ++ [Member name data])) as [Hfinal Hout].
        { exact Hw. }
        { apply lookup_insert_eq. }
        cbn zeta in Hfinal, Hout. cbn [files archives] in Hfinal, Hout.
        destruct (run (handle zip_image) (for_each rest (add_extra out_zip)) _)
          as [[t o] w'].
        unfold final_of, outcome_of in *. cbn [fst snd] in *.
        split; [| exact Hout].
        rewrite Hfinal, insert_insert_eq, <- app_assoc. reflexivity.
      * destruct Hstep as [-> [e ->]].
        unfold final_of, outcome_of. cbn [fst snd].
        rewrite app_nil_r, insert_id by exact Ha.
        destruct st as [fs ar wr]. simpl in *. subst wr.
        split; [reflexivity |]. split; discriminate.
    + destruct Hstep as [-> ->].
      destruct (IH st members Hw Ha) as [Hfinal Hout]. cbn zeta in Hfinal, Hout.
      destruct (run (handle zip_image) (for_each rest (add_extra out_zip)) st)
        as [[t o] w'].
      unfold final_of, outcome_of in *. cbn [fst snd] in *.
      split; assumption.
Qed.

(** The listing of the archive only prints. *)
Lemma run_listing (infos : list zipinfo) (st : state) :
  let r := run (handle zip_image) (for_each infos list_member) st in
  final_of r = st /\ outcome_of r = Returned tt.
Proof.
  cbn zeta. induction infos as [| info rest IH]; [split; reflexivity |].
  cbn [for_each]. rewrite run_bind.
  assert (Hline : exists t, run (handle zip_image) (list_member info) st
                            = (t, Returned tt, st)) by (eexists; reflexivity).
  destruct Hline as [t1 ->].
  destruct (run (handle zip_image) (for_each rest list_member) st) as [[t o] w'].
  exact IH.
Qed.

(** The store once the archive has been opened for writing: the output
    path holds an empty file. *)
Definition opened (out_zip : string) (store : gmap string (list byte))
  : gmap string (list byte) :=
  <[out_zip := []]> store.

(** The archive that a run of [main] leaves at the output path. *)
Lemma run_main_archive (st : state) (a0 init_bin : string) (rest : list string)
    (data : list byte) :
  files st !! init_bin = Some data ->
  let out_zip := out_zip_of rest in
  let store := opened out_zip (files st) in
  let r := run (handle zip_image) (main (a0 :: init_bin :: rest)) st in
  exists init_data,
    store !! init_bin = Some init_data /\
    archives (final_of r) !! out_zip
    = Some (Member "init" init_data :: packed store (extras_of rest)) /\
    (outcome_of r = Returned tt <-> accepted store (extras_of rest) = true).
Proof.
  intros Hinit out_zip store r. subst r.
  assert (Hstore : exists init_data, store !! init_bin = Some init_data).
  { subst store. unfold opened. destruct (decide (out_zip = init_bin)) as [-> | Hne].
    - rewrite lookup_insert_eq. eauto.
    - rewrite lookup_insert_ne by exact Hne. eauto. }
  destruct Hstore as [init_data Hstore]. exists init_data. split; [exact Hstore |].
  destruct (run (handle zip_image) (main (a0 :: init_bin :: rest)) st)
    as [[t o] final] eqn:Hrun.
  unfold final_of, outcome_of. cbn [fst snd].
  unfold main in Hrun. fold out_zip in Hrun.
  cbn [run bind call call_r print handle with_resource try_finally negb] in Hrun.
  rewrite Hinit in Hrun.
  cbn [run bind call call_r print handle with_resource try_finally negb
       files archives writing] in Hrun.
  fold (opened out_zip (files st)) in Hrun. fold store in Hrun.
  rewrite lookup_insert_eq, Hstore, String.eqb_refl in Hrun.
  change (zip_arcname "init") with (Some "init"%string) in Hrun.
  cbn [run bind call call_r print handle with_resource try_finally negb
       files archives writing app] in Hrun.
  rewrite Hstore, insert_insert_eq in Hrun.
  cbn [run bind call call_r print handle with_resource try_finally negb
       files archives writing app] in Hrun.
  rewrite run_bind, run_try_finally in Hrun.
  set (st2 := State store (<[out_zip := [Member "init" init_data]]> (archives st))
                    (Some out_zip)) in Hrun.
  destruct (run_extras out_zip (extras_of rest) st2 [Member "init" init_data])
    as [Hfinal Hout]; [reflexivity | apply lookup_insert_eq |].
  cbn zeta in Hfinal, Hout. cbn [files archives st2] in Hfinal, Hout.
  rewrite insert_insert_eq in Hfinal. cbn [app] in Hfinal.
  destruct (run (handle zip_image) (for_each (extras_of rest) (add_extra out_zip)) st2)
    as [[t3 o3] st3].
  unfold final_of, outcome_of in Hfinal, Hout. cbn [fst snd] in Hfinal, Hout.
  subst st3.
  cbn [run call_r handle files archives writing] in Hrun.
  rewrite lookup_insert_eq, String.eqb_refl in Hrun.
  cbn [run] in Hrun.
  destruct o3 as [[] | e].
  - cbn [run bind call call_r print handle with_resource try_finally
         files archives writing] in Hrun.
    rewrite lookup_insert_eq in Hrun.
    cbn [run bind call call_r print handle with_resource try_finally
         files archives writing] in Hrun.
    rewrite run_bind, run_try_finally in Hrun.
    match type of Hrun with
    | context [run (handle zip_image) (for_each ?infos list_member) ?s] =>
        destruct (run_listing infos s) as [Hl1 Hl2];
        destruct (run (handle zip_image) (for_each infos list_member) s) as [[tl ol] sl]
    end.
    unfold final_of, outcome_of in Hl1, Hl2. cbn [fst snd] in Hl1, Hl2. subst sl ol.
    cbn [run bind call call_r print handle files archives writing] in Hrun.
    injection Hrun as _ <- <-. cbn [archives].
    rewrite lookup_insert_eq. split; [reflexivity |]. exact Hout.
  - injection Hrun as _ <- <-. cbn [archives].
    rewrite lookup_insert_eq. split; [reflexivity |]. exact Hout.
Qed.

(** C10: in every archive that [main] produces, the first member is the
    one named [init], written from the init binary before any extra; the
    members of the extras follow it in argument order ([packed] walks the
    arguments from left to right). *)
Theorem init_is_first_member (st : state) (a0 init_bin : string) (rest : list string)
    (data : list byte) :
  files st !! init_bin = Some data ->
  let out_zip := out_zip_of rest in
  let store := opened out_zip (files st) in
  let r := run (handle zip_image) (main (a0 :: init_bin :: rest)) st in
  exists init_data,
    store !! init_bin = Some init_data /\
    archives (final_of r) !! out_zip
    = Some (Member "init" init_data :: packed store (extras_of rest)).
Proof.
  intros Hinit out_zip store r.
  destruct (run_main_archive st a0 init_bin rest data Hinit)
    as (init_data & Hstore & Harchive & _).
  exists init_data. split; assumption.
Qed.

(** [packed] keeps the order of the arguments. *)
Lemma packed_app (store : gmap string (list byte)) (extras1 extras2 : list string) :
  accepted store extras1 = true ->
  packed store (extras1 ++ extras2) = packed store extras1 ++ packed store extras2.
Proof.
  induction extras1 as [| extra rest IH]; intros Hacc; [reflexivity |].
  cbn [app packed accepted] in *.
  destruct (store !! (parse_extra extra).1); [| auto].
  destruct (zip_arcname (parse_extra extra).2); [| discriminate Hacc].
  cbn [app]. rewrite IH by exact Hacc. reflexivity.
Qed.

(** *** Archive names of plain file names *)


Lemma basename_plain (p : string) : contains_char "/" (basename p) = false.
Proof.
  induction p as [| c p IH]; [reflexivity |].
  cbn [basename]. destruct (contains_char "/" (String c p)) eqn:Hc; [exact IH | exact Hc].
Qed.





(** *** The packager on a machine that refuses calls *)













End Store.

(** ** The packager and the allocator on a concrete store *)

Definition bytes_of (s : string) : list byte := list_byte_of_string s.

(** A store with an init binary, a shell and the host's own [/sbin/init]. *)
Definition example_store : state :=
  State (list_to_map [("init.bin"%string, bytes_of "ark-init");
                      ("sh"%string, bytes_of "#!shell");
                      ("/sbin/init"%string, bytes_of "host-init")])
        ∅ None.


(** A machine on which the archive cannot be opened again once it is
    written (line 53 raises). *)
Definition no_listing : forall X : Type, os_op X -> state -> option py_error :=
  fun X op _ =>
    match op with
    | ZipOpenR _ => Some (PyError "PermissionError" "[Errno 13] Permission denied")
    | _ => None
    end.

(** A machine on which [zipfile] does not take the init binary: its
    time stamp is older than 1980. *)
Definition stale_init : forall X : Type, os_op X -> state -> option py_error :=
  fun X op _ =>
    match op with
    | ZipWrite _ "init.bin" _ =>
        Some (PyError "ValueError" "ZIP does not support timestamps before 1980")
    | _ => None
    end.


(** That run: it raises at line 53, after the archive was closed with
    its three members. *)
Example archive_written_before_listing_fails :
  let r := run (faulty toy_image no_listing)
               (main ["create_initramfs_zip.py"; "init.bin"; "initramfs.zip"; "sh";
                      "missing"; "/sbin/init:sbin/init"]%string)
               example_store in
  outcome_of r = Raised (Exc (PyError "PermissionError" "[Errno 13] Permission denied")) /\
  archives (final_of r) !! "initramfs.zip"%string
  = Some [Member "init" (bytes_of "ark-init");
          Member "sh" (bytes_of "#!shell");
          Member "sbin/init" (bytes_of "host-init")].
Proof. vm_compute. split; reflexivity. Qed.

(** When [zipfile] does not take the init binary, the run raises at
    line 37 and leaves an archive without a member at the output path. *)
Example refused_init_leaves_empty_archive :
  let r := run (faulty toy_image stale_init)
               (main ["create_initramfs_zip.py"; "init.bin"; "initramfs.zip"; "sh"]%string)
               example_store in
  outcome_of r
  = Raised (Exc (PyError "ValueError" "ZIP does not support timestamps before 1980")) /\
  stored (trace_of r) = [] /\
  finished (trace_of r) = ["initramfs.zip"%string] /\
  archives (final_of r) !! "initramfs.zip"%string = Some [].
Proof. vm_compute. repeat split. Qed.

(** C10, witness *)
Lemma init_is_first_member_witness :
  let rest := ["initramfs.zip"; "sh:bin/sh"; "missing"; "/sbin/init"]%string in
  let r := run (handle toy_image)
               (main ("create_initramfs_zip.py" :: "init.bin" :: rest)%string)
               example_store in
  exists init_data,
    opened "initramfs.zip" (files example_store) !! "init.bin"%string = Some init_data /\
    archives (final_of r) !! "initramfs.zip"%string
    = Some (Member "init" init_data
            :: packed (opened "initramfs.zip" (files example_store))
                      ["sh:bin/sh"; "missing"; "/sbin/init"]%string).
Proof.
  apply (init_is_first_member toy_image example_store "create_initramfs_zip.py" "init.bin"
           ["initramfs.zip"; "sh:bin/sh"; "missing"; "/sbin/init"]%string
           (bytes_of "ark-init")).
  vm_compute. reflexivity.
Defined.

(** The members of that archive, in order. *)
Example members_in_argument_order :
  archives (final_of (run (handle toy_image)
              (main ["create_initramfs_zip.py"; "init.bin"; "initramfs.zip";
                     "sh:bin/sh"; "missing"; "/sbin/init"]%string)
              example_store)) !! "initramfs.zip"%string
  = Some [Member "init" (bytes_of "ark-init");
          Member "bin/sh" (bytes_of "#!shell");
          Member "init" (bytes_of "host-init")].
Proof. vm_compute. reflexivity. Qed.

(** A store with an older image at [d.img]. *)
Definition store_with_image : state :=
  State (<["d.img"%string := bytes_of "old content"]> (files example_store)) ∅ None.

(** C4, witness: a 64 MB image over an older file of the same name, on a
    machine that refuses nothing. *)
Lemma allocated_image_is_zero_filled_witness :
  let r := run (faulty toy_image willing) (allocate_image "d.img" 64) store_with_image in
  0 < 64 /\
  outcome_of r = Returned tt /\
  exists data,
    files (final_of r) !! "d.img"%string = Some data /\
    Z.of_nat (List.length data) = 67108864.
Proof.
  cbv zeta. split; [lia |].
  destruct (allocated_image_is_zero_filled toy_image willing store_with_image "d.img" 64)
    as (_ & Hfile & Hret); [lia |].
  assert (Hout : outcome_of (run (faulty toy_image willing) (allocate_image "d.img" 64)
                               store_with_image) = Returned tt).
  { apply Hret; [reflexivity |]. unfold max_ssize. lia. }
  split; [exact Hout |].
  destruct (Hfile Hout) as (data & Hdata & Hlen & _).
  exists data. split; [exact Hdata | exact Hlen].
Defined.

(** C4, counterexample: a size of [2^53] megabytes is greater than 0,
    but its block of [2^73] bytes is larger than a [bytes] object can
    be: building it raises [OverflowError] after the old image was
    removed and the new file opened.  The allocator raises, and the
    output path holds an empty file, not one of [2^73] bytes. *)
Lemma oversized_image_is_not_allocated :
  let size_mb := 2 ^ 53 in
  let r := run (handle toy_image) (allocate_image "d.img" size_mb) store_with_image in
  0 < size_mb /\
  files store_with_image !! "d.img"%string = Some (bytes_of "old content") /\
  outcome_of r = Raised (Exc too_large) /\
  files (final_of r) !! "d.img"%string = Some [] /\
  printed (trace_of r) = [].
Proof. vm_compute. repeat split. Qed.

End StoreClaims.

(* ===================================================================== *)
(** * [run_cmd]: what it returns and what it prints *)
(* ===================================================================== *)

Module RunCmdFacts.

Import Py DiskWithInit Worlds.

(** The two lines that [run_cmd] prints when it catches an exception
    whose message is [msg]. *)
Definition caught_lines (cmd : command) (msg : string) : list string :=
  [("[!] Error running command: " ++ shell_line cmd)%string;
   ("[!] Exception: " ++ msg)%string].

(** The message of the [CalledProcessError] that [check=True] raises for
    a positive exit status. *)
Definition called_process_error (cmd : command) (status : Z) : string :=
  ("Command '" ++ shell_line cmd ++ "' returned non-zero exit status "
   ++ str_of_int status ++ ".")%string.

(** What [run_cmd] does with one answer of [subprocess.run]: the triple
    it returns and the lines it prints. *)
Inductive handled (cmd : command) (check : bool)
    (ans : result completed) (ret : Z * string * string) (lines : list string) : Prop :=
| passed_on (cp : completed) :
    ans = inr cp ->
    check && negb (returncode cp =? 0)%Z = false ->
    ret = (returncode cp, stdout cp, stderr cp) ->
    lines = [] ->
    handled cmd check ans ret lines
| caught (msg : string) :
    ret = (1, ""%string, msg) ->
    lines = caught_lines cmd msg ->
    (match ans with
     | inl e => msg = err_msg e
     | inr cp => check = true /\ returncode cp <> 0 /\
                 msg = called_process_message (shell_line cmd) (returncode cp)
     end) ->
    handled cmd check ans ret lines.

Lemma run_cmd_spec (cmd : command) (check : bool) :
  wp (run_cmd cmd check)
     (fun t o => exists ans ret,
        o = Returned ret /\
        commands t = [(cmd, ans)] /\
        handled cmd check ans ret (printed t)).
Proof.
  unfold run_cmd, subprocess_run. intros [e | cp]; simpl.
  - intros [] []. exists (inl e), (1, ""%string, err_msg e).
    split; [reflexivity |]. split; [reflexivity |].
    eapply caught; reflexivity.
  - destruct (check && negb (returncode cp =? 0)%Z) eqn:Hc; simpl.
    + intros [] []. exists (inr cp),
        (1, ""%string, called_process_message (shell_line cmd) (returncode cp)).
      split; [reflexivity |]. split; [reflexivity |].
      eapply caught; [reflexivity | reflexivity |].
      apply andb_prop in Hc as [-> Hne]. split; [reflexivity |]. split; [| reflexivity].
      intros Heq. rewrite Heq in Hne. discriminate Hne.
    + exists (inr cp), (returncode cp, stdout cp, stderr cp).
      split; [reflexivity |]. split; [reflexivity |].
      eapply passed_on; eauto.
Qed.

(** X1: [run_cmd] never raises, with or without [check].  It makes one
    [subprocess.run] call, for the command it was given, and returns a
    triple.  Either it passes on the status, output and error text of the
    process and prints nothing, or it caught an exception (one raised by
    [subprocess.run], or the [CalledProcessError] of [check=True]): it
    then prints two lines and returns status 1, no output, and the
    message of the exception as error text; for a [CalledProcessError]
    that is the text with the exit status, or with the signal when the
    status is negative. *)
Theorem run_cmd_never_raises {W : Type} (handle : world W) (w : W)
    (cmd : command) (check : bool) :
  let r := run handle (run_cmd cmd check) w in
  exists ans ret,
    outcome_of r = Returned ret /\
    commands (trace_of r) = [(cmd, ans)] /\
    handled cmd check ans ret (printed (trace_of r)).
Proof. apply (wp_run _ _ (run_cmd_spec cmd check)). Qed.

(** X2: with [check=True] (the default of [run_cmd]), a command that
    exits with a positive status is reported as status 1, whatever its
    status was; its output and its error text are dropped, the error
    text returned is the message of the [CalledProcessError]. *)
Theorem run_cmd_check_hides_status_and_stderr {W : Type} (handle : world W) (w : W)
    (cmd : command) (cp : completed) :
  (handle _ (SubprocessRun cmd) w).1 = inr cp ->
  0 < returncode cp ->
  let r := run handle (run_cmd cmd true) w in
  outcome_of r = Returned (1, ""%string, called_process_error cmd (returncode cp)) /\
  printed (trace_of r)
  = caught_lines cmd (called_process_error cmd (returncode cp)).
Proof.
  intros Hans Hpos r.
  pose proof (wp_run _ _ (run_cmd_spec cmd true) W handle w) as (ans & ret & Ho & Hc & Hh).
  fold r in Ho, Hc, Hh.
  assert (Hans' : ans = inr cp).
  { subst r. unfold run_cmd, subprocess_run in Hc. simpl in Hc.
    destruct (handle (result completed) (SubprocessRun cmd) w) as [x w1].
    simpl in Hans. subst x.
    destruct (run handle _ w1) as [[t o] w2]. simpl in Hc. congruence. }
  subst ans. destruct Hh as [cp' Hcp Hchk -> _ | msg -> Hlines Hmsg].
  - injection Hcp as <-. simpl in Hchk.
    destruct (returncode cp =? 0)%Z eqn:Hz; [| discriminate Hchk].
    apply Z.eqb_eq in Hz. lia.
  - destruct Hmsg as (_ & _ & ->).
    assert (Hmsg : called_process_message (shell_line cmd) (returncode cp)
                   = called_process_error cmd (returncode cp)).
    { unfold called_process_message, called_process_error.
      destruct (returncode cp <? 0)%Z eqn:Hneg; [| reflexivity].
      apply Z.ltb_lt in Hneg. lia. }
    rewrite <- Hmsg. split; assumption.
Qed.

(** X2, witness: [losetup -f] exits with status 1 and an error text. *)
Lemma run_cmd_check_hides_status_and_stderr_witness :
  let r := run no_loop_device (run_cmd Losetup_find true) tt in
  outcome_of r
  = Returned (1, ""%string,
              "Command 'losetup -f' returned non-zero exit status 1."%string).
Proof.
  apply (run_cmd_check_hides_status_and_stderr no_loop_device tt Losetup_find
           (Completed 1 "" "losetup: cannot find an unused loop device")).
  - reflexivity.
  - reflexivity.
Defined.

End RunCmdFacts.


(* ===================================================================== *)
(** * The pipeline: partitioning, the loop device, the volume *)
(* ===================================================================== *)

Module DiskRuns.

Import Py DiskWithInit DiskLogic Pipeline DiskClaims Worlds.

(** ** Partitioning (lines 43-57) *)

(** What the run prints for one command: the two lines of [run_cmd]
    when [subprocess.run] raised, and for [mklabel] and [mkpart] the
    report of a failure (a status other than 0, or that exception). *)
Definition caught_of (c : command) (r : result completed) : list string :=
  match r with
  | inl e => RunCmdFacts.caught_lines c (err_msg e)
  | inr _ => []
  end.

Definition report_of (what : string) (r : result completed) : list string :=
  if succeeded r then [] else [("[!] parted " ++ what ++ " failed: " ++ errors_of r)%string].

(** All that the partitioning prints. *)
Definition partition_lines (image : string) (r1 r2 r3 : result completed) : list string :=
  ["[*] Creating MBR partition table..."%string]
  ++ caught_of (Parted_mklabel image) r1 ++ report_of "mklabel" r1
  ++ ["[*] Creating FAT32 partition..."%string]
  ++ caught_of (Parted_mkpart image) r2 ++ report_of "mkpart" r2
  ++ ["[*] Formatting partition as FAT32..."%string]
  ++ caught_of (Parted_set_boot image) r3.

Lemma printed_log c r : printed (RunCmd.log c r) = caught_of c r.
Proof. destruct r; reflexivity. Qed.

Lemma write_partition_table_reports image :
  wp (write_partition_table image)
     (fun t o =>
        o = Returned tt /\
        exists r1 r2 r3,
          commands t = partition_commands image r1 r2 r3 /\
          printed t = partition_lines image r1 r2 r3).
Proof.
  unfold write_partition_table. wp_calls.
  wp_run_cmd. wp_when_print. wp_calls.
  wp_run_cmd. wp_when_print. wp_calls.
  wp_run_cmd. wp_calls.
  split; [reflexivity |]. exists r, r0, r1. split; [observe; reflexivity |].
  unfold partition_lines, report_of, succeeded, maybe_print.
  cbn [printed printed_of app].
  repeat (rewrite ?printed_app, ?printed_log; cbn [printed printed_of app]).
  rewrite app_nil_r.
  destruct (exit_status r =? 0)%Z, (exit_status r0 =? 0)%Z; cbn [negb printed printed_of app];
    repeat (rewrite <- ?app_assoc; cbn [app]); reflexivity.
Qed.

(** X3: the partitioning never raises and never stops the run: the
    three [parted] commands are issued in order whatever each of them
    answers, and what is printed is fixed by their answers.  A failure
    of [mklabel] or of [mkpart] is reported with the error text of the
    command.  For [set 1 boot on] the status and the error text are
    dropped: a failing exit status prints nothing, and only when
    [subprocess.run] itself raises does [run_cmd] print its two lines,
    as it does for each of the three commands. *)
Theorem parted_failures_do_not_stop_the_run {W : Type} (handle : world W) (w : W)
    (image : string) :
  let r := run handle (write_partition_table image) w in
  outcome_of r = Returned tt /\
  exists r1 r2 r3,
    commands (trace_of r) = partition_commands image r1 r2 r3 /\
    printed (trace_of r) = partition_lines image r1 r2 r3.
Proof. apply (wp_run _ _ (write_partition_table_reports image)). Qed.

(** ** The loop device (lines 59-71) *)

Lemma rstrip_idempotent (s : string) : rstrip (rstrip s) = rstrip s.
Proof.
  induction s as [| c s IH]; [reflexivity |].
  cbn [rstrip]. destruct (rstrip s) as [| d r] eqn:Hr.
  - destruct (is_space c) eqn:Hc; [reflexivity |].
    cbn [rstrip]. rewrite Hc. reflexivity.
  - cbn [rstrip]. cbn [rstrip] in IH. rewrite IH. reflexivity.
Qed.

Lemma lstrip_head (s : string) :
  match lstrip s with
  | EmptyString => True
  | String c _ => is_space c = false
  end.
Proof.
  induction s as [| c s IH]; [exact I |].
  cbn [lstrip]. destruct (is_space c) eqn:Hc; [exact IH | exact Hc].
Qed.

Lemma lstrip_rstrip (s : string) :
  match s with
  | EmptyString => True
  | String c _ => is_space c = false
  end ->
  lstrip (rstrip s) = rstrip s.
Proof.
  destruct s as [| c s]; [reflexivity |]. intros Hc. cbn [rstrip].
  destruct (rstrip s); rewrite ?Hc; cbn [lstrip]; rewrite Hc; reflexivity.
Qed.

(** [s.strip().strip() == s.strip()] *)
Lemma strip_idempotent (s : string) : strip (strip s) = strip s.
Proof.
  unfold strip. rewrite (lstrip_rstrip _ (lstrip_head s)). apply rstrip_idempotent.
Qed.

(** X4: the search for a loop device never raises.  [losetup -f] is
    asked if and only if [losetup -f --show] failed; the name returned
    is the output of the query that succeeded, stripped, so that no
    leading or trailing blank (the newline that ends the output of
    [losetup]) gets into the commands built from it. *)
Theorem loop_device_name_is_stripped {W : Type} (handle : world W) (w : W)
    (image : string) :
  let r := run handle (attach_loop image) w in
  exists rs fallback,
    commands (trace_of r) = attach_commands image rs fallback /\
    (fallback = None <-> succeeded rs = true) /\
    outcome_of r = Returned (resolved rs fallback) /\
    match resolved rs fallback with
    | Some dev => strip dev = dev
    | None => True
    end.
Proof.
  intros r.
  pose proof (wp_run _ _ (attach_loop_spec image) W handle w)
    as (_ & rs & fallback & Hfb & Hc & Ho).
  fold r in Hc, Ho. exists rs, fallback.
  split; [exact Hc |]. split; [symmetry; exact Hfb |]. split; [exact Ho |].
  unfold resolved. destruct (succeeded rs); [apply strip_idempotent |].
  destruct fallback as [r' |]; [| exact I].
  destruct (succeeded r'); [apply strip_idempotent | exact I].
Qed.


(** ** The volume and the loop device (lines 79-96, 156, 162) *)

(** Every existence check of the partition node of [dev] answered
    [True]. *)
Definition partition_node_found (dev : string) (t : list event) : bool :=
  forallb (fun check => negb (String.eqb check.1 (dev ++ "p1")) || check.2)
          (path_checks t).

(** The device that a command formats, mounts or unmounts. *)
Definition volume_of (c : command) : option string :=
  match c with
  | Mkfs_fat dev | Mkfs_vfat dev | Mount dev _ | Umount dev => Some dev
  | _ => None
  end.

(** The device that a command detaches. *)
Definition detached_of (c : command) : option string :=
  match c with
  | Losetup_detach dev => Some dev
  | _ => None
  end.

(** The commands of the mount block and of the detaching. *)
Lemma teardown_cases partition_dev kernel_path init_bin_path tm om dev
    (detach : list (command * result completed)) :
  mount_shape partition_dev kernel_path init_bin_path tm om ->
  match om with
  | Returned _ => (exists rd, detach = [(Losetup_detach dev, rd)]) /\ True
  | Raised e => detach = [] /\ True
  end ->
  (detach = [] \/ exists rd, detach = [(Losetup_detach dev, rd)]) /\
  (commands tm = [] \/
   (exists m rm, commands tm = [(Mount partition_dev m, rm)]) \/
   (exists m rm ru, commands tm = [(Mount partition_dev m, rm);
                                   (Umount partition_dev, ru)])).
Proof.
  intros Hm Hd. split.
  - destruct om; [right | left]; tauto.
  - destruct Hm as [e -> _ | m rm _ Hcm _ _ | m rm ru _ Hcm _ _]; eauto 6.
Qed.

(** X5: when the loop device [dev] has a partition node (every
    existence check of [dev ++ "p1"] in the run answers [True]), the
    node is the volume: [mkfs.fat] runs on it, and every formatting,
    mount and unmount command of the run names [dev ++ "p1"]; the
    detaching names the loop device [dev] itself. *)
Theorem partition_node_is_the_volume {W : Type} (handle : world W) (w : W)
    image size_mb kernel_path init_bin_path :
  let t := trace_of (run handle
                       (create_fat32_disk image size_mb kernel_path init_bin_path) w) in
  forall dev : string,
    loop_device (commands t) = Some dev ->
    truthy dev = true ->
    partition_node_found dev t = true ->
    (exists rf, In (Mkfs_fat (dev ++ "p1"), rf) (commands t)) /\
    (forall c r d, In (c, r) (commands t) -> volume_of c = Some d ->
                   d = (dev ++ "p1")%string) /\
    (forall c r d, In (c, r) (commands t) -> detached_of c = Some d -> d = dev).
Proof.
  intros t dev Hdev Htruthy Hfound. subst t.
  destruct (run_shape handle w image size_mb kernel_path init_bin_path)
    as [e Hc _ _ _ | r1 r2 r3 r fb Hfb Hnone Hc _ _
        | r1 r2 r3 r fb dev' found rf retry tb tm ta om det
            Hfb Hres _ Hcheck _ _ Hm Ht Hb _ Ha _ _ Hdet].
  - rewrite Hc in Hdev. discriminate Hdev.
  - rewrite Hc, <- (app_nil_r (attach_commands _ _ _)) in Hdev.
    rewrite (loop_device_resolved _ _ _ _ _ _ _ Hfb) in Hdev.
    rewrite Hdev in Hnone. congruence.
  - assert (Hcases := teardown_cases _ _ _ _ _ dev' det Hm).
    destruct Hcases as [Hdetach Hcm].
    { destruct om; split; tauto. }
    assert (dev' = dev) as ->.
    { rewrite Ht, !commands_app, Hb, <- !app_assoc in Hdev.
      rewrite (loop_device_resolved _ _ _ _ _ _ _ Hfb) in Hdev. congruence. }
    assert (found = true) as ->.
    { unfold partition_node_found in Hfound.
      rewrite Ht, !path_checks_app, !forallb_app in Hfound.
      apply andb_prop in Hfound as [Hfound _].
      rewrite forallb_forall in Hfound. specialize (Hfound _ Hcheck).
      cbn [fst snd] in Hfound. rewrite String.eqb_refl in Hfound.
      destruct found; [reflexivity | discriminate Hfound]. }
    unfold target in *. rewrite Ht, !commands_app, Hb, Ha. clear Ha Hb.
    split; [| split].
    + exists rf. apply in_or_app. left.
      apply in_or_app. right. apply in_or_app. right. left. reflexivity.
    + intros c r' d Hin Hd.
      destruct fb, retry, Hdetach as [Hdt | [rd Hdt]],
        Hcm as [Hcm | [(m & rm & Hcm) | (m & rm & ru & Hcm)]];
        rewrite Hdt, Hcm in Hin; in_cases Hin; subst; simpl in Hd;
        try discriminate Hd; injection Hd as <-; reflexivity.
    + intros c r' d Hin Hd.
      destruct fb, retry, Hdetach as [Hdt | [rd Hdt]],
        Hcm as [Hcm | [(m & rm & Hcm) | (m & rm & ru & Hcm)]];
        rewrite Hdt, Hcm in Hin; in_cases Hin; subst; simpl in Hd;
        try discriminate Hd; injection Hd as <-; reflexivity.
Qed.

(** X5, witness: a machine where every path exists. *)
Lemma partition_node_is_the_volume_witness :
  let t := trace_of (run fine (create_fat32_disk "disk.img" 0 "bzImage" "init.bin") tt) in
  (exists rf, In (Mkfs_fat "/dev/loop0p1", rf) (commands t)) /\
  List.filter (fun cr => bool_decide (is_Some (volume_of cr.1))) (commands t)
  = [(Mkfs_fat "/dev/loop0p1", inr (Completed 0 "" ""));
     (Mount "/dev/loop0p1" "/tmp/tmpark", inr (Completed 0 "" ""));
     (Umount "/dev/loop0p1", inr (Completed 0 "" ""))]%string.
Proof.
  split; [| vm_compute; reflexivity].
  apply (partition_node_is_the_volume fine tt "disk.img" 0 "bzImage" "init.bin"
           "/dev/loop0"); vm_compute; reflexivity.
Defined.

(** ** The result of the run (lines 73-75, 162-164, 187-197) *)

(** X6: success needs a loop device.  [create_fat32_disk] returns
    [True] only when a loop-device name was obtained, and [main] returns
    normally only then.  When the function returns [False], the run has
    issued the three [parted] commands and the one or two [losetup]
    queries and nothing else: nothing was formatted, mounted, staged or
    detached. *)
Theorem success_needs_loop_device {W : Type} (handle : world W) (w : W)
    image size_mb kernel_path init_bin_path (argv : list string) :
  let r := run handle (create_fat32_disk image size_mb kernel_path init_bin_path) w in
  let m := run handle (main argv) w in
  (outcome_of r = Returned true -> device_named (trace_of r) = true) /\
  (outcome_of r = Returned false ->
   stage_calls (trace_of r) = [] /\
   exists r1 r2 r3 rs fallback,
     commands (trace_of r)
     = partition_commands image r1 r2 r3 ++ attach_commands image rs fallback) /\
  (outcome_of m = Returned tt -> device_named (trace_of m) = true).
Proof.
  intros r m.
  assert (Hnamed : forall img k i t,
            shape img k i t (Returned true) -> device_named t = true).
  { intros img k i t [e _ _ _ Ho | r1 r2 r3 rs fb _ _ _ _ Ho
                      | r1 r2 r3 rs fb dev found rf retry tb tm ta om det
                          Hfb Hres Htruthy _ _ _ _ Ht Hb _ _ _ _ _];
      try discriminate Ho.
    unfold device_named. rewrite Ht, !commands_app, Hb, <- !app_assoc.
    rewrite (loop_device_resolved _ _ _ _ _ _ _ Hfb), Hres. exact Htruthy. }
  split; [| split].
  - intros Ho. apply (Hnamed image kernel_path init_bin_path).
    rewrite <- Ho. apply run_shape.
  - intros Ho.
    pose proof (run_shape handle w image size_mb kernel_path init_bin_path) as Hs.
    cbv zeta in Hs. fold r in Hs. rewrite Ho in Hs.
    destruct Hs as [e _ _ _ He | r1 r2 r3 rs fb _ _ Hc Hst _
                    | r1 r2 r3 rs fb dev found rf retry tb tm ta om det
                        _ _ _ _ _ _ _ _ _ _ _ _ _ Hdet].
    + discriminate He.
    + split; [exact Hst | eauto 6].
    + destruct om; [destruct Hdet as [_ Hd] | destruct Hdet as [_ Hd]]; discriminate Hd.
  - intros Ho. pose proof (main_run_shape handle w argv) as Hs.
    cbv zeta in Hs. fold m in Hs. rewrite Ho in Hs.
    destruct Hs as [_ [e He] | a0 k i img rest tb td ta od _ Ht Hsd Hb Ha Hod].
    + discriminate He.
    + unfold device_named. rewrite Ht, !commands_app, Hb, Ha, app_nil_r. cbn [app].
      apply (Hnamed img k i). destruct od as [[|] | e]; [exact Hsd | |]; discriminate Hod.
Qed.

(** X6, witness: no loop device can be had. *)
Lemma success_needs_loop_device_witness :
  let r := run no_loop_device (create_fat32_disk "disk.img" 0 "bzImage" "init.bin") tt in
  outcome_of r = Returned false /\
  stage_calls (trace_of r) = [] /\
  List.length (commands (trace_of r)) = 5%nat.
Proof.
  split; [vm_compute; reflexivity |]. split; [| vm_compute; reflexivity].
  apply (success_needs_loop_device no_loop_device tt "disk.img" 0 "bzImage" "init.bin" []).
  vm_compute. reflexivity.
Defined.

(** The image cannot be attached, but a free loop device is named. *)
Definition attach_fails : world unit :=
  scripted (fun X op =>
    match op in os_op X return option X with
    | SubprocessRun (Losetup_show _) =>
        Some (inr (Completed 1 "" "losetup: disk.img: failed to set up loop device"))
    | _ => None
    end).

(** X7: when [losetup -f --show] fails and [losetup -f] names a free
    device, the pipeline goes on with that device although no command
    of the run attached the image to it: [mkfs.fat] runs on the device
    (or on its partition node), and when no call raises the function
    returns [True] after detaching the device. *)
Theorem fallback_device_is_used_unattached {W : Type} (handle : world W) (w : W)
    image size_mb kernel_path init_bin_path :
  let r := run handle (create_fat32_disk image size_mb kernel_path init_bin_path) w in
  let t := trace_of r in
  forall dev : string,
    attached_handle t = None ->
    loop_device (commands t) = Some dev ->
    truthy dev = true ->
    (exists rs, In (Losetup_find, rs) (commands t) /\
                succeeded rs = true /\ dev = strip (output_of rs)) /\
    (exists found rf, In (Mkfs_fat (target dev found), rf) (commands t)) /\
    (no_exception t = true ->
     outcome_of r = Returned true /\
     exists rd, In (Losetup_detach dev, rd) (commands t)).
Proof.
  intros r t dev Hnone Hdev Htruthy. subst t.
  pose proof (run_shape handle w image size_mb kernel_path init_bin_path) as Hs.
  cbv zeta in Hs. fold r in Hs.
  destruct Hs as [e Hc _ _ _ | r1 r2 r3 rs fb Hfb Hno Hc _ _
                  | r1 r2 r3 rs fb dev' found rf retry tb tm ta om det
                      Hfb Hres _ _ _ _ Hm Ht Hb _ Ha _ Hqa Hdet].
  - rewrite Hc in Hdev. discriminate Hdev.
  - rewrite Hc, <- (app_nil_r (attach_commands _ _ _)) in Hdev.
    rewrite (loop_device_resolved _ _ _ _ _ _ _ Hfb) in Hdev.
    rewrite Hdev in Hno. congruence.
  - assert (dev' = dev) as ->.
    { rewrite Ht, !commands_app, Hb, <- !app_assoc in Hdev.
      rewrite (loop_device_resolved _ _ _ _ _ _ _ Hfb) in Hdev. congruence. }
    assert (Hshow : succeeded rs = false).
    { unfold attached_handle in Hnone. rewrite Ht, !commands_app, Hb in Hnone.
      cbn [partition_commands attach_commands app List.find is_attach fst] in Hnone.
      destruct (succeeded rs); [discriminate Hnone | reflexivity]. }
    unfold resolved in Hres. rewrite Hshow in Hres.
    destruct fb as [rs' |]; [| discriminate Hres].
    destruct (succeeded rs') eqn:Hfind; [| discriminate Hres].
    injection Hres as Hres.
    rewrite Ht, !commands_app, Hb, Ha.
    split; [| split].
    + exists rs'. split; [| split; [exact Hfind | symmetry; exact Hres]].
      apply in_or_app. left. apply in_or_app. right. apply in_or_app. left.
      right. left. reflexivity.
    + exists found, rf. apply in_or_app. left.
      apply in_or_app. right. apply in_or_app. right. left. reflexivity.
    + rewrite !no_exception_app. intros [_ [Hqm _]%andb_prop]%andb_prop.
      assert (om = Returned tt) as ->.
      { destruct Hm as [e Htm _ | m rm _ _ _ Hret | m rm ru _ _ _ Hret]; auto.
        rewrite Htm in Hqm. discriminate Hqm. }
      destruct Hdet as [[rd ->] Ho]. split; [exact Ho |].
      exists rd. apply in_or_app. right. apply in_or_app. right. left. reflexivity.
Qed.

(** X7, witness *)
Lemma fallback_device_is_used_unattached_witness :
  let r := run attach_fails (create_fat32_disk "disk.img" 0 "bzImage" "init.bin") tt in
  attached_handle (trace_of r) = None /\
  loop_device (commands (trace_of r)) = Some "/dev/loop1"%string /\
  no_exception (trace_of r) = true /\
  outcome_of r = Returned true.
Proof.
  split; [vm_compute; reflexivity |]. split; [vm_compute; reflexivity |].
  split; [vm_compute; reflexivity |].
  apply (fallback_device_is_used_unattached attach_fails tt
           "disk.img" 0 "bzImage" "init.bin" "/dev/loop1");
    vm_compute; reflexivity.
Defined.

End DiskRuns.


(* ===================================================================== *)
(** * The pipeline: what every run releases, and what it copies *)
(* ===================================================================== *)

Module DiskFrame.

Import Py DiskWithInit DiskLogic.

(** Events of the blocks around the allocation and the mount: prints,
    commands, and the existence check of the partition node. *)
Definition is_probe (ev : event) : Prop :=
  match ev with
  | @Ev X op ans =>
      match op with
      | Print _ | SubprocessRun _ | PathExists _ => True
      | _ => False
      end
  end.

Lemma shell_probe t : Forall is_shell t -> Forall is_probe t.
Proof.
  intros H. eapply Forall_impl; [exact H |].
  intros [X op ans] Hev. destruct op; simpl in *; auto.
Qed.

(** A run of [create_fat32_disk] is made of the allocation, of the mount
    block when a device was named, and around them of prints, commands
    and existence checks; what the mount block raises ends the run. *)
Definition framed (Qa Qm : list event -> outcome unit -> Prop) (t : list event)
    (o : outcome bool) : Prop :=
  exists ta oa ts tm ts',
    t = ta ++ ts ++ tm ++ ts' /\
    Qa ta oa /\ Forall is_probe ts /\ Forall is_probe ts' /\
    (tm = [] \/ exists om, Qm tm om /\ forall e, om = Raised e -> o = Raised e).

Lemma create_fat32_disk_frame image size_mb kernel_path init_bin_path
    (Qa Qm : list event -> outcome unit -> Prop) :
  wp (allocate_image image size_mb) Qa ->
  (forall dev, wp (mount_and_stage dev kernel_path init_bin_path) Qm) ->
  wp (create_fat32_disk image size_mb kernel_path init_bin_path)
     (fun t o => exists line rest,
                 t = Ev (Print line) tt :: rest /\ framed Qa Qm rest o).
Proof.
  intros Ha Hm. unfold create_fat32_disk. wp_calls.
  apply wp_bind. eapply wp_conseq; [apply Ha |]. intros ta oa Hta.
  destruct oa as [[] | e]; cbn beta iota.
  2:{ eexists. eexists. split; [reflexivity |].
      exists ta, (Raised e), [], [], []. rewrite !app_nil_r. auto 10. }
  wp_block write_partition_table_spec. intros tp op (-> & Hcp & _).
  wp_block attach_loop_spec. intros tl ol (Hcl & r & fallback & _ & _ & ->).
  apply shell_probe in Hcp, Hcl.
  assert (Hnone : forall line (o : outcome bool),
            exists banner rest,
              Ev (Print ("[*] Creating " ++ str_of_int size_mb
                         ++ "MB FAT32 disk image: " ++ image)%string) tt
              :: ta ++ tp ++ tl ++ [Ev (Print line) tt]
              = Ev (Print banner) tt :: rest /\
              framed Qa Qm rest o).
  { intros line o. eexists. eexists. split; [reflexivity |].
    exists ta, (Returned tt), (tp ++ tl ++ [Ev (Print line) tt]), [], [].
    rewrite !app_nil_r. repeat split; auto.
    repeat (apply Forall_app; split; auto). repeat constructor. }
  destruct (resolved r fallback) as [dev |]; [destruct (truthy dev) |].
  2, 3: wp_calls; apply Hnone.
  wp_calls. unfold resolve_partition. wp_calls.
  assert (Hrest : forall partition_dev,
            wp (format_partition partition_dev ;;
                mount_and_stage partition_dev kernel_path init_bin_path ;;
                run_cmd (Losetup_detach dev) false ;; Ret true)
               (fun t o =>
                  exists banner rest,
                    Ev (Print ("[*] Creating " ++ str_of_int size_mb
                               ++ "MB FAT32 disk image: " ++ image)%string) tt
                    :: ta ++ tp ++ tl
                    ++ Ev (Print ("[+] Using loop device: " ++ dev)%string) tt
                    :: Ev (PathExists (dev ++ "p1")%string) x :: t
                    = Ev (Print banner) tt :: rest /\
                    framed Qa Qm rest o)).
  2:{ destruct x; apply Hrest. }
  intros partition_dev.
  wp_block format_partition_spec. intros tf of_ (-> & Hcf & _).
  apply shell_probe in Hcf.
  apply wp_bind. eapply wp_conseq; [apply (Hm partition_dev) |]. intros tm om Htm.
  set (before := tp ++ tl ++ Ev (Print ("[+] Using loop device: " ++ dev)%string) tt
                 :: Ev (PathExists (dev ++ "p1")%string) x :: tf).
  assert (Hbefore : Forall is_probe before).
  { unfold before. repeat (apply Forall_app; split; auto). repeat constructor. exact Hcf. }
  destruct om as [[] | e]; cbn beta iota.
  - wp_run_cmd. wp_calls.
    eexists. eexists. split; [reflexivity |].
    exists ta, (Returned tt), before, tm,
      (Ev (SubprocessRun (Losetup_detach dev)) r0 :: RunCmd.log (Losetup_detach dev) r0).
    split; [| split; [exact Hta | split; [exact Hbefore | split]]].
    + unfold before. rewrite app_nil_r.
      repeat (rewrite <- ?app_assoc; cbn [app]). reflexivity.
    + constructor; [exact I |]. apply shell_probe, log_shell.
    + right. exists (Returned tt). split; [exact Htm | discriminate].
  - eexists. eexists. split; [reflexivity |].
    exists ta, (Returned tt), before, tm, [].
    split; [| split; [exact Hta | split; [exact Hbefore | split; [constructor |]]]].
    + unfold before. rewrite app_nil_r. repeat (rewrite <- ?app_assoc; cbn [app]).
      reflexivity.
    + right. exists (Raised e). split; [exact Htm |]. intros e' He.
      injection He as <-. reflexivity.
Qed.

End DiskFrame.


Module DiskCleanup.

Import Py DiskWithInit DiskLogic DiskFrame.

(** ** Observers *)

(** The temporary directories that were created, and the trees that
    were removed. *)
Definition temp_dir_of (ev : event) : option string :=
  match ev with
  | @Ev X op ans =>
      match op in os_op X return X -> option string with
      | MkDTemp => fun r => match r with inr dir => Some dir | inl _ => None end
      | _ => fun _ => None
      end ans
  end.

Definition removed_tree_of (ev : event) : option string :=
  match ev with
  | @Ev X op ans =>
      match op in os_op X return option string with
      | RmTree path => Some path
      | _ => None
      end
  end.

Definition temp_dirs (t : list event) : list string := collect temp_dir_of t.
Definition removed_trees (t : list event) : list string := collect removed_tree_of t.

(** The removals that raised, with what they raised. *)
Definition failed_removal_of (ev : event) : option (string * py_error) :=
  match ev with
  | @Ev X op ans =>
      match op in os_op X return X -> option (string * py_error) with
      | RmTree path => fun r => match r with inl e => Some (path, e) | inr _ => None end
      | _ => fun _ => None
      end ans
  end.

Definition failed_removals (t : list event) : list (string * py_error) :=
  collect failed_removal_of t.

(** The files that were opened for writing, and the files that were
    closed. *)
Definition opened_file_of (ev : event) : option string :=
  match ev with
  | @Ev X op ans =>
      match op in os_op X return X -> option string with
      | OpenW path _ => fun r => match r with inr _ => Some path | inl _ => None end
      | _ => fun _ => None
      end ans
  end.

Definition closed_file_of (ev : event) : option string :=
  match ev with
  | @Ev X op ans =>
      match op in os_op X return option string with
      | FClose path => Some path
      | _ => None
      end
  end.

Definition opened_files (t : list event) : list string := collect opened_file_of t.
Definition closed_files (t : list event) : list string := collect closed_file_of t.

(** The path that an existence check found, the source of a copy. *)
Definition found_of (ev : event) : option string :=
  match path_check_of ev with
  | Some (path, true) => Some path
  | _ => None
  end.

Definition copy_source_of (ev : event) : option string :=
  match stage_call_of ev with
  | Some (Copy src _) => Some src
  | _ => None
  end.

(** Every copy of the trace has a source that is in [seen] or that an
    earlier existence check of the trace found. *)
Fixpoint copies_checked (seen : list string) (t : list event) : bool :=
  match t with
  | [] => true
  | ev :: rest =>
      match copy_source_of ev with
      | Some src => existsb (String.eqb src) seen
      | None => true
      end
      && copies_checked (match found_of ev with
                         | Some path => path :: seen
                         | None => seen
                         end) rest
  end.

(** ** Classes of events and the observers *)

(** The events of a block that opens no file, creates and removes no
    directory, and checks and copies nothing. *)
Definition is_quiet (ev : event) : Prop :=
  match ev with
  | @Ev X op ans =>
      match op with
      | Print _ | SubprocessRun _ | RelPath _ _ | GetSize _ => True
      | _ => False
      end
  end.

Lemma shell_quiet t : Forall is_shell t -> Forall is_quiet t.
Proof.
  intros H. eapply Forall_impl; [exact H |].
  intros [X op ans] Hev. destruct op; simpl in *; auto.
Qed.

Lemma listing_quiet t : Forall is_listing t -> Forall is_quiet t.
Proof.
  intros H. eapply Forall_impl; [exact H |].
  intros [X op ans] Hev. destruct op; simpl in *; auto.
Qed.

Lemma log_quiet c r : Forall is_quiet (RunCmd.log c r).
Proof. apply shell_quiet, log_shell. Qed.

Lemma quiet_opened t : Forall is_quiet t -> opened_files t = [].
Proof.
  intros H. apply (collect_none _ _ _ H).
  intros [X op ans] Hev. destruct op; simpl in Hev; try contradiction; reflexivity.
Qed.

Lemma quiet_closed t : Forall is_quiet t -> closed_files t = [].
Proof.
  intros H. apply (collect_none _ _ _ H).
  intros [X op ans] Hev. destruct op; simpl in Hev; try contradiction; reflexivity.
Qed.

Lemma quiet_copies seen t rest :
  Forall is_quiet t -> copies_checked seen (t ++ rest) = copies_checked seen rest.
Proof.
  intros H. revert seen. induction H as [| ev t Hev _ IH]; intros seen; [reflexivity |].
  destruct ev as [X op ans].
  destruct op; simpl in Hev; try contradiction; cbn [app copies_checked]; apply IH.
Qed.

Lemma probe_temp_dirs t : Forall is_probe t -> temp_dirs t = [].
Proof.
  intros H. apply (collect_none _ _ _ H).
  intros [X op ans] Hev. destruct op; simpl in Hev; try contradiction; reflexivity.
Qed.

Lemma probe_removed t : Forall is_probe t -> removed_trees t = [].
Proof.
  intros H. apply (collect_none _ _ _ H).
  intros [X op ans] Hev. destruct op; simpl in Hev; try contradiction; reflexivity.
Qed.

Lemma probe_opened t : Forall is_probe t -> opened_files t = [].
Proof.
  intros H. apply (collect_none _ _ _ H).
  intros [X op ans] Hev. destruct op; simpl in Hev; try contradiction; reflexivity.
Qed.

Lemma probe_closed t : Forall is_probe t -> closed_files t = [].
Proof.
  intros H. apply (collect_none _ _ _ H).
  intros [X op ans] Hev. destruct op; simpl in Hev; try contradiction; reflexivity.
Qed.

Lemma staging_temp_dirs t : Forall is_staging t -> temp_dirs t = [].
Proof.
  intros H. apply (collect_none _ _ _ H).
  intros [X op ans] Hev. destruct op; simpl in Hev; try contradiction; reflexivity.
Qed.

Lemma staging_removed t : Forall is_staging t -> removed_trees t = [].
Proof.
  intros H. apply (collect_none _ _ _ H).
  intros [X op ans] Hev. destruct op; simpl in Hev; try contradiction; reflexivity.
Qed.

Lemma alloc_temp_dirs t : Forall is_alloc t -> temp_dirs t = [].
Proof.
  intros H. apply (collect_none _ _ _ H).
  intros [X op ans] Hev. destruct op; simpl in Hev; try contradiction; reflexivity.
Qed.

Lemma alloc_removed t : Forall is_alloc t -> removed_trees t = [].
Proof.
  intros H. apply (collect_none _ _ _ H).
  intros [X op ans] Hev. destruct op; simpl in Hev; try contradiction; reflexivity.
Qed.

Lemma probe_failed t : Forall is_probe t -> failed_removals t = [].
Proof.
  intros H. apply (collect_none _ _ _ H).
  intros [X op ans] Hev. destruct op; simpl in Hev; try contradiction; reflexivity.
Qed.

Lemma staging_failed t : Forall is_staging t -> failed_removals t = [].
Proof.
  intros H. apply (collect_none _ _ _ H).
  intros [X op ans] Hev. destruct op; simpl in Hev; try contradiction; reflexivity.
Qed.

Lemma alloc_failed t : Forall is_alloc t -> failed_removals t = [].
Proof.
  intros H. apply (collect_none _ _ _ H).
  intros [X op ans] Hev. destruct op; simpl in Hev; try contradiction; reflexivity.
Qed.

(** An event that is no copy. *)
Definition copies_nothing (ev : event) : Prop := copy_source_of ev = None.

Lemma probe_copies_nothing t : Forall is_probe t -> Forall copies_nothing t.
Proof.
  intros H. eapply Forall_impl; [exact H |].
  intros [X op ans] Hev. destruct op; simpl in Hev; try contradiction; reflexivity.
Qed.

Lemma alloc_copies_nothing t : Forall is_alloc t -> Forall copies_nothing t.
Proof.
  intros H. eapply Forall_impl; [exact H |].
  intros [X op ans] Hev. destruct op; simpl in Hev; try contradiction; reflexivity.
Qed.

Lemma quiet_copies_nothing t : Forall is_quiet t -> Forall copies_nothing t.
Proof.
  intros H. eapply Forall_impl; [exact H |].
  intros [X op ans] Hev. destruct op; simpl in Hev; try contradiction; reflexivity.
Qed.

(** A trace without copies passes the check, whatever was seen. *)
Lemma no_copy_checked seen t :
  Forall copies_nothing t -> copies_checked seen t = true.
Proof.
  intros Ht. revert seen. induction Ht as [| ev t Hev _ IH]; intros seen;
    [reflexivity |].
  cbn [copies_checked]. rewrite Hev, IH. reflexivity.
Qed.

(** Seeing more paths does not make the check fail. *)
Lemma copies_checked_mono seen seen' t :
  (forall path, In path seen -> In path seen') ->
  copies_checked seen t = true -> copies_checked seen' t = true.
Proof.
  revert seen seen'. induction t as [| ev t IH]; intros seen seen' Hsub; [reflexivity |].
  cbn [copies_checked]. intros [Hsrc Hrest]%andb_prop. apply andb_true_intro. split.
  - destruct (copy_source_of ev) as [src |]; [| reflexivity].
    apply existsb_exists in Hsrc as (path & Hin & Heq).
    apply existsb_exists. exists path. split; [apply Hsub, Hin | exact Heq].
  - eapply IH; [| exact Hrest].
    destruct (found_of ev) as [path |]; [| exact Hsub].
    intros p [-> | Hp]; [left; reflexivity | right; apply Hsub, Hp].
Qed.

(** A checked trace after a trace without copies. *)
Lemma copies_checked_after t1 t2 :
  Forall copies_nothing t1 ->
  copies_checked [] t2 = true ->
  forall seen, copies_checked seen (t1 ++ t2) = true.
Proof.
  intros Ht H2. induction Ht as [| ev t Hev _ IH]; intros seen.
  - apply (copies_checked_mono []); [intros path [] | exact H2].
  - cbn [app copies_checked]. rewrite Hev, IH. reflexivity.
Qed.

(** A checked trace before a trace without copies. *)
Lemma copies_checked_before t1 t2 :
  Forall copies_nothing t2 ->
  forall seen, copies_checked seen t1 = true -> copies_checked seen (t1 ++ t2) = true.
Proof.
  intros Ht. induction t1 as [| ev t1 IH]; intros seen H1.
  - apply no_copy_checked. exact Ht.
  - cbn [app copies_checked] in *. apply andb_prop in H1 as [-> H1].
    rewrite (IH _ H1). reflexivity.
Qed.

(** What the check means: the source of every copy was found by an
    existence check that comes before the copy. *)
Lemma copies_checked_sound seen t1 src dst x t2 :
  copies_checked seen (t1 ++ Ev (Copy2 src dst) x :: t2) = true ->
  In src seen \/ In (src, true) (path_checks t1).
Proof.
  revert seen. induction t1 as [| ev t1 IH]; intros seen.
  - cbn [app copies_checked copy_source_of stage_call_of].
    intros [Hsrc _]%andb_prop. left.
    apply existsb_exists in Hsrc as (path & Hin & Heq).
    apply String.eqb_eq in Heq as ->. exact Hin.
  - cbn [app copies_checked]. intros [_ Hrest]%andb_prop.
    apply IH in Hrest. unfold found_of in Hrest. cbn [path_checks].
    destruct (path_check_of ev) as [[path [|]] |]; cbn [In] in *.
    + destruct Hrest as [[<- | Hin] | Hin]; auto.
    + destruct Hrest as [Hin | Hin]; auto.
    + exact Hrest.
Qed.


Lemma quiet_checked seen t : Forall is_quiet t -> copies_checked seen t = true.
Proof.
  intros H. apply no_copy_checked, quiet_copies_nothing, H.
Qed.

(** ** The blocks *)

Lemma allocate_image_closes image size_mb :
  wp (allocate_image image size_mb)
     (fun t _ => Forall is_alloc t /\ closed_files t = opened_files t).
Proof.
  unfold allocate_image. wp_calls. destruct x; wp_calls.
  all: split; [in_class | reflexivity].
Qed.

Lemma stage_tree_safe mount_point kernel_path init_bin_path :
  wp (stage_tree mount_point kernel_path init_bin_path)
     (fun t _ => Forall is_staging t /\
                 closed_files t = opened_files t /\
                 copies_checked [] t = true).
Proof.
  unfold stage_tree, when. wp_paths.
  all: try (eapply wp_conseq;
            [apply (wp_for_each_within is_listing), list_entry_spec |];
            intros t o [Ht _]; pose proof (listing_quiet _ Ht) as Hq;
            pose proof (quiet_closed _ Hq) as Hqc;
            pose proof (quiet_opened _ Hq) as Hqo;
            unfold closed_files, opened_files in Hqc, Hqo;
            apply listing_staging in Ht).
  all: split; [in_class |].
  all: unfold closed_files, opened_files; split.
  all: simpl; rewrite ?String.eqb_refl; simpl; rewrite ?orb_true_r.
  all: try rewrite Hqc, Hqo.
  all: try (rewrite (quiet_checked _ _ Hq)).
  all: reflexivity.
Qed.

(** Bring the observers of a trace to its pieces. *)
Ltac pieces :=
  unfold removed_trees, temp_dirs, closed_files, opened_files in *;
  repeat (rewrite ?collect_app; cbn [collect app temp_dir_of removed_tree_of
                                     opened_file_of closed_file_of]).

Lemma mount_and_stage_safe partition_dev kernel_path init_bin_path :
  wp (mount_and_stage partition_dev kernel_path init_bin_path)
     (fun t _ => removed_trees t = temp_dirs t /\
                 closed_files t = opened_files t /\
                 copies_checked [] t = true).
Proof.
  unfold mount_and_stage. apply wp_with_resource. wp_calls.
  { repeat split. }
  wp_run_cmd.
  pose proof (probe_removed _ (shell_probe _ (log_shell (Mount partition_dev x) r))) as Hlr.
  pose proof (probe_temp_dirs _ (shell_probe _ (log_shell (Mount partition_dev x) r))) as Hlt.
  pose proof (quiet_closed _ (log_quiet (Mount partition_dev x) r)) as Hlc.
  pose proof (quiet_opened _ (log_quiet (Mount partition_dev x) r)) as Hlo.
  destruct (exit_status r =? 0)%Z.
  - apply wp_try_finally. eapply wp_conseq; [apply stage_tree_safe |].
    intros ts os (Hcls & Hoc & Hcp). wp_calls. wp_run_cmd. wp_calls.
    all: pose proof (staging_removed _ Hcls) as Hsr.
    all: pose proof (staging_temp_dirs _ Hcls) as Hst.
    all: pose proof (probe_removed _ (shell_probe _ (log_shell (Umount partition_dev) r0)))
           as Hur.
    all: pose proof (probe_temp_dirs _ (shell_probe _ (log_shell (Umount partition_dev) r0)))
           as Hut.
    all: pose proof (quiet_closed _ (log_quiet (Umount partition_dev) r0)) as Huc.
    all: pose proof (quiet_opened _ (log_quiet (Umount partition_dev) r0)) as Huo.
    all: split; [| split].
    all: try (pieces; rewrite ?Hlr, ?Hlt, ?Hsr, ?Hst, ?Hur, ?Hut, ?Hlc, ?Hlo, ?Huc, ?Huo,
                ?Hoc; reflexivity).
    all: repeat (rewrite <- ?app_assoc; cbn [app]).
    all: cbn [copies_checked copy_source_of found_of stage_call_of path_check_of andb].
    all: rewrite (quiet_copies _ _ _ (log_quiet (Mount partition_dev x) r)).
    all: apply copies_checked_before; [| exact Hcp].
    all: repeat constructor; apply Forall_app; split;
      [apply quiet_copies_nothing, log_quiet | repeat constructor].
  - wp_calls.
    all: split; [| split].
    all: try (pieces; rewrite ?Hlr, ?Hlt, ?Hlc, ?Hlo; reflexivity).
    all: apply no_copy_checked.
    all: repeat (rewrite <- ?app_assoc; cbn [app]).
    all: repeat constructor; apply Forall_app; split;
      [apply quiet_copies_nothing, log_quiet | repeat constructor].
Qed.


(** What the removal of the temporary mount point raises is what the
    block raises. *)
Lemma mount_and_stage_removal partition_dev kernel_path init_bin_path :
  wp (mount_and_stage partition_dev kernel_path init_bin_path)
     (fun t o => forall path e, In (path, e) (failed_removals t) -> o = Raised (Exc e)).
Proof.
  unfold mount_and_stage. apply wp_with_resource. wp_calls.
  { match goal with H : In _ _ |- _ => destruct H end. }
  wp_run_cmd.
  pose proof (probe_failed _ (shell_probe _ (log_shell (Mount partition_dev x) r))) as Hl.
  destruct (exit_status r =? 0)%Z.
  - apply wp_try_finally. eapply wp_conseq; [apply stage_tree_spec |].
    intros ts os [[Hcls _] _]. wp_calls. wp_run_cmd. wp_calls.
    all: pose proof (staging_failed _ Hcls) as Hs.
    all: pose proof (probe_failed _ (shell_probe _ (log_shell (Umount partition_dev) r0)))
           as Hu.
    all: match goal with H : In _ (failed_removals _) |- _ => revert H end.
    all: unfold failed_removals in *;
      repeat (rewrite ?collect_app; cbn [collect failed_removal_of app]);
      rewrite ?Hl, ?Hs, ?Hu; cbn [app In].
    all: intros Hin; try contradiction; destruct Hin as [Hin | []]; congruence.
  - wp_calls.
    all: match goal with H : In _ (failed_removals _) |- _ => revert H end.
    all: unfold failed_removals in *;
      repeat (rewrite ?collect_app; cbn [collect failed_removal_of app]);
      rewrite ?Hl; cbn [app In].
    all: intros Hin; try contradiction; destruct Hin as [Hin | []]; congruence.
Qed.

(** ** Every run of the pipeline *)

Lemma create_fat32_disk_safe image size_mb kernel_path init_bin_path :
  wp (create_fat32_disk image size_mb kernel_path init_bin_path)
     (fun t o => removed_trees t = temp_dirs t /\
                 closed_files t = opened_files t /\
                 copies_checked [] t = true /\
                 forall path e, In (path, e) (failed_removals t) -> o = Raised (Exc e)).
Proof.
  eapply wp_conseq.
  { apply (create_fat32_disk_frame image size_mb kernel_path init_bin_path
             (fun t _ => Forall is_alloc t /\ closed_files t = opened_files t)
             (fun t o => (removed_trees t = temp_dirs t /\
                          closed_files t = opened_files t /\
                          copies_checked [] t = true) /\
                         forall path e, In (path, e) (failed_removals t) ->
                                        o = Raised (Exc e))).
    - apply allocate_image_closes.
    - intros dev. apply wp_and; [apply mount_and_stage_safe | apply mount_and_stage_removal]. }
  intros t o (line & rest & -> & ta & oa & ts & tm & ts' & -> & [Hta Hac] & Hts & Hts' & Htm).
  assert (Hm : removed_trees tm = temp_dirs tm /\
               closed_files tm = opened_files tm /\
               copies_checked [] tm = true).
  { destruct Htm as [-> | (om & [Hm _] & _)]; [repeat split | exact Hm]. }
  destruct Hm as (Hmr & Hmc & Hmk).
  pose proof (alloc_removed _ Hta) as Har. pose proof (alloc_temp_dirs _ Hta) as Hat.
  pose proof (probe_removed _ Hts) as Hsr. pose proof (probe_temp_dirs _ Hts) as Hst.
  pose proof (probe_removed _ Hts') as Hsr'. pose proof (probe_temp_dirs _ Hts') as Hst'.
  pose proof (probe_closed _ Hts) as Hsc. pose proof (probe_opened _ Hts) as Hso.
  pose proof (probe_closed _ Hts') as Hsc'. pose proof (probe_opened _ Hts') as Hso'.
  split; [| split; [| split]].
  - pieces. rewrite Har, Hat, Hsr, Hst, Hsr', Hst', Hmr. reflexivity.
  - pieces. rewrite Hac, Hsc, Hso, Hsc', Hso', Hmc. reflexivity.
  - change (Ev (Print line) tt :: ta ++ ts ++ tm ++ ts')
      with ((Ev (Print line) tt :: ta) ++ ts ++ tm ++ ts').
    rewrite (app_assoc _ ts).
    apply copies_checked_after.
    + apply Forall_app. split; [| apply probe_copies_nothing, Hts].
      constructor; [reflexivity | apply alloc_copies_nothing, Hta].
    + apply copies_checked_before; [apply probe_copies_nothing, Hts' | exact Hmk].
  - intros path e. unfold failed_removals. cbn [collect failed_removal_of].
    rewrite !collect_app.
    fold (failed_removals ta) (failed_removals ts) (failed_removals tm) (failed_removals ts').
    rewrite (alloc_failed _ Hta), (probe_failed _ Hts), (probe_failed _ Hts'), app_nil_r.
    cbn [app]. intros Hin.
    destruct Htm as [-> | (om & [_ Hrm] & Ho)]; [destruct Hin |].
    apply Ho, (Hrm _ _ Hin).
Qed.

(** X8: in every run of [create_fat32_disk], the temporary mount point
    that was created is handed to [rmtree], once, and nothing else is:
    when the mount fails, when a staging step raises, and when the
    unmount fails.  When that removal raises (the volume is still
    mounted), the function raises the same exception. *)
Theorem mount_point_removal_is_attempted_once {W : Type} (handle : world W) (w : W)
    image size_mb kernel_path init_bin_path :
  let r := run handle (create_fat32_disk image size_mb kernel_path init_bin_path) w in
  removed_trees (trace_of r) = temp_dirs (trace_of r) /\
  forall path e, In (path, e) (failed_removals (trace_of r)) ->
                 outcome_of r = Raised (Exc e).
Proof.
  intros r.
  pose proof (wp_run _ _ (create_fat32_disk_safe image size_mb kernel_path init_bin_path)
                W handle w) as (Hr & _ & _ & Hf).
  split; [exact Hr | exact Hf].
Qed.

(** X9: in every run of [create_fat32_disk], each file that was opened
    for writing (the image, then [grub.cfg]) is closed, once and in the
    order of the openings, also when the write raises; nothing else is
    closed. *)
Theorem opened_files_are_closed {W : Type} (handle : world W) (w : W)
    image size_mb kernel_path init_bin_path :
  let t := trace_of (run handle
                       (create_fat32_disk image size_mb kernel_path init_bin_path) w) in
  closed_files t = opened_files t.
Proof. apply (wp_run _ _ (create_fat32_disk_safe _ _ _ _)). Qed.

(** X10: in every run of [create_fat32_disk], a file is copied only
    after [os.path.exists] answered [True] for it: the source of every
    [shutil.copy2] was found by an existence check that comes before
    the copy in the run. *)
Theorem copies_follow_existence_checks {W : Type} (handle : world W) (w : W)
    image size_mb kernel_path init_bin_path :
  let t := trace_of (run handle
                       (create_fat32_disk image size_mb kernel_path init_bin_path) w) in
  forall t1 src dst x t2,
    t = t1 ++ Ev (Copy2 src dst) x :: t2 ->
    In (src, true) (path_checks t1).
Proof.
  intros t t1 src dst x t2 Ht.
  pose proof (wp_run _ _ (create_fat32_disk_safe image size_mb kernel_path init_bin_path)
                W handle w) as (_ & _ & Hk & _).
  fold t in Hk. rewrite Ht in Hk.
  destruct (copies_checked_sound _ _ _ _ _ _ Hk) as [[] | Hin]. exact Hin.
Qed.

(** X10, witness: on a machine where every call succeeds, the copy of the
    init binary is the 29th call of the run; the existence check that
    found the file is among the 28 before it. *)
Lemma copies_follow_existence_checks_witness :
  let t := trace_of (run Worlds.fine
                       (create_fat32_disk "disk.img" 0 "bzImage" "init.bin") tt) in
  t = firstn 28 t
      ++ Ev (Copy2 "init.bin" "/tmp/tmpark/bin/init.bin") (inr tt) :: skipn 29 t /\
  In ("init.bin"%string, true) (path_checks (firstn 28 t)).
Proof.
  cbv zeta.
  assert (Hsplit :
    trace_of (run Worlds.fine (create_fat32_disk "disk.img" 0 "bzImage" "init.bin") tt)
    = firstn 28 (trace_of (run Worlds.fine
                             (create_fat32_disk "disk.img" 0 "bzImage" "init.bin") tt))
      ++ Ev (Copy2 "init.bin" "/tmp/tmpark/bin/init.bin") (inr tt)
      :: skipn 29 (trace_of (run Worlds.fine
                               (create_fat32_disk "disk.img" 0 "bzImage" "init.bin") tt)))
    by (vm_compute; reflexivity).
  split; [exact Hsplit |].
  exact (copies_follow_existence_checks Worlds.fine tt "disk.img" 0 "bzImage" "init.bin"
           _ _ _ _ _ Hsplit).
Defined.

End DiskCleanup.


(* ===================================================================== *)
(** * The image file on the file store *)
(* ===================================================================== *)

Module ImageFile.

Import Py DiskWithInit FileSystem StoreClaims.

(** Line 175: the size that [main] hands to the pipeline, for a size
    argument that is a plain literal, or without one. *)
Definition requested_size (rest : list string) : option Z :=
  match rest with
  | size :: _ => match read_int size with Number n => Some n | _ => None end
  | [] => Some 256
  end.

(** Unfolding a run on the file store. *)
Ltac run_store :=
  cbn [run bind call call_r print print_err when with_resource try_finally try_except
       handle sys_exit negb andb Z.eqb Pos.eqb returncode stdout stderr
       files archives writing app fst snd outcome_of final_of trace_of
       main create_fat32_disk allocate_image write_partition_table attach_loop
       run_cmd subprocess_run].

Section Store.

Variable zip_image : list zip_member -> list byte.
Variable refused : forall X : Type, os_op X -> state -> option py_error.

(** X11: a size of zero or less is not refused: the allocator returns
    and leaves an empty file at the output path, in place of whatever
    was there before. *)
Theorem nonpositive_size_gives_empty_image (st : state) (image : string) (size_mb : Z) :
  size_mb <= 0 ->
  let r := run (handle zip_image) (allocate_image image size_mb) st in
  outcome_of r = Returned tt /\
  files (final_of r) !! image = Some [].
Proof.
  intros Hsize r. destruct (run_allocate_image zip_image st image size_mb) as [_ Hbase].
  fold r in Hbase.
  destruct (size_mb * 1024 * 1024 >? max_ssize)%Z eqn:Hbig.
  { apply Z.gtb_lt in Hbig. unfold max_ssize in Hbig. lia. }
  destruct Hbase as [Ho Hf]. split; [exact Ho |]. rewrite Hf. unfold zero_bytes.
  replace (Z.to_nat (size_mb * 1024 * 1024)) with 0%nat by lia. reflexivity.
Qed.

(** X12: whatever the machine refuses, on a store where the kernel
    exists and there are no disk tools (every command exits with status
    127), a run of [main] with a plain size argument, or with none, in
    which no call raises exits with status 1 after printing that it
    failed, and the image file it allocated stays behind: the output
    path holds as many megabytes of zeros as the size argument asks for,
    256 when there is none. *)
Theorem failed_run_leaves_the_image (st : state)
    (a0 kernel_path init_bin_path output_image : string) (rest : list string)
    (kernel : list byte) (size_mb : Z) :
  files st !! kernel_path = Some kernel ->
  requested_size rest = Some size_mb ->
  let m := run (faulty zip_image refused)
               (main (a0 :: kernel_path :: init_bin_path :: output_image :: rest)) st in
  no_exception (trace_of m) = true ->
  outcome_of m = Raised (SystemExit 1) /\
  last (printed (trace_of m)) = Some "[!] Failed to create disk image"%string /\
  files (final_of m) !! output_image = Some (zero_bytes (size_mb * 1024 * 1024)).
Proof.
  intros Hkernel Hsize m Hquiet. subst m.
  pose proof (faulty_quiet zip_image refused _ _ Hquiet) as Hrun.
  rewrite Hrun in Hquiet |- *. clear Hrun. revert Hquiet.
  unfold main.
  assert (Hint : match rest with
                 | s :: _ => py_int s
                 | [] => Ret 256
                 end = Ret size_mb).
  { destruct rest as [| s rest']; simpl in Hsize; [congruence |].
    unfold py_int. destruct (read_int s); congruence. }
  rewrite Hint. run_store. rewrite Hkernel. run_store.
  destruct (files st !! init_bin_path) as [init |]; run_store.
  all: destruct (files st !! output_image) as [old |] eqn:Hold; run_store; rewrite ?Hold;
    run_store; destruct (size_mb * 1024 * 1024 >? max_ssize)%Z; run_store;
    rewrite ?lookup_insert_eq; run_store; rewrite ?lookup_insert_eq.
  all: cbn [no_exception raised_in negb andb]; intros Hq; try discriminate Hq.
  all: repeat split.
Qed.

End Store.

(** X11, witness: size 0 over an older image. *)
Lemma nonpositive_size_gives_empty_image_witness :
  let st := State (<["d.img"%string := bytes_of "old content"]> (files example_store))
                  ∅ None in
  let r := run (handle toy_image) (allocate_image "d.img" 0) st in
  outcome_of r = Returned tt /\ files (final_of r) !! "d.img"%string = Some [].
Proof.
  apply (nonpositive_size_gives_empty_image toy_image
           (State (<["d.img"%string := bytes_of "old content"]> (files example_store))
                  ∅ None)
           "d.img" 0).
  lia.
Defined.

(** A store with a kernel. *)
Definition store_with_kernel : state :=
  State (<["bzImage"%string := bytes_of "kernel"]> (files example_store)) ∅ None.

(** X12, witness: one megabyte, on a machine that refuses nothing. *)
Lemma failed_run_leaves_the_image_witness :
  let m := run (faulty toy_image willing)
               (main ["create_disk_with_init.py"; "bzImage"; "init.bin"; "disk.img"; "1"]%string)
               store_with_kernel in
  no_exception (trace_of m) = true /\
  outcome_of m = Raised (SystemExit 1) /\
  last (printed (trace_of m)) = Some "[!] Failed to create disk image"%string /\
  files (final_of m) !! "disk.img"%string = Some (zero_bytes (1 * 1024 * 1024)).
Proof.
  assert (Hquiet : no_exception (trace_of (run (faulty toy_image willing)
            (main ["create_disk_with_init.py"; "bzImage"; "init.bin"; "disk.img"; "1"]%string)
            store_with_kernel)) = true) by (vm_compute; reflexivity).
  split; [exact Hquiet |].
  apply (failed_run_leaves_the_image toy_image willing store_with_kernel
           "create_disk_with_init.py" "bzImage" "init.bin" "disk.img" ["1"%string]
           (bytes_of "kernel") 1).
  - vm_compute. reflexivity.
  - vm_compute. reflexivity.
  - exact Hquiet.
Defined.

End ImageFile.


(* ===================================================================== *)
(** * The command lines: arguments that stop a script at once *)
(* ===================================================================== *)

Module CommandLine.

Import Py Worlds.

(** ** [create_disk_with_init.py] *)

Definition disk_usage : list event :=
  [Ev (Print "Usage: ./create_disk_with_init.py <kernel_path> <init.bin_path> <output_image> [size_mb]") tt;
   Ev (Print "Example: ./create_disk_with_init.py bzImage init.bin disk.img 256") tt].

(** X13: with fewer than three arguments after the script name,
    [main] prints the two usage lines and exits with status 1; it makes
    no other call, so no file is examined or written. *)
Theorem disk_main_usage {W : Type} (handle : world W) (w : W) (argv : list string) :
  (List.length argv < 4)%nat ->
  let m := run handle (DiskWithInit.main argv) w in
  trace_of m = disk_usage /\
  outcome_of m = Raised (SystemExit 1) /\
  exit_code (outcome_of m) = 1.
Proof.
  intros Hlen.
  assert (Hwp : wp (DiskWithInit.main argv)
                   (fun t o => t = disk_usage /\ o = Raised (SystemExit 1) /\
                               exit_code o = 1)).
  { destruct argv as [| a0 [| a1 [| a2 [| a3 rest]]]];
      try (simpl in Hlen; lia); simpl; intros [] []; repeat split. }
  apply (wp_run _ _ Hwp).
Qed.

Lemma disk_main_usage_witness :
  let m := run fine (DiskWithInit.main ["create_disk_with_init.py"; "bzImage"; "init.bin"]%string) tt in
  trace_of m = disk_usage /\ outcome_of m = Raised (SystemExit 1).
Proof.
  destruct (disk_main_usage fine tt
              ["create_disk_with_init.py"; "bzImage"; "init.bin"]%string)
    as (Ht & Ho & _); [simpl; lia |].
  split; [exact Ht | exact Ho].
Defined.



(** The size argument, when there is one, is a plain literal that [int]
    accepts. *)
Definition size_accepted (rest : list string) : bool :=
  match rest with
  | size :: _ =>
      match DiskWithInit.read_int size with
      | DiskWithInit.Number _ => true
      | _ => false
      end
  | [] => true
  end.

(** X15: when the size argument, if there is one, is a plain literal
    that [int] accepts, and the kernel file does not exist, [main]
    prints one error line and exits with status 1 right after the
    check: the image is not created, an older file at the output path is
    left alone, and no command is run. *)
Theorem disk_main_stops_without_kernel {W : Type} (handle : world W) (w : W)
    (a0 kernel_path init_bin_path output_image : string) (rest : list string) :
  size_accepted rest = true ->
  (handle _ (PathExists kernel_path) w).1 = false ->
  let m := run handle (DiskWithInit.main
                         (a0 :: kernel_path :: init_bin_path :: output_image :: rest)) w in
  trace_of m = [Ev (PathExists kernel_path) false;
                Ev (Print ("[!] Error: Kernel not found: " ++ kernel_path)) tt] /\
  outcome_of m = Raised (SystemExit 1) /\
  exit_code (outcome_of m) = 1.
Proof.
  intros Hsize Hmissing m. subst m.
  unfold DiskWithInit.main.
  assert (Hint : exists n, match rest with
                           | s :: _ => DiskWithInit.py_int s
                           | [] => Ret 256
                           end = Ret n).
  { destruct rest as [| s rest']; [eauto |].
    simpl in Hsize. unfold DiskWithInit.py_int.
    destruct (DiskWithInit.read_int s) as [n | |]; try discriminate Hsize. eauto. }
  destruct Hint as [n ->].
  cbn [bind run call].
  destruct (handle bool (PathExists kernel_path) w) as [found w1].
  simpl in Hmissing. subst found.
  cbn [negb bind print call run sys_exit].
  destruct (handle unit (Print _) w1) as [[] w2].
  repeat split.
Qed.

(** A machine on which nothing exists yet. *)
Definition empty_machine : world unit :=
  scripted (fun X op =>
    match op in os_op X return option X with
    | PathExists _ => Some false
    | IsFile _ => Some false
    | _ => None
    end).

Lemma disk_main_stops_without_kernel_witness :
  let m := run empty_machine
             (DiskWithInit.main
                ["create_disk_with_init.py"; "bzImage"; "init.bin"; "disk.img"; "64"]%string)
             tt in
  trace_of m = [Ev (PathExists "bzImage") false;
                Ev (Print "[!] Error: Kernel not found: bzImage") tt] /\
  outcome_of m = Raised (SystemExit 1).
Proof.
  destruct (disk_main_stops_without_kernel empty_machine tt
              "create_disk_with_init.py" "bzImage" "init.bin" "disk.img" ["64"%string])
    as (Ht & Ho & _); [reflexivity | reflexivity |].
  split; [exact Ht | exact Ho].
Defined.

(** ** [create_initramfs_zip.py] *)

(** X16: without an init binary on the command line, the packager
    prints its docstring on standard output and exits with status 1; it
    makes no other call. *)
Theorem zip_main_usage {W : Type} (handle : world W) (w : W) (argv : list string) :
  (List.length argv < 2)%nat ->
  let m := run handle (InitramfsZip.main argv) w in
  trace_of m = [Ev (Print InitramfsZip.doc) tt] /\
  outcome_of m = Raised (SystemExit 1) /\
  exit_code (outcome_of m) = 1.
Proof.
  intros Hlen.
  assert (Hwp : wp (InitramfsZip.main argv)
                   (fun t o => t = [Ev (Print InitramfsZip.doc) tt] /\
                               o = Raised (SystemExit 1) /\ exit_code o = 1)).
  { destruct argv as [| a0 [| a1 rest]];
      try (simpl in Hlen; lia); simpl; intros []; repeat split. }
  apply (wp_run _ _ Hwp).
Qed.

Lemma zip_main_usage_witness :
  let m := run fine (InitramfsZip.main ["create_initramfs_zip.py"%string]) tt in
  trace_of m = [Ev (Print InitramfsZip.doc) tt] /\
  outcome_of m = Raised (SystemExit 1).
Proof.
  destruct (zip_main_usage fine tt ["create_initramfs_zip.py"%string])
    as (Ht & Ho & _); [simpl; lia |].
  split; [exact Ht | exact Ho].
Defined.

(** X17: when the init binary is not a regular file, the packager
    writes one error line on standard error and exits with status 1
    before it opens the archive: no output file is created, and an
    older archive at the output path is neither truncated nor
    rewritten. *)
Theorem zip_main_stops_without_init {W : Type} (handle : world W) (w : W)
    (a0 init_bin : string) (rest : list string) :
  (handle _ (IsFile init_bin) w).1 = false ->
  let m := run handle (InitramfsZip.main (a0 :: init_bin :: rest)) w in
  trace_of m = [Ev (IsFile init_bin) false;
                Ev (PrintErr ("ERROR: init binary not found: " ++ init_bin)) tt] /\
  outcome_of m = Raised (SystemExit 1) /\
  exit_code (outcome_of m) = 1.
Proof.
  intros Hmissing m. subst m. unfold InitramfsZip.main.
  cbn [bind run call].
  destruct (handle bool (IsFile init_bin) w) as [found w1].
  simpl in Hmissing. subst found.
  cbn [negb bind print_err call run sys_exit].
  destruct (handle unit (PrintErr _) w1) as [[] w2].
  repeat split.
Qed.

Lemma zip_main_stops_without_init_witness :
  let m := run empty_machine
             (InitramfsZip.main ["create_initramfs_zip.py"; "init.bin"; "out.zip"]%string) tt in
  trace_of m = [Ev (IsFile "init.bin") false;
                Ev (PrintErr "ERROR: init binary not found: init.bin") tt] /\
  outcome_of m = Raised (SystemExit 1).
Proof.
  destruct (zip_main_stops_without_init empty_machine tt
              "create_initramfs_zip.py" "init.bin" ["out.zip"%string])
    as (Ht & Ho & _); [reflexivity |].
  split; [exact Ht | exact Ho].
Defined.

End CommandLine.




(* ===================================================================== *)
(** * The archive packager: extras, and the archive handle *)
(* ===================================================================== *)

Module PackagerFacts.

Import Py InitramfsZip DiskLogic FileSystem StoreClaims.

(** ** The extra arguments *)

Lemma split_first_spec (c : ascii) (s : string) :
  contains_char c s = true ->
  s = ((split_first c s).1 ++ String c (split_first c s).2)%string /\
  contains_char c (split_first c s).1 = false.
Proof.
  induction s as [| d s IH]; [discriminate |].
  cbn [contains_char split_first].
  destruct (Ascii.eqb c d) eqn:Hcd.
  - intros _. apply Ascii.eqb_eq in Hcd as ->. split; reflexivity.
  - intros Hs. destruct (IH Hs) as [Heq Hno].
    destruct (split_first c s) as [a b]. cbn [fst snd] in *.
    split; [rewrite Heq at 1; reflexivity |].
    cbn [contains_char]. rewrite Hcd. exact Hno.
Qed.

(** X19: an extra argument is split at its first colon: the host path
    is what stands before it and never holds a colon, the archive path
    is all that follows, further colons included; host, colon and
    archive path give the argument back.  Without a colon the host path
    is the whole argument and the archive path is its base name, which
    holds no slash: the file is stored at the top level of the
    archive. *)
Theorem parse_extra_splits_at_first_colon (extra : string) :
  contains_char ":" (parse_extra extra).1 = false /\
  (if contains_char ":" extra
   then extra = ((parse_extra extra).1 ++ ":" ++ (parse_extra extra).2)%string
   else (parse_extra extra).1 = extra /\
        (parse_extra extra).2 = basename extra /\
        contains_char "/" (parse_extra extra).2 = false).
Proof.
  unfold parse_extra. destruct (contains_char ":" extra) eqn:Hc.
  - destruct (split_first_spec ":" extra Hc) as [Heq Hno]. split; assumption.
  - cbn [fst snd]. repeat split; [exact Hc |]. apply basename_plain.
Qed.


Section Store.

Variable zip_image : list zip_member -> list byte.


End Store.


(** ** The archive handle *)

(** The archives that were opened, for writing or for reading, and the
    archives that were closed, in order. *)
Definition zip_open_of (ev : event) : option string :=
  match ev with
  | @Ev X op ans =>
      match op in os_op X return X -> option string with
      | ZipOpenW path | ZipOpenR path =>
          fun r => match r with inr _ => Some path | inl _ => None end
      | _ => fun _ => None
      end ans
  end.

Definition zip_close_of (ev : event) : option string :=
  match ev with
  | @Ev X op ans =>
      match op in os_op X return option string with
      | ZipClose path => Some path
      | _ => None
      end
  end.

Definition zip_opens (t : list event) : list string := collect zip_open_of t.
Definition zip_closes (t : list event) : list string := collect zip_close_of t.

Lemma extras_loop_keeps_handle (out_zip : string) (extras : list string) :
  wp (for_each extras (add_extra out_zip))
     (fun t _ => zip_opens t = [] /\ zip_closes t = []).
Proof.
  unfold zip_opens, zip_closes.
  induction extras as [| extra rest IH]; cbn [for_each]; [split; reflexivity |].
  apply wp_bind. unfold add_extra. destruct (parse_extra extra) as [host zpath].
  wp_calls. destruct x; wp_calls.
  all: try (split; reflexivity).
  all: eapply wp_conseq; [apply IH |]; intros t o [Ho Hc];
    rewrite !collect_app, Ho, Hc; split; reflexivity.
Qed.

Lemma listing_keeps_handle (infos : list zipinfo) :
  wp (for_each infos list_member)
     (fun t o => zip_opens t = [] /\ zip_closes t = [] /\ o = Returned tt).
Proof.
  unfold zip_opens, zip_closes.
  induction infos as [| info rest IH]; cbn [for_each]; [repeat split |].
  apply wp_bind. unfold list_member. wp_calls.
  eapply wp_conseq; [apply IH |]. intros t o Ht. exact Ht.
Qed.

Lemma main_closes_what_it_opens (argv : list string) :
  wp (main argv) (fun t _ => zip_closes t = zip_opens t).
Proof.
  unfold main, sys_exit.
  destruct argv as [| a0 [| init_bin rest]]; wp_calls; try reflexivity.
  destruct x; cbn [negb]; wp_calls; try reflexivity.
  all: try (apply wp_bind, wp_try_finally;
            eapply wp_conseq; [apply extras_loop_keeps_handle |];
            intros tl ol [Hlo Hlc]; wp_calls).
  all: try (destruct ol as [[] | e']; cbn beta iota; wp_calls).
  all: try (apply wp_bind, wp_try_finally;
            eapply wp_conseq; [apply listing_keeps_handle |];
            intros tr or (Hro & Hrc & ->); wp_calls).
  all: unfold zip_opens, zip_closes in *; simpl;
    rewrite ?collect_app; simpl; rewrite ?collect_app, ?Hlo, ?Hlc, ?Hro, ?Hrc; reflexivity.
Qed.

(** X21: in every world, a run of the packager closes each archive it
    opened, once and in the order of the openings, and closes nothing
    else: the archive written is closed when [zf.write] or
    [os.path.getsize] raises in the middle of the members, and so is the
    archive read back for the listing. *)
Theorem archive_closed_on_every_path {W : Type} (handle : world W) (w : W)
    (argv : list string) :
  let t := trace_of (run handle (main argv) w) in
  zip_closes t = zip_opens t.
Proof. apply (wp_run _ _ (main_closes_what_it_opens argv)). Qed.

End PackagerFacts.


(* ===================================================================== *)
(** * [scripts/create_bootable_image.py] *)
(* ===================================================================== *)

Module BootableImage.

Import Py.

(** ** Scripts that also start programs without a shell *)

(** The calls of this script: those of [os_op], and
    [subprocess.run(argv, check=False)], which starts the program [argv]
    without a shell and without capturing its output.  It raises when the
    program cannot be started, and answers the exit status otherwise. *)
Inductive call_op : Type -> Type :=
| Os {X : Type} (op : os_op X) : call_op X
| Exec (argv : list string) : call_op (result Z).

Inductive step : Type :=
| Step {X : Type} (op : call_op X) (ans : X).

Inductive script (A : Type) : Type :=
| Done (a : A)
| Fail (e : exn)
| Do {X : Type} (op : call_op X) (k : X -> script A).

Arguments Done {A} a.
Arguments Fail {A} e.
Arguments Do {A X} op k.

Fixpoint and_then {A B : Type} (p : script A) (k : A -> script B) : script B :=
  match p with
  | Done a => k a
  | Fail e => Fail e
  | Do op f => Do op (fun x => and_then (f x) k)
  end.

Declare Scope script_scope.
Delimit Scope script_scope with script.
Bind Scope script_scope with script.

Notation "x <- p ;; k" := (and_then p (fun x => k))
  (at level 100, p at next level, k at level 200, right associativity) : script_scope.
Notation "p ;; k" := (and_then p (fun _ => k))
  (at level 100, k at level 200, right associativity) : script_scope.

Local Open Scope script_scope.

Definition os {X : Type} (op : os_op X) : script X := Do (Os op) Done.

Definition os_r {X : Type} (op : os_op (result X)) : script X :=
  Do (Os op) (fun r => match r with inl e => Fail (Exc e) | inr x => Done x end).

Definition emit (line : string) : script unit := os (Print line).

(** [subprocess.run(argv, check=False)]; the script drops the result. *)
Definition subprocess_run (argv : list string) : script Z :=
  Do (Exec argv) (fun r => match r with inl e => Fail (Exc e) | inr code => Done code end).

(** [try: body finally: final] *)
Fixpoint finally {A : Type} (body : script A) (final : script unit) : script A :=
  match body with
  | Done a => final ;; Done a
  | Fail e => final ;; Fail e
  | Do op k => Do op (fun x => finally (k x) final)
  end.

(** [try: body except: handler]: a bare [except] catches whatever is
    raised, [SystemExit] included. *)
Fixpoint except_any {A : Type} (body : script A) (handler : script A) : script A :=
  match body with
  | Done a => Done a
  | Fail _ => handler
  | Do op k => Do op (fun x => except_any (k x) handler)
  end.

(** [with cm as x: body] *)
Definition with_cm {X A : Type} (enter : script X) (leave : X -> script unit)
    (body : X -> script A) : script A :=
  x <- enter ;; finally (body x) (leave x).

Definition machine (W : Type) : Type := forall X : Type, call_op X -> W -> X * W.

Fixpoint exec {W A : Type} (handle : machine W) (p : script A) (w : W)
  : list step * outcome A * W :=
  match p with
  | Done a => ([], Returned a, w)
  | Fail e => ([], Raised e, w)
  | Do op k =>
      let '(x, w1) := handle _ op w in
      let '(t, o, w2) := exec handle (k x) w1 in
      (Step op x :: t, o, w2)
  end.

(** [always p Q]: whatever the machine answers, the steps and the
    outcome of [p] satisfy [Q]. *)
Fixpoint always {A : Type} (p : script A) (Q : list step -> outcome A -> Prop) : Prop :=
  match p with
  | Done a => Q [] (Returned a)
  | Fail e => Q [] (Raised e)
  | Do op k => forall x, always (k x) (fun t o => Q (Step op x :: t) o)
  end.

Lemma always_exec {A : Type} (p : script A) Q :
  always p Q ->
  forall (W : Type) (handle : machine W) (w : W),
    Q (exec handle p w).1.1 (exec handle p w).1.2.
Proof.
  intros Hp W handle. revert Q Hp.
  induction p as [a | e | X op k IH]; intros Q Hp w; simpl in *;
    [exact Hp | exact Hp |].
  destruct (handle X op w) as [x w1] eqn:Hh.
  specialize (IH x _ (Hp x) w1).
  destruct (exec handle (k x) w1) as [[t o] w2]. exact IH.
Qed.

Lemma always_conseq {A : Type} (p : script A) (Q Q' : list step -> outcome A -> Prop) :
  always p Q -> (forall t o, Q t o -> Q' t o) -> always p Q'.
Proof.
  revert Q Q'. induction p as [a | e | X op k IH]; intros Q Q' Hp HQ; simpl in *;
    [apply HQ, Hp | apply HQ, Hp |].
  intros x. eapply IH; [apply Hp |]. intros t o. apply HQ.
Qed.

Lemma always_and_then {A B : Type} (p : script A) (k : A -> script B) Q :
  always p (fun t o =>
              match o with
              | Returned a => always (k a) (fun t' o' => Q (t ++ t') o')
              | Raised e => Q t (Raised e)
              end) ->
  always (and_then p k) Q.
Proof.
  revert Q. induction p as [a | e | X op f IH]; intros Q Hp; simpl in *;
    [exact Hp | exact Hp |].
  intros x. apply IH. eapply always_conseq; [apply Hp |].
  intros t [a | e]; simpl; auto.
Qed.

(** ** The script *)

(** Lines 19-46. *)
Definition losetup_scan (output_image : string) : list string :=
  ["losetup"; "-P"; output_image].
Definition parted_mklabel (output_image : string) : list string :=
  ["parted"; "-s"; output_image; "mklabel"; "msdos"].
Definition parted_mkpart (output_image : string) : list string :=
  ["parted"; "-s"; output_image; "mkpart"; "primary"; "fat32"; "1"; "100%"].

Definition create_disk_image (kernel_path output_image : string) (size_mb : Z)
  : script bool :=
  emit ("[*] Creating " ++ str_of_int size_mb ++ "MB disk image: " ++ output_image) ;;
  with_cm (os_r (OpenW output_image true)) (fun _ => os_r (FClose output_image))
    (fun _ =>
       os_r (ZeroBlock (size_mb * 1024 * 1024)) ;;
       os_r (FWrite output_image (zero_bytes (size_mb * 1024 * 1024)))) ;;
  emit "[*] Disk image created" ;;
  with_cm (os_r MkDTemp) (fun tmpdir => os_r (RmTree tmpdir))
    (fun tmpdir =>
       except_any
         (subprocess_run (losetup_scan output_image) ;;
          subprocess_run (parted_mklabel output_image) ;;
          subprocess_run (parted_mkpart output_image) ;;
          emit "[*] Disk image formatted (MBR + FAT32)")
         (emit ":: Warning: Could not create partitioned image (requires parted/losetup)" ;;
          emit "[*] Creating simple flat image instead")) ;;
  Done true.

(** Lines 51-61: the f-string starts with a line break, and its doubled
    braces stand for single ones. *)
Definition grub_cfg : string :=
  nl ++
  "# GRUB2 boot configuration for Ark OS" ++ nl ++
  nl ++
  "menuentry 'Ark OS' {" ++ nl ++
  "    multiboot /bzImage" ++ nl ++
  "    echo " ++ dquote ++ "Booting Ark OS kernel..." ++ dquote ++ nl ++
  "}" ++ nl ++
  nl ++
  "set timeout=5" ++ nl ++
  "set default=0" ++ nl.

(** Lines 48-68. *)
Definition create_grub_config (kernel_path output_dir : string) : script string :=
  let config_path := path_join output_dir "grub.cfg" in
  with_cm (os_r (OpenW config_path false)) (fun _ => os_r (FClose config_path))
    (fun _ => os_r (FWrite config_path (list_byte_of_string grub_cfg))) ;;
  emit ("[*] GRUB2 configuration created: " ++ config_path) ;;
  Done config_path.

(** Lines 70-75. *)
Definition create_efi_image (kernel_path output_image : string) : script bool :=
  emit "[*] UEFI disk images not yet implemented" ;;
  emit "[*] Stick with BIOS boot (requires GRUB2)" ;;
  Done false.

(** [int(s)], as in the other script. *)
Definition py_int (s : string) : script Z :=
  match DiskWithInit.read_int s with
  | DiskWithInit.Number n => Done n
  | DiskWithInit.Invalid => Fail (Exc (DiskWithInit.invalid_literal s))
  | DiskWithInit.Beyond => os_r (IntOf s)
  end.

(** Lines 77-104; [argv] is [sys.argv]. *)
Definition main (argv : list string) : script unit :=
  match argv with
  | _ :: kernel_path :: output_image :: rest =>
      size_mb <- match rest with
                 | s :: _ => py_int s
                 | [] => Done 128
                 end ;;
      have_kernel <- os (PathExists kernel_path) ;;
      (if negb have_kernel then
         emit (":: Error: Kernel file not found: " ++ kernel_path) ;;
         Fail (SystemExit 1)
       else Done tt) ;;
      ok <- create_disk_image kernel_path output_image size_mb ;;
      if ok then
        emit (":: Bootable disk image created: " ++ output_image) ;;
        emit "" ;;
        emit "To test with QEMU:" ;;
        emit ("  qemu-system-i386 -drive file=" ++ output_image ++ ",format=raw -m 256M") ;;
        emit "" ;;
        emit "To write to USB device:" ;;
        emit ("  sudo dd if=" ++ output_image ++ " of=/dev/sdX bs=1M status=progress") ;;
        emit "  (Replace /dev/sdX with your USB device)"
      else
        emit ":: Failed to create bootable disk image" ;;
        Fail (SystemExit 1)
  | _ =>
      emit "Usage: ./create_bootable_image.py <kernel_path> <output_image> [size_mb]" ;;
      emit "Example: ./create_bootable_image.py bzImage ark.img 256" ;;
      Fail (SystemExit 1)
  end.


(** ** Observing the steps of a run *)

Fixpoint gather {X : Type} (f : step -> option X) (t : list step) : list X :=
  match t with
  | [] => []
  | s :: rest =>
      match f s with
      | Some x => x :: gather f rest
      | None => gather f rest
      end
  end.

Lemma gather_app {X : Type} (f : step -> option X) t1 t2 :
  gather f (t1 ++ t2) = gather f t1 ++ gather f t2.
Proof.
  induction t1 as [| s t1 IH]; simpl; [reflexivity |].
  destruct (f s); simpl; congruence.
Qed.

(** The programs that were started, with what [subprocess.run]
    answered. *)
Definition program_of (s : step) : option (list string * result Z) :=
  match s with
  | @Step X op ans =>
      match op in call_op X return X -> option (list string * result Z) with
      | Exec argv => fun r => Some (argv, r)
      | Os _ => fun _ => None
      end ans
  end.

Definition programs (t : list step) : list (list string * result Z) :=
  gather program_of t.

(** The lines printed on standard output. *)
Definition line_of (s : step) : option string :=
  match s with
  | @Step X op ans =>
      match op in call_op X return option string with
      | Os (Print line) => Some line
      | _ => None
      end
  end.

Definition lines (t : list step) : list string := gather line_of t.

(** The exceptions that the calls on files and directories, and the
    building of the block of zeros, raised. *)
Definition os_error_of {X : Type} (op : os_op X) : X -> option py_error :=
  match op in os_op X return X -> option py_error with
  | OpenW _ _ | FWrite _ _ | FClose _ | RmTree _ | ZeroBlock _ =>
      fun r => match r with inl e => Some e | inr _ => None end
  | MkDTemp => fun r => match r with inl e => Some e | inr _ => None end
  | _ => fun _ => None
  end.

Definition file_error_of (s : step) : option py_error :=
  match s with
  | @Step X op ans =>
      match op in call_op X return X -> option py_error with
      | Os o => os_error_of o
      | Exec _ => fun _ => None
      end ans
  end.

Definition file_errors (t : list step) : list py_error := gather file_error_of t.

(** What was written, and where. *)
Definition write_of (s : step) : option (string * list byte) :=
  match s with
  | @Step X op ans =>
      match op in call_op X return option (string * list byte) with
      | Os (FWrite path data) => Some (path, data)
      | _ => None
      end
  end.

Definition writes (t : list step) : list (string * list byte) := gather write_of t.

(** Unfold the calls at the head of a script and name their answers. *)
Ltac steps :=
  repeat (cbn [always and_then os os_r emit subprocess_run finally except_any with_cm negb];
          try lazymatch goal with
            | |- forall x : unit, _ => intros []
            | |- forall x : result _, _ => intros [?e | ?x]
            | |- forall x : _, _ => intros ?x
            end).

(** ** [create_disk_image] *)

Definition formatted_line : string := "[*] Disk image formatted (MBR + FAT32)".
Definition failure_line : string := ":: Failed to create bootable disk image".

(** The three programs of the partitioning, in order. *)
Definition partition_plan (output_image : string) : list (list string) :=
  [losetup_scan output_image; parted_mklabel output_image; parted_mkpart output_image].

(** No program of the run raised. *)
Definition all_started (t : list step) : bool :=
  forallb (fun pr => match pr.2 with inr _ => true | inl _ => false end) (programs t).

Lemma create_disk_image_spec kernel_path output_image size_mb :
  always (create_disk_image kernel_path output_image size_mb)
    (fun t o =>
       match o with
       | Returned ok => ok = true
       | Raised e => exists err, e = Exc err /\ In err (file_errors t)
       end /\
       List.map fst (programs t) `prefix_of` partition_plan output_image /\
       (existsb (String.eqb formatted_line) (lines t)
        = (Nat.eqb (List.length (programs t)) 3 && all_started t)) /\
       existsb (String.eqb failure_line) (lines t) = false /\
       (writes t = [] \/
        writes t = [(output_image, zero_bytes (size_mb * 1024 * 1024))])).
Proof.
  unfold create_disk_image. steps.
  all: split; [first [reflexivity | eexists; split; [reflexivity |]; simpl; auto 10] |].
  all: split;
    [ unfold partition_plan; simpl;
      first [ apply prefix_nil | reflexivity
            | apply prefix_cons; first [apply prefix_nil | reflexivity
                                       | apply prefix_cons; first [apply prefix_nil | reflexivity]]] |].
  all: split; [reflexivity |].
  all: split; [reflexivity |].
  all: simpl; auto.
Qed.

(** X22: the flat-image variant never fails because the partitioning
    failed.  [create_disk_image] never returns [False]; what a
    [subprocess.run] raises is caught, and an exit status is not looked
    at; the function raises only what opening, writing or closing the
    image, building its block of zeros, or creating or removing the
    temporary directory, raised. *)
Theorem partitioning_never_fails_the_image {W : Type} (handle : machine W) (w : W)
    (kernel_path output_image : string) (size_mb : Z) :
  let r := exec handle (create_disk_image kernel_path output_image size_mb) w in
  match r.1.2 with
  | Returned ok => ok = true
  | Raised e => exists err, e = Exc err /\ In err (file_errors r.1.1)
  end.
Proof.
  apply (always_exec _ _ (create_disk_image_spec kernel_path output_image size_mb)).
Qed.

(** X23: the only programs that the flat-image variant starts are
    [losetup -P], [parted mklabel] and [parted mkpart], in this order and
    up to the first that cannot be started: no formatter runs and the
    loop device is never detached.  The line [Disk image formatted (MBR +
    FAT32)] is printed exactly when all three were started, whatever
    exit status they returned. *)
Theorem formatted_is_reported_without_a_formatter {W : Type} (handle : machine W) (w : W)
    (kernel_path output_image : string) (size_mb : Z) :
  let t := (exec handle (create_disk_image kernel_path output_image size_mb) w).1.1 in
  List.map fst (programs t) `prefix_of` partition_plan output_image /\
  existsb (String.eqb formatted_line) (lines t)
  = (Nat.eqb (List.length (programs t)) 3 && all_started t).
Proof.
  intros t.
  pose proof (always_exec _ _ (create_disk_image_spec kernel_path output_image size_mb)
                W handle w) as (_ & Hplan & Hline & _).
  split; assumption.
Qed.


(** ** [main] *)

(** Line 85: the size that [main] hands to [create_disk_image], for a
    size argument that is a plain literal, or without one. *)
Definition requested_size (rest : list string) : option Z :=
  match rest with
  | size :: _ =>
      match DiskWithInit.read_int size with
      | DiskWithInit.Number n => Some n
      | _ => None
      end
  | [] => Some 128
  end.

(** A machine on which every call succeeds and every program exits with
    status 0. *)
Definition obliging : machine unit :=
  fun X op w =>
    (match op in call_op X return X with
     | Os o => Worlds.all_fine _ o
     | Exec _ => inr 0
     end, w).

(** A machine without [losetup] and [parted], on which nothing exists
    yet. *)
Definition bare : machine unit :=
  fun X op w =>
    (match op in call_op X return X with
     | Os o =>
         match o in os_op X return X with
         | PathExists _ => false
         | o' => Worlds.all_fine _ o'
         end
     | Exec argv =>
         inl (PyError "FileNotFoundError" "[Errno 2] No such file or directory")
     end, w).

Definition usage : list step :=
  [Step (Os (Print "Usage: ./create_bootable_image.py <kernel_path> <output_image> [size_mb]")) tt;
   Step (Os (Print "Example: ./create_bootable_image.py bzImage ark.img 256")) tt].

(** X24: with fewer than two arguments after the script name, [main]
    prints the two usage lines and exits with status 1 without any
    other call. *)
Theorem flat_main_usage {W : Type} (handle : machine W) (w : W) (argv : list string) :
  (List.length argv < 3)%nat ->
  let m := exec handle (main argv) w in
  m.1.1 = usage /\ m.1.2 = Raised (SystemExit 1).
Proof.
  intros Hlen.
  assert (H : always (main argv) (fun t o => t = usage /\ o = Raised (SystemExit 1))).
  { destruct argv as [| a0 [| a1 [| a2 rest]]];
      try (simpl in Hlen; lia); simpl; intros [] []; split; reflexivity. }
  apply (always_exec _ _ H).
Qed.

Lemma flat_main_usage_witness :
  let m := exec obliging (main ["create_bootable_image.py"; "bzImage"]%string) tt in
  m.1.1 = usage /\ m.1.2 = Raised (SystemExit 1).
Proof.
  apply (flat_main_usage obliging tt ["create_bootable_image.py"; "bzImage"]%string).
  simpl. lia.
Defined.

(** X25: when the size argument, if there is one, is a plain literal
    that [int] accepts, and the kernel file does not exist, [main]
    prints one error line and exits with status 1 right after the
    check: no image is written and no program is started. *)
Theorem flat_main_stops_without_kernel {W : Type} (handle : machine W) (w : W)
    (a0 kernel_path output_image : string) (rest : list string) (size_mb : Z) :
  requested_size rest = Some size_mb ->
  (handle _ (Os (PathExists kernel_path)) w).1 = false ->
  let m := exec handle (main (a0 :: kernel_path :: output_image :: rest)) w in
  m.1.1 = [Step (Os (PathExists kernel_path)) false;
           Step (Os (Print (":: Error: Kernel file not found: " ++ kernel_path))) tt] /\
  m.1.2 = Raised (SystemExit 1).
Proof.
  intros Hsize Hmissing m. subst m. unfold main.
  assert (Hint : match rest with
                 | s :: _ => py_int s
                 | [] => Done 128
                 end = Done size_mb).
  { destruct rest as [| s rest']; simpl in Hsize; [congruence |].
    unfold py_int. destruct (DiskWithInit.read_int s); congruence. }
  rewrite Hint. cbn [and_then exec os].
  destruct (handle bool (Os (PathExists kernel_path)) w) as [found w1].
  simpl in Hmissing. subst found.
  cbn [negb and_then emit os exec].
  destruct (handle unit (Os (Print _)) w1) as [[] w2].
  split; reflexivity.
Qed.

Lemma flat_main_stops_without_kernel_witness :
  let m := exec bare (main ["create_bootable_image.py"; "bzImage"; "ark.img"]%string) tt in
  m.1.1 = [Step (Os (PathExists "bzImage")) false;
           Step (Os (Print ":: Error: Kernel file not found: bzImage")) tt] /\
  m.1.2 = Raised (SystemExit 1).
Proof.
  apply (flat_main_stops_without_kernel bare tt "create_bootable_image.py" "bzImage"
           "ark.img" [] 128); reflexivity.
Defined.

(** Every run of [main] that gets past the count of its arguments. *)
Lemma flat_main_runs (a0 kernel_path output_image : string) (rest : list string) :
  always (main (a0 :: kernel_path :: output_image :: rest))
    (fun t o =>
       existsb (String.eqb failure_line) (lines t) = false /\
       (writes t = [] \/
        exists size_mb,
          writes t = [(output_image, zero_bytes (size_mb * 1024 * 1024))] /\
          forall n, requested_size rest = Some n -> n = size_mb) /\
       (o = Returned tt ->
        In (":: Bootable disk image created: " ++ output_image)%string (lines t))).
Proof.
  unfold main.
  match goal with
  | |- always (and_then _ ?k) _ =>
      assert (Hbody : forall size_mb,
                always (k size_mb)
                  (fun t o =>
                     existsb (String.eqb failure_line) (lines t) = false /\
                     (writes t = [] \/
                      writes t = [(output_image, zero_bytes (size_mb * 1024 * 1024))]) /\
                     (o = Returned tt ->
                      In (":: Bootable disk image created: " ++ output_image)%string
                         (lines t))))
  end.
  { intros size_mb. cbv beta. steps. destruct x; steps.
    2:{ split; [reflexivity |]. split; [left; reflexivity | discriminate]. }
    apply always_and_then. eapply always_conseq; [apply create_disk_image_spec |].
    intros t o (Ho & _ & _ & Hfail & Hw).
    assert (Hwrites : forall after,
              gather write_of after = [] ->
              writes (Step (Os (PathExists kernel_path)) true :: t ++ after) = [] \/
              writes (Step (Os (PathExists kernel_path)) true :: t ++ after)
              = [(output_image, zero_bytes (size_mb * 1024 * 1024))]).
    { intros after Hafter. unfold writes in *. cbn [gather write_of].
      rewrite gather_app, Hafter, app_nil_r. exact Hw. }
    destruct o as [ok | e].
    - subst ok. steps. split; [| split].
      + unfold lines in *. cbn [gather line_of]. rewrite gather_app, existsb_app, Hfail.
        reflexivity.
      + apply Hwrites. reflexivity.
      + intros _. unfold lines. cbn [gather line_of]. rewrite gather_app.
        apply in_or_app. right. left. reflexivity.
    - split; [| split].
      + unfold lines in *. cbn [gather line_of]. exact Hfail.
      + rewrite <- (app_nil_r t). apply Hwrites. reflexivity.
      + discriminate. }
  assert (Hsized : forall size_mb,
            (forall n, requested_size rest = Some n -> n = size_mb) ->
            forall t o,
              existsb (String.eqb failure_line) (lines t) = false /\
              (writes t = [] \/
               writes t = [(output_image, zero_bytes (size_mb * 1024 * 1024))]) /\
              (o = Returned tt ->
               In (":: Bootable disk image created: " ++ output_image)%string (lines t)) ->
              existsb (String.eqb failure_line) (lines t) = false /\
              (writes t = [] \/
               exists size_mb,
                 writes t = [(output_image, zero_bytes (size_mb * 1024 * 1024))] /\
                 forall n, requested_size rest = Some n -> n = size_mb) /\
              (o = Returned tt ->
               In (":: Bootable disk image created: " ++ output_image)%string (lines t))).
  { intros size_mb Hreq t o (H1 & H2 & H3). split; [exact H1 |]. split; [| exact H3].
    destruct H2 as [H2 | H2]; [left; exact H2 | right; eauto]. }
  destruct rest as [| s rest'].
  - cbn [and_then]. eapply always_conseq; [apply (Hbody 128) |].
    apply Hsized. intros n Hn. injection Hn as <-. reflexivity.
  - unfold py_int. destruct (DiskWithInit.read_int s) as [n | |] eqn:Hs.
    + cbn [and_then]. eapply always_conseq; [apply (Hbody n) |].
      apply Hsized. intros n' Hn. cbn [requested_size] in Hn. rewrite Hs in Hn.
      injection Hn as <-. reflexivity.
    + split; [reflexivity |]. split; [left; reflexivity | discriminate].
    + steps.
      * split; [reflexivity |]. split; [left; reflexivity | discriminate].
      * eapply always_conseq; [apply (Hbody x) |]. intros t o Ht.
        apply (Hsized x);
          [intros n' Hn; cbn [requested_size] in Hn; rewrite Hs in Hn; discriminate Hn |].
        unfold lines, writes in *. cbn [gather line_of write_of]. exact Ht.
Qed.

Lemma flat_main_spec (a0 kernel_path output_image : string) (rest : list string)
    (size_mb : Z) :
  requested_size rest = Some size_mb ->
  always (main (a0 :: kernel_path :: output_image :: rest))
    (fun t o =>
       existsb (String.eqb failure_line) (lines t) = false /\
       (writes t = [] \/
        writes t = [(output_image, zero_bytes (size_mb * 1024 * 1024))]) /\
       (o = Returned tt ->
        In (":: Bootable disk image created: " ++ output_image)%string (lines t))).
Proof.
  intros Hsize. eapply always_conseq; [apply flat_main_runs |].
  intros t o (H1 & H2 & H3). split; [exact H1 |]. split; [| exact H3].
  destruct H2 as [H2 | (n & H2 & Hn)]; [left; exact H2 |].
  right. rewrite (Hn _ Hsize). exact H2.
Qed.

(** X26: [main] never takes its failure branch: in no run is the line
    [:: Failed to create bootable disk image] printed, since
    [create_disk_image] returns [True] or raises. *)
Theorem flat_main_never_reports_failure {W : Type} (handle : machine W) (w : W)
    (argv : list string) :
  let m := exec handle (main argv) w in
  existsb (String.eqb failure_line) (lines m.1.1) = false.
Proof.
  assert (H : always (main argv)
                (fun t _ => existsb (String.eqb failure_line) (lines t) = false)).
  { destruct argv as [| a0 [| kernel_path [| output_image rest]]];
      try (simpl; intros [] []; reflexivity).
    eapply always_conseq; [apply flat_main_runs |].
    intros t o (Hfail & _). exact Hfail. }
  apply (always_exec _ _ H).
Qed.

(** X27: the only data that the flat-image variant writes are the
    zeros of the image: [size_mb * 1024 * 1024] zero bytes at the output
    path, 128 megabytes when no size is given; and when [main] returns,
    it has printed that the bootable image was created. *)
Theorem flat_image_is_zero_filled {W : Type} (handle : machine W) (w : W)
    (a0 kernel_path output_image : string) (rest : list string) (size_mb : Z) :
  requested_size rest = Some size_mb ->
  let m := exec handle (main (a0 :: kernel_path :: output_image :: rest)) w in
  (writes m.1.1 = [] \/
   writes m.1.1 = [(output_image, zero_bytes (size_mb * 1024 * 1024))]) /\
  (m.1.2 = Returned tt ->
   In (":: Bootable disk image created: " ++ output_image)%string (lines m.1.1)).
Proof.
  intros Hsize m.
  pose proof (always_exec _ _ (flat_main_spec a0 kernel_path output_image rest size_mb Hsize)
                W handle w) as (_ & Hw & Hdone).
  split; assumption.
Qed.

Lemma flat_image_is_zero_filled_witness :
  let m := exec obliging (main ["create_bootable_image.py"; "bzImage"; "ark.img"]%string) tt in
  (writes m.1.1 = [] \/
   writes m.1.1 = [("ark.img"%string, zero_bytes (128 * 1024 * 1024))]) /\
  (m.1.2 = Returned tt ->
   In (":: Bootable disk image created: " ++ "ark.img")%string (lines m.1.1)).
Proof.
  exact (flat_image_is_zero_filled obliging tt "create_bootable_image.py" "bzImage"
           "ark.img" [] 128 eq_refl).
Defined.

(** ** [create_grub_config] *)

(** The files that were opened, and the files that were closed, in
    order. *)
Definition os_opened_of {X : Type} (op : os_op X) : X -> option string :=
  match op in os_op X return X -> option string with
  | OpenW path _ => fun r => match r with inr _ => Some path | inl _ => None end
  | _ => fun _ => None
  end.

Definition opened_of (s : step) : option string :=
  match s with
  | @Step X op ans =>
      match op in call_op X return X -> option string with
      | Os o => os_opened_of o
      | Exec _ => fun _ => None
      end ans
  end.

Definition closed_of (s : step) : option string :=
  match s with
  | @Step X op ans =>
      match op in call_op X return option string with
      | Os (FClose path) => Some path
      | _ => None
      end
  end.

(** X28: [create_grub_config] writes its text to [grub.cfg] under the
    output directory, closes the file also when the write raises, and
    when it returns, returns the path of that file after a write of the
    whole text.  The text is that of the staging variant after one line
    break; the kernel path is not used. *)
Theorem grub_config_is_written_and_closed {W : Type} (handle : machine W) (w : W)
    (kernel_path output_dir : string) :
  let r := exec handle (create_grub_config kernel_path output_dir) w in
  let config_path := path_join output_dir "grub.cfg" in
  grub_cfg = (nl ++ DiskWithInit.grub_cfg)%string /\
  gather closed_of r.1.1 = gather opened_of r.1.1 /\
  match r.1.2 with
  | Returned path =>
      path = config_path /\
      writes r.1.1 = [(config_path, list_byte_of_string grub_cfg)]
  | Raised e => exists err, e = Exc err /\ In err (file_errors r.1.1)
  end.
Proof.
  intros r config_path. split; [reflexivity |]. subst r config_path.
  assert (H : always (create_grub_config kernel_path output_dir)
                (fun t o =>
                   gather closed_of t = gather opened_of t /\
                   match o with
                   | Returned path =>
                       path = path_join output_dir "grub.cfg" /\
                       writes t = [(path_join output_dir "grub.cfg",
                                    list_byte_of_string grub_cfg)]
                   | Raised e => exists err, e = Exc err /\ In err (file_errors t)
                   end)).
  { unfold create_grub_config. steps.
    all: split; [reflexivity |].
    all: first [split; reflexivity | eexists; split; [reflexivity |]; simpl; auto]. }
  apply (always_exec _ _ H).
Qed.

End BootableImage.
